(** * Sim2Blend: the numeric transform pipeline of [motion.py] and [forces.py]

    A shallow embedding of the two conversion routines of Sim2Blend,
    [apply_mot_to_model] (body poses to location / Euler angles, the pose CSV
    written and read back) and [fpdata2locrot] (force-plate records to
    location / rotation / scale columns), and the properties of them that the
    specification states.

    numpy's [float64] is the kernel's binary64 type [float]: addition,
    subtraction, multiplication, division, square root and comparison are the
    IEEE 754 operations the Python code runs.  What the code calls in other
    libraries and the source does not define ([numpy.arctan2], the [mathutils]
    vector operations, the text form of a float in [savetxt] / [loadtxt], the
    name cleaning [readNames]) is a variable of the section that uses it. *)

From Stdlib Require Import ZArith QArith Qabs Floats Ascii String Lia.
From stdpp Require Import base list strings.

Set Default Proof Using "Type".
#[local] Set Warnings "-inexact-float".
#[local] Arguments String.append !_ _ /.

(** ** Python exceptions and results *)

Inductive exn : Set :=
| IndexError | KeyError | ValueError | ZeroDivisionError
| OverflowError | AttributeError.

Inductive result (A : Type) : Type :=
| Ok (a : A)
| Raise (e : exn).
Arguments Ok {A} a.
Arguments Raise {A} e.

#[global] Instance result_ret : MRet result := @Ok.
#[global] Instance result_bind : MBind result := fun A B k r =>
  match r with Ok a => k a | Raise e => Raise e end.

(** [l[i]] for a non-negative index: [IndexError] past the end. *)
Definition getitem {A} (l : list A) (i : nat) : result A :=
  match l !! i with Some a => Ok a | None => Raise IndexError end.

(** [result]-valued map over a list, left to right. *)
Fixpoint mapR {A B} (f : A -> result B) (l : list A) : result (list B) :=
  match l with
  | [] => Ok []
  | a :: l' => b ← f a; bs ← mapR f l'; Ok (b :: bs)
  end.

(** ** Matrices of floats, as numpy holds them (a list of rows) *)

Abbreviation matrix := (list (list float)).

(** [M[i,j]] inside a matrix whose shape the code fixed itself. *)
Definition item (M : matrix) (i j : nat) : float :=
  nth j (nth i M []) nan.

Definition column (M : matrix) (j : nat) : list float :=
  map (fun r => nth j r nan) M.

(** [M.T] of a matrix with [n] columns. *)
Definition transpose (n : nat) (M : matrix) : matrix :=
  map (column M) (seq 0 n).

(** Inner product, accumulated from zero in index order. *)
Definition dot (u v : list float) : float :=
  fold_left (fun acc p => (acc + fst p * snd p)%float) (combine u v) 0%float.

(** [A @ B] for [B] with [n] columns. *)
Definition matmul (n : nat) (A B : matrix) : matrix :=
  map (fun r => map (fun j => dot r (column B j)) (seq 0 n)) A.

Module Motion.

(** *** Poses *)

(** What [b.getTransformInGround(state)] hands over: the rotation [R()] read
    entry by entry with [get], and the translation [T()]. *)
Record Transform : Type := { R_swig : matrix; T_swig : list float }.

(** [R = np.array([[R_swig.get(0,0), ...], ...])] *)
Definition R_of (X : Transform) : matrix :=
  let g := item (R_swig X) in
  [ [g 0 0; g 0 1; g 0 2]; [g 1 0; g 1 1; g 1 2]; [g 2 0; g 2 1; g 2 2] ].

(** [H = np.block([ [R, T.reshape(3,1)], [np.zeros(3), 1] ])] *)
Definition block (R : matrix) (T : list float) : matrix :=
  let t k := nth k T nan in
  [ [item R 0 0; item R 0 1; item R 0 2; t 0];
    [item R 1 0; item R 1 1; item R 1 2; t 1];
    [item R 2 0; item R 2 1; item R 2 2; t 2];
    [0%float; 0%float; 0%float; 1%float] ].

Definition H_of (X : Transform) : matrix := block (R_of X) (T_swig X).

Definition H_zup : matrix :=
  [ [1; 0; 0; 0]; [0; 0; -1; 0]; [0; 1; 0; 0]; [0; 0; 0; 1] ]%float.

(** [if direction=='zup': H = H_zup @ H] *)
Definition up_axis (direction : string) (H : matrix) : matrix :=
  if String.eqb direction "zup" then matmul 4 H_zup H else H.

(** [H[0:3,0:3]] *)
Definition R_mat_of (H : matrix) : matrix :=
  map (take 3) (take 3 H).

Section Decomposition.

(** [numpy.arctan2], first argument the ordinate. *)
Variable arctan2 : float -> float -> float.

(** [sy = np.sqrt(R_mat[1,0]**2 + R_mat[0,0]**2)], a square being the
    product of the value with itself. *)
Definition sy_of (R_mat : matrix) : float :=
  sqrt (item R_mat 1 0 * item R_mat 1 0 + item R_mat 0 0 * item R_mat 0 0)%float.

(** The body of [if export_to_csv:] inside the loop over the bodies: the six
    values appended to [loc_rot_frame].  [R] is the rotation block built
    before the up-axis step, [H] the matrix after it; the source names both
    in its second branch. *)
Definition loc_rot (R H : matrix) : list float :=
  let loc_x := item H 0 3 in
  let loc_y := item H 1 3 in
  let loc_z := item H 2 3 in
  let R_mat := R_mat_of H in
  let sy := sy_of R_mat in
  if (1e-6 <? sy)%float then
    let rot_x := arctan2 (item R_mat 2 1) (item R_mat 2 2) in
    let rot_y := arctan2 (- item R_mat 2 0)%float sy in
    let rot_z := arctan2 (item R_mat 1 0) (item R_mat 0 0) in
    [loc_x; loc_y; loc_z; rot_x; rot_y; rot_z]
  else
    let rot_x := arctan2 (- item R_mat 1 2)%float (item R_mat 1 1) in
    let rot_y := arctan2 (- item R 2 0)%float sy in
    let rot_z := 0%float in
    [loc_x; loc_y; loc_z; rot_x; rot_y; rot_z].

(** One turn of [for b in bodies]: the six values for the CSV row and the
    matrix assigned to [obj.matrix_world]. *)
Definition body_pose (direction : string) (X : Transform)
  : list float * matrix :=
  let R := R_of X in
  let H := block R (T_swig X) in
  let H := up_axis direction H in
  (loc_rot R H, transpose 4 H).

(** The Matrix Decomposer as the specification words it: every rotation
    entry is read from the matrix being decomposed. *)
Definition decomposer_spec (H : matrix) : list float :=
  let R := R_mat_of H in
  let sy := sy_of R in
  if (1e-6 <? sy)%float then
    [item H 0 3; item H 1 3; item H 2 3;
     arctan2 (item R 2 1) (item R 2 2);
     arctan2 (- item R 2 0)%float sy;
     arctan2 (item R 1 0) (item R 0 0)]
  else
    [item H 0 3; item H 1 3; item H 2 3;
     arctan2 (- item R 1 2)%float (item R 1 1);
     arctan2 (- item R 2 0)%float sy;
     0%float].

End Decomposition.

(** *** Text of the pose CSV *)

Definition comma : ascii := ","%char.
Definition newline : ascii := "010"%char.
Definition hash : ascii := "#"%char.
Definition cr : ascii := "013"%char.

(** Whether the character [c] occurs in [s]. *)
Fixpoint occurs (c : ascii) (s : string) : bool :=
  match s with
  | EmptyString => false
  | String a s' => if Ascii.eqb a c then true else occurs c s'
  end.

(** [s.split(sep)] for a separator of one character. *)
Fixpoint split (sep : ascii) (s : string) : list string :=
  match s with
  | EmptyString => [EmptyString]
  | String a s' =>
      if Ascii.eqb a sep then EmptyString :: split sep s'
      else match split sep s' with
           | [] => [String a EmptyString]
           | t :: ts => String a t :: ts
           end
  end.

(** [l[start::step]] with [step = S k]: [skip] elements are passed over
    before the next one is kept. *)
Fixpoint stride {A} (k skip : nat) (l : list A) : list A :=
  match l with
  | [] => []
  | a :: l' =>
      match skip with
      | O => a :: stride k k l'
      | S skip' => stride k skip' l'
      end
  end.

(** [s[:-2]] *)
Definition drop_last2 (s : string) : string :=
  substring 0 (String.length s - 2) s.

(** [b[1:-2]] *)
Definition slice_1_m2 (b : string) : string :=
  substring 1 (String.length b - 3) b.

(** The text of a file as Python reads it, [open(mot_path)] and [np.loadtxt]
    alike: with universal newlines, a carriage return ends a line as a line
    feed does, and a carriage return with the line feed behind it ends one
    line.  Every line break of the text read is a line feed. *)
Fixpoint universal (s : string) : string :=
  match s with
  | EmptyString => EmptyString
  | String a s' =>
      if Ascii.eqb a cr then
        String newline
          match s' with
          | EmptyString => EmptyString
          | String b s'' =>
              if Ascii.eqb b newline then universal s'' else universal s'
          end
      else String a (universal s')
  end.

(** The first line of a text whose line breaks are line feeds, its line
    break included. *)
Fixpoint first_line (text : string) : string :=
  match text with
  | EmptyString => EmptyString
  | String a s' =>
      if Ascii.eqb a newline then String a EmptyString
      else String a (first_line s')
  end.

(** [f.readline()] on a file just opened, for the text [text] of the
    file. *)
Definition readline (text : string) : string := first_line (universal text).

(** [f'{b}_x, {b}_y, {b}_z, {b}_rotx, {b}_roty, {b}_rotz, '] *)
Definition body_columns (b : string) : string :=
  b +:+ "_x, " +:+ b +:+ "_y, " +:+ b +:+ "_z, " +:+
  b +:+ "_rotx, " +:+ b +:+ "_roty, " +:+ b +:+ "_rotz, ".

(** [bodyHeader = 'times, ' + ''.join([... for b in bodyNames])[:-2]] *)
Definition bodyHeader (bodyNames : list string) : string :=
  "times, " +:+ drop_last2 (String.concat "" (map body_columns bodyNames)).

(** [bodyNames = csv_header.split(',')[1::6]], then [b[1:-2]] for each. *)
Definition header_bodyNames (csv_header : string) : list string :=
  map slice_1_m2 (stride 5 1 (split comma csv_header)).

(** The six column names of a body. *)
Definition cols (b : string) : list string :=
  [b +:+ "_x"; b +:+ "_y"; b +:+ "_z"; b +:+ "_rotx"; b +:+ "_roty";
   b +:+ "_rotz"].

(** The fields of the header line after the first: a blank before each name,
    the line break after the last. *)
Fixpoint tokens_of (l : list string) : list string :=
  match l with
  | [] => []
  | c :: l' =>
      match l' with
      | [] => [" " +:+ c +:+ String newline ""]
      | _ :: _ => (" " +:+ c) :: tokens_of l'
      end
  end.

(** What [np.loadtxt] returns, every axis of length one squeezed away: no
    dimension for a single value, one for a single row or a single column
    (or no data), two otherwise. *)
Inductive ndarray : Type :=
| Arr0 (x : float)
| Arr1 (v : list float)
| Arr2 (rows : matrix).

(** [a[:,0]] *)
Definition first_column (a : ndarray) : result (list float) :=
  match a with
  | Arr0 _ | Arr1 _ => Raise IndexError
  | Arr2 rows => mapR (fun r => getitem r 0) rows
  end.

(** [a[n,k]] *)
Definition item2 (a : ndarray) (n k : nat) : result float :=
  match a with
  | Arr0 _ | Arr1 _ => Raise IndexError
  | Arr2 rows => r ← getitem rows n; getitem r k
  end.

Section Text.

(** The text [savetxt] writes for one value (format [%.18e]) and the value
    [loadtxt] reads from one field. *)
Variable repr : float -> string.
Variable float_of : string -> result float.

Definition row_text (row : list float) : string :=
  String.concat "," (map repr row) +:+ String newline "".

(** [np.savetxt(fname, X, delimiter=',', header=header)]: the header behind
    the comment mark, then one line per row. *)
Definition savetxt (X : matrix) (header : string) : string :=
  "# " +:+ header +:+ String newline (String.concat "" (map row_text X)).

Definition same_length (rows : matrix) : bool :=
  match rows with
  | [] => true
  | r :: rs => forallb (fun r' => Nat.eqb (length r') (length r)) rs
  end.

(** What [loadtxt] keeps of a line: the text before the comment mark. *)
Fixpoint uncomment (l : string) : string :=
  match l with
  | EmptyString => EmptyString
  | String a l' =>
      if Ascii.eqb a hash then EmptyString else String a (uncomment l')
  end.

(** The value of one field: a field that does not read as a number is a
    [ValueError]. *)
Definition field_value (s : string) : result float :=
  match float_of s with
  | Ok x => Ok x
  | Raise _ => Raise ValueError
  end.

(** The rows of one line each. *)
Definition parse_lines (lines : list string) : result matrix :=
  mapR (fun l => mapR field_value (split comma l)) lines.

(** The array of the rows read: rows of different lengths are refused, and
    the axes of length one are squeezed away ([ndmin=0]). *)
Definition to_array (rows : matrix) : result ndarray :=
  match rows with
  | [] => Ok (Arr1 [])
  | [r] => Ok (match r with [x] => Arr0 x | _ => Arr1 r end)
  | r :: _ =>
      if same_length rows then
        Ok (if length r =? 1 then Arr1 (concat rows) else Arr2 rows)
      else Raise ValueError
  end.

(** [np.loadtxt(mot_path, delimiter=",", dtype=float, skiprows=1)]: the
    first line is passed over, comments are cut off, empty lines are dropped,
    and each line left is split at the commas. *)
Definition loadtxt (text : string) : result ndarray :=
  let lines := filter (fun l => l <> EmptyString)
                      (map uncomment
                           (drop 1 (split newline (universal text)))) in
  rows ← parse_lines lines;
  to_array rows.

(** A value whose text reads back as itself and holds no comma, no line
    break (line feed or carriage return) and no comment mark. *)
Definition prints_back (x : float) : Prop :=
  float_of (repr x) = Ok x /\
  occurs comma (repr x) = false /\ occurs newline (repr x) = false /\
  occurs hash (repr x) = false /\ occurs cr (repr x) = false.

(** The text of a row before its line break. *)
Definition line (row : list float) : string :=
  String.concat "," (map repr row).

End Text.

(** *** Frame rate *)

(** The exact value of a finite float. *)
Definition float_Q (x : float) : option Q :=
  match Prim2SF x with
  | S754_zero _ => Some 0%Q
  | S754_finite s m e =>
      let n := if s then Zneg m else Zpos m in
      Some (if (0 <=? e)%Z then inject_Z (n * 2 ^ e)
            else Qmake n (2 ^ Z.to_pos (- e)))
  | _ => None
  end.

(** A float that is a number, neither nan nor an infinity, and a pose all
    of whose entries are numbers. *)
Definition finite_float (x : float) : Prop := float_Q x <> None.

(** A zero of either sign. *)
Definition is_zero_float (x : float) : Prop :=
  exists s, Prim2SF x = S754_zero s.


(** The integer part of a rational: the quotient rounded toward zero. *)
Definition Qtrunc (q : Q) : Z := Z.quot (Qnum q) (Zpos (Qden q)).

(** [int(x)] of a float: the integer part; [ValueError] on nan and
    [OverflowError] on an infinity. *)
Definition int_of_float (x : float) : result Z :=
  match float_Q x with
  | Some q => Ok (Qtrunc q)
  | None => if is_nan x then Raise ValueError else Raise OverflowError
  end.

(** [float(len(times))] in a mixed division. *)
Definition float_of_len (n : nat) : float :=
  of_uint63 (Uint63.of_Z (Z.of_nat n)).

(** [times[-1]] *)
Definition last_item {A} (l : list A) : result A :=
  match last l with Some a => Ok a | None => Raise IndexError end.

(** [x / y] of two Python floats. *)
Definition py_truediv (x y : float) : result float :=
  if (y =? 0)%float then Raise ZeroDivisionError else Ok (x / y)%float.

(** [fps = int(len(times) / (times[-1] - times[0]))] where [times] is the
    tuple of Python floats [getIndependentColumn()] returns. *)
Definition fps_mot (times : list float) : result Z :=
  t_last ← last_item times;
  t_first ← getitem times 0;
  q ← py_truediv (float_of_len (length times)) (t_last - t_first)%float;
  int_of_float q.

(** The same line in the CSV branch, where [times] is a numpy column and the
    division is numpy's. *)
Definition fps_csv (times : list float) : result Z :=
  t_last ← last_item times;
  t_first ← getitem times 0;
  int_of_float (float_of_len (length times) / (t_last - t_first))%float.

(** The rounding the specification words: [z] is an integer nearest to [q]. *)
Definition nearest (q : Q) (z : Z) : bool :=
  Qle_bool (Qabs (q - inject_Z z)) (1 # 2).

(** *** The calls made on the scene *)

Inductive event : Type :=
| render_fps (fps : Z)
| set_matrix_world (obj : string) (M : matrix)
| set_location (obj : string) (x y z : float)
| set_rotation_euler (obj : string) (x y z : float)
| keyframe_insert (obj data_path : string) (frame : nat).

(** A run: the calls made so far, and a value or the exception that ended
    the run. *)
Definition blender (A : Type) : Type := (list event * result A)%type.

#[global] Instance blender_ret : MRet blender := fun A a => ([], Ok a).
#[global] Instance blender_bind : MBind blender := fun A B k m =>
  match m with
  | (t, Ok a) => let '(t', r) := k a in (t ++ t', r)
  | (t, Raise e) => (t, Raise e)
  end.

Definition emit (e : event) : blender unit := ([e], Ok tt).
Definition lift {A} (r : result A) : blender A := ([], r).

(** A [for] loop that collects one value per turn. *)
Fixpoint for_each {A B} (body : A -> blender B) (l : list A)
  : blender (list B) :=
  match l with
  | [] => mret []
  | a :: l' => b ← body a; bs ← for_each body l'; mret (b :: bs)
  end.

(** [collection.objects[name]] *)
Definition objects (collection : list string) (name : string)
  : result string :=
  if bool_decide (name ∈ collection) then Ok name else Raise KeyError.

(** *** The [.mot] branch *)

Section MotBranch.

Variable arctan2 : float -> float -> float.
Variable repr : float -> string.

(** The six values of a body and the scene calls of one turn of
    [for b in bodies], at frame index [n]. *)
Definition mot_body (direction : string) (collection : list string)
    (n : nat) (b : string * Transform) : blender (list float) :=
  let '(lr, MW) := body_pose arctan2 direction b.2 in
  obj ← lift (objects collection b.1);
  _ ← emit (set_matrix_world obj MW);
  _ ← emit (keyframe_insert obj "location" (n + 1));
  _ ← emit (keyframe_insert obj "rotation_euler" (n + 1));
  mret lr.

(** One turn of [for n in range(motion_data.getNumRows())]: the row
    [loc_rot_frame].  [fk n i] is the transform in ground of body [i] once
    the coordinates of row [n] are set. *)
Definition mot_frame (direction : string) (collection : list string)
    (bodyNames : list string) (fk : nat -> nat -> Transform) (n : nat)
  : blender (list float) :=
  lrs ← for_each (mot_body direction collection n)
                 (zip bodyNames (map (fk n) (seq 0 (length bodyNames))));
  mret (concat lrs).

(** [np.insert(loc_rot_frame_all_np, 0, times, axis=1)] *)
Definition insert_times (times : list float) (X : matrix) : matrix :=
  zip_with cons times X.

(** The text of the CSV file for the rows computed. *)
Definition export_csv (times : list float) (bodyNames : list string)
    (loc_rot_frame_all : matrix) : string :=
  savetxt repr (insert_times times loc_rot_frame_all) (bodyHeader bodyNames).

(** The steps of the branch for a [.mot] file that set the frame rate, pose
    the bodies and write the CSV, without the reading of the coordinates of
    the motion file; its value is the text written to the [.csv] file.  The
    whole branch, with the coordinates, is [mot_path] below. *)
Definition mot_branch (direction : string) (collection : list string)
    (times : list float) (bodyNames : list string)
    (fk : nat -> nat -> Transform) : blender string :=
  fps ← lift (fps_mot times);
  _ ← emit (render_fps fps);
  loc_rot_frame_all ←
    for_each (mot_frame direction collection bodyNames fk)
             (seq 0 (length times));
  mret (export_csv times bodyNames loc_rot_frame_all).

End MotBranch.

(** *** The [.csv] branch *)

Section CsvBranch.

Variable float_of : string -> result float.

(** One turn of [for i, b in enumerate(bodyNames)] at frame index [n]. *)
Definition csv_body (collection : list string) (a : ndarray) (n : nat)
    (ib : nat * string) : blender unit :=
  let '(i, b) := ib in
  loc_x ← lift (item2 a n (6 * i + 1));
  loc_y ← lift (item2 a n (6 * i + 2));
  loc_z ← lift (item2 a n (6 * i + 3));
  rot_x ← lift (item2 a n (6 * i + 4));
  rot_y ← lift (item2 a n (6 * i + 5));
  rot_z ← lift (item2 a n (6 * i + 6));
  obj ← lift (objects collection b);
  _ ← emit (set_location obj loc_x loc_y loc_z);
  _ ← emit (set_rotation_euler obj rot_x rot_y rot_z);
  _ ← emit (keyframe_insert obj "location" (n + 1));
  emit (keyframe_insert obj "rotation_euler" (n + 1)).

Definition enumerate {A} (l : list A) : list (nat * A) :=
  zip (seq 0 (length l)) l.

(** What the branch reads from the file: the array and the body names. *)
Definition read_csv (text : string) : result (ndarray * list string) :=
  a ← loadtxt float_of text;
  Ok (a, header_bodyNames (readline text)).

(** The branch for a [.csv] file, from the text of the file on. *)
Definition csv_branch (collection : list string) (text : string)
  : blender unit :=
  '(a, bodyNames) ← lift (read_csv text);
  times ← lift (first_column a);
  fps ← lift (fps_csv times);
  _ ← emit (render_fps fps);
  _ ← for_each
        (fun n => for_each (csv_body collection a n) (enumerate bodyNames))
        (seq 0 (length times));
  mret tt.

End CsvBranch.

(** *** The coordinates of the motion file *)

(** [np.pi] *)
Definition np_pi : float := 3.141592653589793%float.

(** [motion_data_np[:,i] = motion_data_np[:,i] * np.pi/180] on a matrix of
    [ncols] columns: numpy checks the column index against the width,
    whatever the number of rows. *)
Definition column_to_radians (ncols i : nat) (data : matrix) : result matrix :=
  if i <? ncols then
    mapR (fun row => x ← getitem row i;
                     Ok (<[i := (x * np_pi / 180)%float]> row)) data
  else Raise IndexError.

(** [for i in range(len(coordinates)): if coordinates[i].getMotionType() == 1:
    ...]: the columns of the rotational coordinates are converted, one after
    the other.  [motionTypes] holds [getMotionType()] of each coordinate
    (1: rotation, 2: translation, 3: coupled). *)
Definition to_radians (ncols : nat) (motionTypes : list nat) (data : matrix)
  : result matrix :=
  fold_left (fun acc i =>
               d ← acc;
               t ← getitem motionTypes i;
               if t =? 1 then column_to_radians ncols i d else Ok d)
            (seq 0 (length motionTypes)) (Ok data).

(** [motion_data_np[n,c]] for every coordinate [c], in order: the values
    handed to [setValue] at row [n]. *)
Definition coordinate_values (ncoords : nat) (data : matrix) (n : nat)
  : result (list float) :=
  row ← getitem data n; mapR (getitem row) (seq 0 ncoords).

(** A row after the conversion, in closed form. *)
Definition radians_row (motionTypes : list nat) (row : list float)
  : list float :=
  imap (fun c x => match motionTypes !! c with
                   | Some 1 => (x * np_pi / 180)%float
                   | _ => x
                   end) row.

(** *** The whole function *)

(** How a call ends: it returns (having written a CSV text or not), or an
    exception of one of the branches leaves it, or the [TypeError] that
    Python raises for [raise('First import a model.')], whose operand is a
    string and not an exception. *)
Inductive outcome : Type :=
| Returns (written : option string)
| Raises (e : exn)
| Raises_TypeError.

Section Function.

Variable arctan2 : float -> float -> float.
Variable repr : float -> string.
Variable float_of : string -> result float.

(** The branch for a [.mot] file with the coordinates of the motion file:
    [motionTypes] the motion types of the model's coordinates, [data] the
    matrix of the motion file with its [ncols] columns.  The values of a row
    go into the model's state; [fk n i] is the transform in ground of body
    [i] that the model gives back at row [n]. *)
Definition mot_path (direction : string) (collection : list string)
    (times : list float) (motionTypes : list nat) (ncols : nat)
    (data : matrix) (bodyNames : list string)
    (fk : nat -> nat -> Transform) : blender string :=
  fps ← lift (fps_mot times);
  _ ← emit (render_fps fps);
  motion_data_np ← lift (to_radians ncols motionTypes data);
  loc_rot_frame_all ←
    for_each (fun n =>
                _ ← lift (coordinate_values (length motionTypes)
                                            motion_data_np n);
                mot_frame arctan2 direction collection bodyNames fk n)
             (seq 0 (length data));
  mret (export_csv repr times bodyNames loc_rot_frame_all).

(** [apply_mot_to_model(mot_path, osim_path, direction)].  [collections] is
    [bpy.data.collections], [ext] is [os.path.splitext(mot_path)[1]]; the
    [.mot] branch gets what OpenSim reads from the two files, the [.csv]
    branch the text of the file. *)
Definition apply_mot_to_model (collections : string -> option (list string))
    (ext direction : string) (times : list float) (motionTypes : list nat)
    (ncols : nat) (data : matrix) (bodyNames : list string)
    (fk : nat -> nat -> Transform) (text : string) : list event * outcome :=
  match collections "osimModel" with
  | None => ([], Raises_TypeError)
  | Some collection =>
      if String.eqb ext ".mot" then
        match mot_path direction collection times motionTypes ncols data
                       bodyNames fk with
        | (t, Ok csv) => (t, Returns (Some csv))
        | (t, Raise e) => (t, Raises e)
        end
      else if String.eqb ext ".csv" then
        match csv_branch float_of collection text with
        | (t, Ok _) => (t, Returns None)
        | (t, Raise e) => (t, Raises e)
        end
      else ([], Returns None)
  end.

(** The scene calls of one body in the [.mot] branch at frame index [n]. *)
Definition mot_body_events (direction : string) (n : nat)
    (b : string * Transform) : list event :=
  [set_matrix_world b.1 (body_pose arctan2 direction b.2).2;
   keyframe_insert b.1 "location" (n + 1);
   keyframe_insert b.1 "rotation_euler" (n + 1)].

(** The bodies of frame index [n], each with its transform. *)
Definition bodies_at (bodyNames : list string)
    (fk : nat -> nat -> Transform) (n : nat) : list (string * Transform) :=
  zip bodyNames (map (fk n) (seq 0 (length bodyNames))).

(** The row [loc_rot_frame] of frame index [n]. *)
Definition mot_row (direction : string) (bodyNames : list string)
    (fk : nat -> nat -> Transform) (n : nat) : list float :=
  flat_map (fun i => (body_pose arctan2 direction (fk n i)).1)
           (seq 0 (length bodyNames)).

(** The scene calls of one body in the [.csv] branch, for the six values
    [v] of the body. *)
Definition csv_body_events (n : nat) (b : string) (v : list float)
  : list event :=
  [set_location b (nth 0 v nan) (nth 1 v nan) (nth 2 v nan);
   set_rotation_euler b (nth 3 v nan) (nth 4 v nan) (nth 5 v nan);
   keyframe_insert b "location" (n + 1);
   keyframe_insert b "rotation_euler" (n + 1)].

(** The scene calls of frame index [n] in the [.csv] branch, for the row
    [row] of the array. *)
Definition csv_frame_events (bodyNames : list string) (n : nat)
    (row : list float) : list event :=
  flat_map (fun ib => csv_body_events n ib.2
                        (take 6 (drop (6 * ib.1 + 1) row)))
           (enumerate bodyNames).

(** The scene calls of frame index [n] when the [.csv] branch replays the
    poses of the [.mot] branch. *)
Definition replay_events (direction : string) (bodyNames : list string)
    (fk : nat -> nat -> Transform) (n : nat) : list event :=
  flat_map (fun ib => csv_body_events n ib.2
                        (body_pose arctan2 direction (fk n ib.1)).1)
           (enumerate bodyNames).

End Function.

(** *** Sample data *)

(** A body turned a quarter about the vertical axis of a y-up model:
    its first column is the second basis vector. *)
Definition quarter_turn : Transform :=
  {| R_swig := [ [0; -1; 0]; [1; 0; 0]; [0; 0; 1] ]%float;
     T_swig := [0.5; 1; 2]%float |}.

(** The text forms of the few values the examples hold, as [%.18e] prints
    them; any other value is out of the sample. *)
Definition sample_repr (x : float) : string :=
  if (x =? 0)%float then "0.000000000000000000e+00"
  else if (x =? 1)%float then "1.000000000000000000e+00"
  else if (x =? 0.5)%float then "5.000000000000000000e-01"
  else if (x =? 2)%float then "2.000000000000000000e+00"
  else "nan".

Definition sample_float_of (s : string) : result float :=
  if String.eqb s "0.000000000000000000e+00" then Ok 0%float
  else if String.eqb s "1.000000000000000000e+00" then Ok 1%float
  else if String.eqb s "5.000000000000000000e-01" then Ok 0.5%float
  else if String.eqb s "2.000000000000000000e+00" then Ok 2%float
  else if String.eqb s "nan" then Ok nan
  else Raise ValueError.

(** Seven samples over four seconds. *)
Definition uneven_times : list float := [0; 0.5; 1; 1.5; 2; 3; 4]%float.

(** Two frames of two bodies. *)
Definition two_frames : matrix :=
  [ [1; 1; 1; 0; 0; 0; 2; 2; 2; 0; 0; 0];
    [1; 1; 1; 0; 0; 0; 2; 2; 2; 0; 0; 0] ]%float.

(** A file whose header has ten columns: the six of body [a] and three of
    body [b]. *)
Definition ten_columns : string :=
  savetxt sample_repr
    [ [0; 1; 1; 1; 0; 0; 0; 2; 2; 2]; [0.5; 1; 1; 1; 0; 0; 0; 2; 2; 2] ]%float
    "times, a_x, a_y, a_z, a_rotx, a_roty, a_rotz, b_x, b_y, b_z".

(** [sample_repr] and [sample_float_of] with the sign of zero, which
    [%.18e] prints. *)
Definition signed_repr (x : float) : string :=
  if ((x =? 0) && (1 / x <? 0))%float then "-0.000000000000000000e+00"
  else sample_repr x.

Definition signed_float_of (s : string) : result float :=
  if String.eqb s "-0.000000000000000000e+00" then Ok (-0)%float
  else sample_float_of s.

(** [arctan2] where the examples need it: the angle of a direction along
    the positive abscissa is the zero of the ordinate. *)
Definition sample_arctan2 (y x : float) : float :=
  if ((y =? 0) && (0 <? x))%float then y else nan.

(** A body that is not turned, and a model of two such bodies. *)
Definition upright : Transform :=
  {| R_swig := [ [1; 0; 0]; [0; 1; 0]; [0; 0; 1] ]%float;
     T_swig := [0.5; 1; 2]%float |}.

Definition two_bodies : list string := ["pelvis"; "femur_r"].

Definition sample_fk (n i : nat) : Transform := upright.

(** Two samples, half a second apart. *)
Definition half_second : list float := [0; 0.5]%float.

(** A file of one data row, and a file whose two rows have the same time. *)
Definition one_row_csv : string :=
  savetxt sample_repr [ [0; 1; 1; 1; 0; 0; 0] ]%float (bodyHeader ["a"]).

Definition frozen_clock : string :=
  savetxt sample_repr
    [ [0; 1; 1; 1; 0; 0; 0]; [0; 1; 1; 1; 0; 0; 0] ]%float (bodyHeader ["a"]).

(** A file whose second data row is cut short. *)
Definition ragged_rows : matrix :=
  [ [0; 1; 1; 1; 0; 0; 0]; [0.5; 1; 1] ]%float.

(** A pose with a nan in its rotation. *)
Definition nan_pose : matrix :=
  H_of {| R_swig := [ [nan; 0; 0]; [0; 1; 0]; [0; 0; 1] ]%float;
          T_swig := [0; 0; 0]%float |}.

(** A motion file of four columns for a model of three coordinates: a
    rotation, a translation, a rotation. *)
Definition sample_types : list nat := [1; 2; 1].

Definition sample_motion : matrix :=
  [ [180; 1; 90; 5]; [90; 2; 45; 5] ]%float.

(** [bpy.data.collections] before and after a model is loaded. *)
Definition no_collections : string -> option (list string) := fun _ => None.

Definition sample_collections (name : string) : option (list string) :=
  if String.eqb name "osimModel" then Some two_bodies else None.

End Motion.

Module Forces.

(** *** Records and vectors *)

(** A numpy record array of floats: the field names [data.dtype.names] and
    the records, one list of values per record. *)
Record recarray : Type := { names : list string; records : matrix }.

(** [Vector([x, y, z])] of [mathutils]. *)
Record Vector : Type := mkVector { vec_x : float; vec_y : float; vec_z : float }.

(** [originalarrow = Vector([1,0,0])] *)
Definition originalarrow : Vector := mkVector 1 0 0.

(** [np.pi] *)
Definition np_pi : float := 3.141592653589793%float.

(** [l[i] = v] on a numpy row: [IndexError] past the end. *)
Definition setitem {A} (l : list A) (i : nat) (v : A) : result (list A) :=
  if decide (i < length l) then Ok (<[i:=v]> l) else Raise IndexError.

(** A [for] loop in [result] that threads a state through the turns. *)
Fixpoint foldR {A S} (body : A -> S -> result S) (l : list A) (s : S)
  : result S :=
  match l with
  | [] => Ok s
  | a :: l' => s' ← body a s; foldR body l' s'
  end.

(** [locidx = []; for i in range(0,N): locidx = np.concatenate((locidx,
    i*9 + off + base))] for a base of three offsets. *)
Definition index_loop (N off : nat) (base : list nat) : list nat :=
  fold_left (fun locidx i => locidx ++ map (fun b => i * 9 + off + b) base)
            (seq 0 N) [].

(** [d[:,idx]] for a matrix of [ncols] columns: numpy checks every index
    against the width, whatever the number of rows. *)
Definition take_columns (ncols : nat) (d : matrix) (idx : list nat)
  : result matrix :=
  if forallb (fun k => k <? ncols) idx
  then mapR (fun r => mapR (getitem r) idx) d
  else Raise IndexError.

(** [row[idx] = vals], one assignment per index, in order. *)
Fixpoint put (idx : list nat) (vals row : list float) : result (list float) :=
  match idx, vals with
  | [], [] => Ok row
  | k :: idx', v :: vals' => row' ← setitem row k v; put idx' vals' row'
  | _, _ => Raise ValueError
  end.

(** The position of a field name. *)
Fixpoint field_index (name : string) (l : list string) : option nat :=
  match l with
  | [] => None
  | n :: l' => if String.eqb n name then Some 0 else S <$> field_index name l'
  end.

(** [data[name]]: numpy raises [ValueError] when there is no such field. *)
Definition field (data : recarray) (name : string) : result (list float) :=
  match field_index name (names data) with
  | Some k => mapR (fun r => getitem r k) (records data)
  | None => Raise ValueError
  end.

(** The nine column names of a force entity. *)
Definition thisfpcols (fp : string) : list string :=
  [fp +:+ "_x"; fp +:+ "_y"; fp +:+ "_z";
   fp +:+ "_rotx"; fp +:+ "_roty"; fp +:+ "_rotz";
   fp +:+ "_scalex"; fp +:+ "_scaley"; fp +:+ "_scalez"].

Section Fpdata2locrot.

(** The name cleaning applied to the raw header names, and the operations
    of [mathutils] the code calls: none of them is defined in the source.
    They are total: the source calls them outside any [try]. *)
Variable readNames : list string -> list string.
Variable Quaternion : Type.
Variable normalized : Vector -> Vector.
Variable rotation_difference : Vector -> Vector -> Quaternion.
Variable to_euler : Quaternion -> string -> float * float * float.
Variable magnitude : Vector -> float.

(** [eul[k]*180/np.pi] for the rotation from [originalarrow] to the
    normalised arrow. *)
Definition euler_degrees (thisarrow : Vector) : list float :=
  let normarrow := normalized thisarrow in
  let quat := rotation_difference originalarrow normarrow in
  let '(e0, e1, e2) := to_euler quat "XYZ" in
  [(e0 * 180 / np_pi)%float; (e1 * 180 / np_pi)%float;
   (e2 * 180 / np_pi)%float].

(** The three scale values of an arrow. *)
Definition scales (thisarrow : Vector) : list float :=
  let lateral := if (magnitude thisarrow <? 20)%float then 0%float
                 else 1%float in
  [(magnitude thisarrow / 700)%float; lateral; lateral].

(** One turn of [for j in range(0,N)] on row [i]: [arrow_i] is [arrow[i,:]],
    the state the rows [rotvals[i,:]] and [scalevals[i,:]]. *)
Definition entity_turn (arrow_i : list float) (j : nat)
    (st : list float * list float) : result (list float * list float) :=
  let '(rotvals_i, scalevals_i) := st in
  ax ← getitem arrow_i (j * 3);
  ay ← getitem arrow_i (j * 3 + 1);
  az ← getitem arrow_i (j * 3 + 2);
  let thisarrow := mkVector ax ay az in
  let normarrow := normalized thisarrow in
  let quat := rotation_difference originalarrow normarrow in
  let '(e0, e1, e2) := to_euler quat "XYZ" in
  rotvals_i ← setitem rotvals_i (3 * j) (e0 * 180 / np_pi)%float;
  rotvals_i ← setitem rotvals_i (3 * j + 1) (e1 * 180 / np_pi)%float;
  rotvals_i ← setitem rotvals_i (3 * j + 2) (e2 * 180 / np_pi)%float;
  scalevals_i ← setitem scalevals_i (j * 3) (magnitude thisarrow / 700)%float;
  if (magnitude thisarrow <? 20)%float then
    scalevals_i ← setitem scalevals_i (j * 3 + 1) 0%float;
    scalevals_i ← setitem scalevals_i (j * 3 + 2) 0%float;
    Ok (rotvals_i, scalevals_i)
  else
    scalevals_i ← setitem scalevals_i (j * 3 + 1) 1%float;
    scalevals_i ← setitem scalevals_i (j * 3 + 2) 1%float;
    Ok (rotvals_i, scalevals_i).

(** One turn of [for i in range(0,arrow.shape[0])]: the rows of [rotvals]
    and [scalevals], both copies of the row of [tails] at the start. *)
Definition row_turn (N : nat) (at_i : list float * list float)
  : result (list float * list float) :=
  let '(arrow_i, tails_i) := at_i in
  foldR (entity_turn arrow_i) (seq 0 N) (tails_i, tails_i).

(** The three assignments [alltbl[:,locidx] = tails], [alltbl[:,rotidx] =
    rotvals], [alltbl[:,scaleidx] = scalevals] on one row of zeros. *)
Definition fill_row (N : nat) (tails_i : list float)
    (rs : list float * list float) : result (list float) :=
  let alltbl_i := replicate (length tails_i * 3) 0%float in
  alltbl_i ← put (index_loop N 0 [0; 1; 2]) tails_i alltbl_i;
  alltbl_i ← put (index_loop N 3 [0; 1; 2]) rs.1 alltbl_i;
  put (index_loop N 6 [0; 1; 2]) rs.2 alltbl_i.

(** [colnames], from ['Header'] on. *)
Definition colnames_loop (fpNames : list string) : result (list string) :=
  foldR (fun i colnames =>
           fp ← getitem fpNames i; Ok (colnames ++ thisfpcols fp))
        (seq 0 (length fpNames)) ["Header"].

(** [fpdata2locrot(data)].  The first loop of the source builds an index
    array that the statement after it overwrites; it is left out, and so are
    the [print] calls of the turn [j == 3], which change no value.
    [np.core.records.fromarrays] is the record array of the columns under
    the names given. *)
Definition fpdata2locrot (data : recarray) : result recarray :=
  let fpNames := readNames (tail (names data)) in
  let headerNames := tail (names data) in
  let ncols := length headerNames + 1 in
  d ← (if forallb (fun r => length r =? ncols) (records data)
       then Ok (records data) else Raise ValueError);
  let N := length fpNames in
  let locidx := index_loop N 0 [4; 5; 6] in
  idx ← (if N =? 0 then Raise AttributeError else Ok locidx);
  tails ← take_columns ncols d idx;
  arrow ← take_columns ncols d (map (fun k => k - 3) idx);
  rot_scale ← mapR (row_turn N) (zip arrow tails);
  alltbl ← mapR (fun tr => fill_row N tr.1 tr.2) (zip tails rot_scale);
  header ← field data "Header";
  let alltbl := zip_with cons header alltbl in
  colnames ← colnames_loop fpNames;
  Ok {| names := colnames; records := alltbl |}.

(** [N = len(fpNames)] *)
Definition entity_count (data : recarray) : nat :=
  length (readNames (tail (names data))).

(** The inputs the conversion is written for: a leading field [Header], at
    least one force entity, every record as wide as the field names, and the
    fields of the last entity's second group inside that width (nine fields
    per entity make it [1 + 9*N] wide). *)
Definition force_records (data : recarray) : Prop :=
  head (names data) = Some "Header" /\
  0 < entity_count data /\
  9 * entity_count data <= length (names data) + 2 /\
  Forall (fun r => length r = length (names data)) (records data).

(** The arrow of entity [j] in a row of the input, as the code reads it. *)
Definition thisarrow_of (row : list float) (j : nat) : Vector :=
  mkVector (nth (j * 9 + 1) row nan) (nth (j * 9 + 2) row nan)
           (nth (j * 9 + 3) row nan).

(** *** The values of the conversion, in closed form *)

(** Three neighbouring assignments. *)
Definition ins3 (j : nat) (v l : list float) : list float :=
  <[j * 3 + 2 := nth 2 v nan]>
    (<[j * 3 + 1 := nth 1 v nan]> (<[j * 3 := nth 0 v nan]> l)).

(** Three neighbouring values of a row. *)
Definition three (l : list float) (i : nat) : list float :=
  [nth (i * 3) l nan; nth (i * 3 + 1) l nan; nth (i * 3 + 2) l nan].

(** [Vector([arrow[i,j*3], arrow[i,j*3+1], arrow[i,j*3+2]])] *)
Definition arrow_vec (arrow_i : list float) (j : nat) : Vector :=
  mkVector (nth (j * 3) arrow_i nan) (nth (j * 3 + 1) arrow_i nan)
           (nth (j * 3 + 2) arrow_i nan).

(** The rows of [rotvals] and [scalevals] once the loop over the entities
    is through. *)
Definition rot_row (N : nat) (arrow_i : list float) : list float :=
  flat_map (fun j => euler_degrees (arrow_vec arrow_i j)) (seq 0 N).

Definition scale_row (N : nat) (arrow_i : list float) : list float :=
  flat_map (fun j => scales (arrow_vec arrow_i j)) (seq 0 N).

(** [idx], the rows of [tails] and of [arrow]. *)
Definition idx_of (N : nat) : list nat := index_loop N 0 [4; 5; 6].

Definition tails_of (N : nat) (row : list float) : list float :=
  map (fun k => nth k row nan) (idx_of N).

Definition arrow_of (N : nat) (row : list float) : list float :=
  map (fun k => nth k row nan) (map (fun k => k - 3) (idx_of N)).

(** A record of the output: the header value, then for each entity its
    location, its angles and its scale. *)
Definition out_row (N : nat) (row : list float) : list float :=
  nth 0 row nan ::
  flat_map (fun i =>
              [nth (i * 9 + 4) row nan; nth (i * 9 + 5) row nan;
               nth (i * 9 + 6) row nan]
              ++ euler_degrees (thisarrow_of row i)
              ++ scales (thisarrow_of row i))
           (seq 0 N).

End Fpdata2locrot.

(** The direction vector as the specification words it: the endpoint at
    offsets [9*i + 4, 5, 6] minus the base at [9*i + 1, 2, 3]. *)
Definition arrow_spec (row : list float) (i : nat) : Vector :=
  let f k := nth (9 * i + k) row nan in
  mkVector (f 4 - f 1) (f 5 - f 2) (f 6 - f 3).

(** [locidx=np.array([4,5,6])] and [for i in range(N):
    locidx=np.concatenate([locidx,N*9+locidx])]: the array the first loop
    of [fpdata2locrot] builds, before the statements after it replace it. *)
Definition first_loop (N : nat) : list nat :=
  fold_left (fun locidx _ => locidx ++ map (fun k => N * 9 + k) locidx)
            (seq 0 N) [4; 5; 6].

(** *** Sample data *)

(** A stand-in for [mathutils] on which closed examples run.  Length and
    normalisation are the textbook ones; a rotation is kept as the two
    directions it joins, and its Euler angles are worked out only when the
    two are equal (no rotation): they are nan otherwise. *)
Definition sample_magnitude (v : Vector) : float :=
  sqrt (vec_x v * vec_x v + vec_y v * vec_y v + vec_z v * vec_z v)%float.

Definition sample_normalized (v : Vector) : Vector :=
  let m := sample_magnitude v in
  if (m =? 0)%float then v
  else mkVector (vec_x v / m) (vec_y v / m) (vec_z v / m).

Definition sample_rotation_difference (a b : Vector) : Vector * Vector :=
  (a, b).

Definition sample_to_euler (q : Vector * Vector) (order : string)
  : float * float * float :=
  let '(a, b) := q in
  if ((vec_x a =? vec_x b) && (vec_y a =? vec_y b) && (vec_z a =? vec_z b))%float
  then (0, 0, 0)%float else (nan, nan, nan).

(** Header names [e0_px, ...] cleaned to the text before the underscore,
    each name once. *)
Fixpoint before_underscore (s : string) : string :=
  match s with
  | EmptyString => EmptyString
  | String a s' => if Ascii.eqb a "_" then EmptyString
                   else String a (before_underscore s')
  end.

Fixpoint dedup (l : list string) : list string :=
  match l with
  | [] => []
  | x :: l' => if existsb (String.eqb x) l' then dedup l' else x :: dedup l'
  end.

Definition sample_readNames (headerNames : list string) : list string :=
  dedup (map before_underscore headerNames).

Definition sample_fpdata2locrot : recarray -> result recarray :=
  fpdata2locrot sample_readNames (Vector * Vector) sample_normalized
    sample_rotation_difference sample_to_euler sample_magnitude.

Definition raw_names (fp : string) : list string :=
  map (fun s => fp +:+ s)
      ["_px"; "_py"; "_pz"; "_vx"; "_vy"; "_vz"; "_mx"; "_my"; "_mz"].

(** Two entities, two records. *)
Definition two_plates : recarray :=
  {| names := "Header" :: raw_names "e0" ++ raw_names "e1";
     records :=
       [ [1; 700; 0; 0; 0.5; 0.25; 2; 0; 0; 0;
             10; 0; 0; 3; 4; 5; 0; 0; 0];
         [2; 0; 0; 0; 0.5; 0.25; 2; 0; 0; 0;
             3; 0; 0; 3; 4; 5; 0; 0; 0] ]%float |}.

(** The two records of [two_plates]. *)
Definition first_record : list float :=
  [1; 700; 0; 0; 0.5; 0.25; 2; 0; 0; 0; 10; 0; 0; 3; 4; 5; 0; 0; 0]%float.

Definition second_record : list float :=
  [2; 0; 0; 0; 0.5; 0.25; 2; 0; 0; 0; 3; 0; 0; 3; 4; 5; 0; 0; 0]%float.

(** Records with no entity, records of six fields per entity, records
    whose first field has another name, [two_plates] with other moments, and
    a record with a nan. *)
Definition no_plate : recarray :=
  {| names := ["Header"]; records := [ [1]; [2] ]%float |}.

Definition raw_names6 (fp : string) : list string :=
  map (fun s => fp +:+ s) ["_px"; "_py"; "_pz"; "_vx"; "_vy"; "_vz"].

Definition narrow_plates : recarray :=
  {| names := "Header" :: raw_names6 "e0" ++ raw_names6 "e1";
     records := [ [1; 0; 0; 0; 1; 0; 0; 0; 0; 0; 1; 0; 0] ]%float |}.

Definition frame_plates : recarray :=
  {| names := "Frame" :: raw_names "e0" ++ raw_names "e1";
     records := records two_plates |}.

Definition other_moments : recarray :=
  {| names := names two_plates;
     records :=
       [ [1; 700; 0; 0; 0.5; 0.25; 2; 1; 2; 0.5;
             10; 0; 0; 3; 4; 5; 2; 1; 0];
         [2; 0; 0; 0; 0.5; 0.25; 2; 0.5; 0; 0;
             3; 0; 0; 3; 4; 5; 1; 1; 1] ]%float |}.

Definition nan_plate : recarray :=
  {| names := "Header" :: raw_names "e0";
     records := [ [1; nan; 0; 0; 0.5; 0.25; 2; 0; 0; 0] ]%float |}.

End Forces.

(** * Properties *)

(** ** Order of binary64 values *)

(** The decimal constants of the source are the doubles Python reads. *)
Example source_constants :
  (1e-6 = 0x1.0c6f7a0b5ed8dp-20)%float /\
  Forces.np_pi = 0x1.921fb54442d18p+1%float.
Proof. split; reflexivity. Qed.

Lemma SFcompare_antisym (x y : spec_float) :
  SFcompare y x = option_map CompOpp (SFcompare x y).
Proof.
  destruct x as [sx|sx| |sx mx ex], y as [sy|sy| |sy my ey]; simpl;
    try reflexivity; try (destruct sx; reflexivity);
    try (destruct sy; reflexivity);
    try (destruct sx, sy; reflexivity).
  destruct sx, sy; simpl; try reflexivity;
    rewrite (Z.compare_antisym ex ey);
    destruct (ex ?= ey)%Z; simpl; try reflexivity;
    pose proof (Pos.compare_cont_antisym mx my Eq) as E; simpl in E;
    rewrite <- E; destruct (Pos.compare_cont Eq mx my); reflexivity.
Qed.

Lemma leb_true_ltb_false (x y : float) :
  (x <=? y)%float = true -> (y <? x)%float = false.
Proof.
  rewrite leb_spec, ltb_spec. unfold SFleb, SFltb.
  rewrite (SFcompare_antisym (Prim2SF x) (Prim2SF y)).
  destruct (SFcompare (Prim2SF x) (Prim2SF y)) as [[]|]; simpl; congruence.
Qed.

Lemma SFcompare_refl (x : spec_float) :
  x <> S754_nan -> SFcompare x x = Some Eq.
Proof.
  destruct x as [s|s| |s m e]; simpl; intros H; try congruence.
  - now destruct s.
  - destruct s; rewrite Z.compare_refl, ?Pos.compare_cont_refl; reflexivity.
Qed.

Lemma is_nan_spec (x : float) : is_nan x = true -> Prim2SF x = S754_nan.
Proof.
  unfold is_nan. rewrite FloatAxioms.eqb_spec. unfold SFeqb. intros H.
  destruct (Prim2SF x) eqn:E; try reflexivity;
    rewrite SFcompare_refl in H by discriminate; discriminate.
Qed.

Lemma is_nan_ltb (x y : float) : is_nan x = true -> (y <? x)%float = false.
Proof.
  intros H. rewrite ltb_spec, (is_nan_spec x H). unfold SFltb.
  now destruct (Prim2SF y) as [[]|[]| |[] ? ?].
Qed.

Lemma is_nan_ltb_l (x y : float) : is_nan x = true -> (x <? y)%float = false.
Proof.
  intros H. rewrite ltb_spec, (is_nan_spec x H). reflexivity.
Qed.

Lemma eqb_zero_spec (d : float) :
  (d =? 0)%float = true -> exists s, Prim2SF d = S754_zero s.
Proof.
  rewrite FloatAxioms.eqb_spec. unfold SFeqb.
  change (Prim2SF 0) with (S754_zero false).
  destruct (Prim2SF d) as [s|s| |s m e]; simpl;
    try discriminate; try (destruct s; discriminate).
  eauto.
Qed.

Lemma div_zero_float_Q (x d : float) :
  (d =? 0)%float = true -> Motion.float_Q (x / d) = None.
Proof.
  intros H. destruct (eqb_zero_spec d H) as [s Hs].
  unfold Motion.float_Q. rewrite div_spec, Hs.
  now destruct (Prim2SF x) as [?|?| |? ? ?].
Qed.


(** *** Products with 0, 1 and -1, sums with 0

    On numbers these operations are exact, up to the sign of a zero: the
    entries of [H_zup @ H] are entries of [H] or their opposites. *)





Lemma float_Q_zero (x : float) :
  Motion.is_zero_float x -> Motion.float_Q x = Some 0%Q.
Proof. intros [s H]. unfold Motion.float_Q. now rewrite H. Qed.

Lemma zero_finite (x : float) : Motion.is_zero_float x -> Motion.finite_float x.
Proof.
  intros H. unfold Motion.finite_float. now rewrite (float_Q_zero x H).
Qed.










(** The four rows of [H_zup] against a column of numbers. *)
Section Rows.

Variables x0 x1 x2 x3 : float.
Hypothesis F0 : Motion.finite_float x0.
Hypothesis F1 : Motion.finite_float x1.
Hypothesis F2 : Motion.finite_float x2.
Hypothesis F3 : Motion.finite_float x3.





End Rows.

(** ** Strings *)

Module TextFacts.
Import Motion.

Lemma app_nil_r (s : string) : s +:+ "" = s.
Proof. induction s as [|a s IH]; simpl; [reflexivity|]. now rewrite IH. Qed.

Lemma app_assoc (s t u : string) : (s +:+ t) +:+ u = s +:+ t +:+ u.
Proof. induction s as [|a s IH]; simpl; [reflexivity|]. now rewrite IH. Qed.

Lemma length_app (s t : string) :
  String.length (s +:+ t) = String.length s + String.length t.
Proof. induction s as [|a s IH]; simpl; [reflexivity|]. now rewrite IH. Qed.

Lemma occurs_app (c : ascii) (s t : string) :
  occurs c (s +:+ t) = occurs c s || occurs c t.
Proof.
  induction s as [|a s IH]; simpl; [reflexivity|].
  destruct (Ascii.eqb a c); auto.
Qed.

Lemma concat_cons (sep x y : string) (l : list string) :
  String.concat sep (x :: y :: l) = x +:+ sep +:+ String.concat sep (y :: l).
Proof. reflexivity. Qed.

Lemma concat_empty_cons (x : string) (l : list string) :
  String.concat "" (x :: l) = x +:+ String.concat "" l.
Proof. destruct l; simpl; [now rewrite app_nil_r | reflexivity]. Qed.

Lemma occurs_concat (c : ascii) (sep : string) (l : list string) :
  occurs c sep = false -> Forall (fun t => occurs c t = false) l ->
  occurs c (String.concat sep l) = false.
Proof.
  intros Hsep Hl. induction Hl as [|x l Hx Hl IH]; [reflexivity|].
  destruct l as [|y l]; [exact Hx|].
  rewrite concat_cons, !occurs_app, Hx, Hsep, IH. reflexivity.
Qed.

(** *** Splitting *)

Lemma split_no_sep (c : ascii) (s : string) :
  occurs c s = false -> split c s = [s].
Proof.
  induction s as [|a s IH]; [reflexivity|]. simpl.
  destruct (Ascii.eqb a c); [discriminate|]. intros H. now rewrite (IH H).
Qed.

Lemma split_app_sep (c : ascii) (s t : string) :
  occurs c s = false -> split c (s +:+ String c t) = s :: split c t.
Proof.
  induction s as [|a s IH]; simpl.
  - intros _. now rewrite Ascii.eqb_refl.
  - destruct (Ascii.eqb a c); [discriminate|]. intros H. now rewrite (IH H).
Qed.

(** Splitting undoes joining, for fields free of the separator. *)
Lemma split_concat (c : ascii) (l : list string) :
  l <> [] -> Forall (fun t => occurs c t = false) l ->
  split c (String.concat (String c "") l) = l.
Proof.
  intros Hne Hl. induction Hl as [|x l Hx Hl IH]; [congruence|].
  destruct l as [|y l].
  - simpl. now apply split_no_sep.
  - rewrite concat_cons. cbn [String.append].
    rewrite (split_app_sep _ _ _ Hx), IH; [reflexivity | discriminate].
Qed.

Lemma first_line_app (s t : string) :
  occurs newline s = false ->
  first_line (s +:+ String newline t) = s +:+ String newline "".
Proof.
  induction s as [|a s IH]; simpl; [reflexivity|].
  destruct (Ascii.eqb a newline); [discriminate|]. intros H. now rewrite (IH H).
Qed.

(** A text without carriage return is read as it is. *)
Lemma universal_id (s : string) : occurs cr s = false -> universal s = s.
Proof.
  induction s as [|a s IH]; [reflexivity|]. cbn [occurs universal].
  destruct (Ascii.eqb a cr); [discriminate|]. intros H. now rewrite (IH H).
Qed.

Lemma split_nonempty (c : ascii) (s : string) : split c s <> [].
Proof.
  destruct s as [|a s]; [discriminate|]. cbn [split].
  destruct (Ascii.eqb a c); [discriminate|].
  destruct (split c s); discriminate.
Qed.

(** Splitting at a separator that is there, whatever stands before it. *)
Lemma split_app (c : ascii) (s t : string) :
  split c (s +:+ String c t) = split c s ++ split c t.
Proof.
  induction s as [|a s IH]; cbn [String.append split].
  - now rewrite Ascii.eqb_refl.
  - rewrite IH. destruct (Ascii.eqb a c); [reflexivity|].
    pose proof (split_nonempty c s).
    destruct (split c s); [congruence | reflexivity].
Qed.

(** The text read up to a line feed: the line feed ends a line of the text
    read, and the text behind it is read on its own. *)
Lemma universal_app (s t : string) :
  exists u, universal (s +:+ String newline t)
            = u +:+ String newline (universal t).
Proof.
  assert (H : forall n s, String.length s <= n ->
            exists u, universal (s +:+ String newline t)
                      = u +:+ String newline (universal t)).
  { clear s. induction n as [|n IH]; intros s Hn.
    - destruct s; [|simpl in Hn; lia]. exists EmptyString. reflexivity.
    - destruct s as [|a s]; [exists EmptyString; reflexivity|].
      simpl in Hn. cbn [String.append universal].
      destruct (Ascii.eqb a cr).
      + destruct s as [|b s]; cbn [String.append].
        * rewrite Ascii.eqb_refl. exists EmptyString. reflexivity.
        * destruct (Ascii.eqb b newline).
          -- destruct (IH s) as [u Hu]; [simpl in Hn; lia|].
             exists (String newline u). rewrite Hu. reflexivity.
          -- destruct (IH (String b s)) as [u Hu]; [simpl in *; lia|].
             exists (String newline u). cbn [String.append] in Hu.
             rewrite Hu. reflexivity.
      + destruct (IH s) as [u Hu]; [lia|].
        exists (String a u). rewrite Hu. reflexivity. }
  now apply (H (String.length s)).
Qed.

(** *** Slices *)

Lemma substring_app (s t : string) (n : nat) :
  substring 0 (String.length s + n) (s +:+ t) = s +:+ substring 0 n t.
Proof. induction s as [|a s IH]; simpl; [reflexivity|]. now rewrite IH. Qed.

Lemma substring_prefix (s t : string) :
  substring 0 (String.length s) (s +:+ t) = s.
Proof.
  rewrite <- (Nat.add_0_r (String.length s)), substring_app.
  destruct t; simpl; apply app_nil_r.
Qed.

Lemma drop_last2_app (s t : string) :
  2 <= String.length t -> drop_last2 (s +:+ t) = s +:+ drop_last2 t.
Proof.
  intros Ht. unfold drop_last2. rewrite length_app.
  replace (String.length s + String.length t - 2)
    with (String.length s + (String.length t - 2)) by lia.
  apply substring_app.
Qed.

Lemma slice_1_m2_x (b : string) : slice_1_m2 (" " +:+ b +:+ "_x") = b.
Proof.
  unfold slice_1_m2. simpl. rewrite length_app. simpl.
  replace (String.length b + 2 - 2) with (String.length b) by lia.
  apply substring_prefix.
Qed.

Lemma concat_cons_ne (sep x : string) (l : list string) :
  l <> [] -> String.concat sep (x :: l) = x +:+ sep +:+ String.concat sep l.
Proof. destruct l; [congruence | reflexivity]. Qed.

(** *** The header line *)

Lemma body_columns_concat (bodyNames : list string) :
  String.concat "" (map body_columns bodyNames) =
  String.concat "" (map (fun c => c +:+ ", ") (flat_map cols bodyNames)).
Proof.
  induction bodyNames as [|b l IH]; [reflexivity|].
  cbn [map flat_map cols app]. rewrite !concat_empty_cons, IH.
  unfold body_columns. rewrite !app_assoc. reflexivity.
Qed.

Lemma drop_last2_joined (l : list string) :
  drop_last2 (String.concat "" (map (fun c => c +:+ ", ") l)) =
  String.concat ", " l.
Proof.
  induction l as [|c l IH]; [reflexivity|].
  cbn [map]. rewrite concat_empty_cons.
  destruct l as [|c' l].
  - cbn [map String.concat]. rewrite app_nil_r, drop_last2_app by (simpl; lia).
    apply app_nil_r.
  - rewrite drop_last2_app, IH, concat_cons, app_assoc; [reflexivity|].
    cbn [map]. rewrite concat_empty_cons, !length_app. simpl. lia.
Qed.

Lemma bodyHeader_concat (bodyNames : list string) :
  bodyHeader bodyNames =
  "times, " +:+ String.concat ", " (flat_map cols bodyNames).
Proof.
  unfold bodyHeader. now rewrite body_columns_concat, drop_last2_joined.
Qed.

Lemma tokens_of_ne (l : list string) : l <> [] -> tokens_of l <> [].
Proof. destruct l as [|c [|c' l]]; simpl; congruence. Qed.

Lemma tokens_concat (l : list string) :
  l <> [] ->
  " " +:+ String.concat ", " l +:+ String newline "" =
  String.concat "," (tokens_of l).
Proof.
  induction l as [|c l IH]; [congruence|]. intros _.
  destruct l as [|c' l]; [reflexivity|].
  rewrite concat_cons.
  change (tokens_of (c :: c' :: l)) with ((" " +:+ c) :: tokens_of (c' :: l)).
  rewrite (concat_cons_ne "," (" " +:+ c) (tokens_of (c' :: l)))
    by (apply tokens_of_ne; discriminate).
  rewrite <- IH by discriminate.
  rewrite !app_assoc. reflexivity.
Qed.

Lemma header_line_concat (bodyNames : list string) :
  bodyNames <> [] ->
  ("# " +:+ bodyHeader bodyNames) +:+ String newline "" =
  String.concat "," ("# times" :: tokens_of (flat_map cols bodyNames)).
Proof.
  intros Hne.
  assert (Hc : flat_map cols bodyNames <> [])
    by (destruct bodyNames; [congruence | discriminate]).
  rewrite bodyHeader_concat.
  rewrite (concat_cons_ne "," "# times" (tokens_of (flat_map cols bodyNames)))
    by now apply tokens_of_ne.
  rewrite <- tokens_concat by exact Hc. reflexivity.
Qed.

Lemma occurs_cols (c : ascii) (b : string) :
  c = comma \/ c = newline \/ c = cr -> occurs c b = false ->
  Forall (fun t => occurs c t = false) (cols b).
Proof.
  intros [-> | [-> | ->]] Hb; unfold cols; repeat constructor;
    rewrite occurs_app, Hb; reflexivity.
Qed.

Lemma occurs_flat_cols (c : ascii) (bodyNames : list string) :
  c = comma \/ c = newline \/ c = cr ->
  Forall (fun b => occurs c b = false) bodyNames ->
  Forall (fun t => occurs c t = false) (flat_map cols bodyNames).
Proof.
  intros Hc Hl. induction Hl as [|b l Hb Hl IH]; [constructor|].
  cbn [flat_map]. apply Forall_app. split; [now apply occurs_cols | exact IH].
Qed.

Lemma occurs_tokens_of (l : list string) :
  Forall (fun t => occurs comma t = false) l ->
  Forall (fun t => occurs comma t = false) (tokens_of l).
Proof.
  induction 1 as [|c l Hc Hl IH]; [constructor|].
  destruct l as [|c' l].
  - constructor; [|constructor]. simpl. rewrite occurs_app, Hc. reflexivity.
  - cbn [tokens_of]. constructor; [|exact IH]. simpl. exact Hc.
Qed.

Lemma stride_tokens (bodyNames : list string) :
  bodyNames <> [] ->
  stride 5 0 (tokens_of (flat_map cols bodyNames)) =
  map (fun b => " " +:+ b +:+ "_x") bodyNames.
Proof.
  induction bodyNames as [|b l IH]; [congruence|]. intros _.
  destruct l as [|b' l]; [reflexivity|].
  specialize (IH ltac:(discriminate)).
  transitivity ((" " +:+ b +:+ "_x")
                  :: stride 5 0 (tokens_of (flat_map cols (b' :: l))));
    [reflexivity | now rewrite IH].
Qed.

(** The names read from the header that [bodyHeader] writes. *)
Lemma header_bodyNames_bodyHeader (bodyNames : list string) :
  bodyNames <> [] ->
  Forall (fun b => occurs comma b = false) bodyNames ->
  header_bodyNames (("# " +:+ bodyHeader bodyNames) +:+ String newline "")
  = bodyNames.
Proof.
  intros Hne Hc. unfold header_bodyNames.
  rewrite header_line_concat by exact Hne.
  rewrite split_concat; [| discriminate |].
  - cbn [stride]. rewrite stride_tokens by exact Hne.
    rewrite map_map. rewrite <- (map_id bodyNames) at 2.
    apply map_ext. intros b. apply slice_1_m2_x.
  - constructor; [reflexivity|].
    apply occurs_tokens_of, occurs_flat_cols; [now left | exact Hc].
Qed.

End TextFacts.

Module MotionFacts.
Import Motion.

Section Decomposer.

Variable arctan2 : float -> float -> float.

(** The second branch of the decomposition, whenever [sy] is at most the
    threshold: [rot_x] and [rot_z] come from the matrix decomposed, the
    ordinate of [rot_y] from the block [R] built before the up-axis step. *)
Lemma loc_rot_singular (R H : matrix) :
  (sy_of (R_mat_of H) <=? 1e-6)%float = true ->
  loc_rot arctan2 R H =
    [item H 0 3; item H 1 3; item H 2 3;
     arctan2 (- item (R_mat_of H) 1 2)%float (item (R_mat_of H) 1 1);
     arctan2 (- item R 2 0)%float (sy_of (R_mat_of H));
     0%float].
Proof.
  intros Hsy. unfold loc_rot.
  rewrite (leb_true_ltb_false _ _ Hsy). reflexivity.
Qed.





End Decomposer.



(** C1 (the code departs from it).  A quarter turn about the vertical axis,
    converted to z-up, has [sy = 0] and is decomposed in the second branch.
    The specification takes [rot_y = atan2(-R[2,0], sy)] from the converted
    matrix, whose entry [R[2,0]] is 1: [atan2(-1, 0)].  The code reads [R[2,0]]
    from the block built before the conversion, where it is 0:
    [atan2(-0, 0)].  [rot_x], [rot_z] and the location agree. *)
Theorem C1_zup_singular_rot_y (arctan2 : float -> float -> float) :
  let H := up_axis "zup" (H_of quarter_turn) in
  (sy_of (R_mat_of H) <=? 1e-6)%float = true /\
  item (R_mat_of H) 2 0 = 1%float /\
  item (R_of quarter_turn) 2 0 = 0%float /\
  (body_pose arctan2 "zup" quarter_turn).1 =
    [0.5; -2; 1; arctan2 1 0; arctan2 (-0) 0; 0]%float /\
  decomposer_spec arctan2 H =
    [0.5; -2; 1; arctan2 1 0; arctan2 (-1) 0; 0]%float.
Proof. repeat split; vm_compute; reflexivity. Qed.



(** *** Frame rate *)

(** The integer part lies between zero and the value, less than one away. *)
Lemma Qtrunc_bounds (q : Q) :
  (Qabs (inject_Z (Qtrunc q)) <= Qabs q)%Q /\
  (Qabs q < Qabs (inject_Z (Qtrunc q)) + 1)%Q /\
  (0 <= Qnum q -> 0 <= Qtrunc q)%Z /\
  (Qnum q <= 0 -> Qtrunc q <= 0)%Z.
Proof.
  destruct q as [n d]. unfold Qtrunc, Qle, Qlt. cbn.
  assert (Hd : (0 < Z.pos d)%Z) by lia.
  assert (Habs : Z.abs (n ÷ Z.pos d) = (Z.abs n / Z.pos d)%Z).
  { rewrite <- Z.quot_abs by lia.
    rewrite (Z.abs_eq (Z.pos d)) by lia.
    apply Z.quot_div_nonneg; lia. }
  rewrite Habs.
  pose proof (Z.mul_div_le (Z.abs n) (Z.pos d) Hd).
  pose proof (Z.mul_succ_div_gt (Z.abs n) (Z.pos d) Hd).
  repeat split; intros; try nia.
  - apply Z.quot_pos; lia.
  - rewrite <- (Z.opp_involutive n), Z.quot_opp_l by lia.
    assert (0 <= - n ÷ Z.pos d)%Z by (apply Z.quot_pos; lia). lia.
Qed.

Lemma fps_mot_unfold (times : list float) (t_first t_last : float) :
  times !! 0 = Some t_first -> last times = Some t_last ->
  fps_mot times =
    (q ← py_truediv (float_of_len (length times)) (t_last - t_first)%float;
     int_of_float q).
Proof.
  intros H0 Hl. unfold fps_mot, last_item, getitem. rewrite Hl, H0.
  reflexivity.
Qed.

Lemma fps_csv_unfold (times : list float) (t_first t_last : float) :
  times !! 0 = Some t_first -> last times = Some t_last ->
  fps_csv times =
    int_of_float (float_of_len (length times) / (t_last - t_first))%float.
Proof.
  intros H0 Hl. unfold fps_csv, last_item, getitem. rewrite Hl, H0.
  reflexivity.
Qed.

(** C4 as stated fails: seven frames over four seconds give the quotient
    7/4, whose nearest integer is 2; both branches derive 1. *)
Lemma C4_fps_not_nearest :
  fps_mot uneven_times = Ok 1%Z /\
  fps_csv uneven_times = Ok 1%Z /\
  float_Q (float_of_len 7 / (4 - 0))%float
    = Some (Qmake 7881299347898368 4503599627370496) /\
  Qeq (Qmake 7881299347898368 4503599627370496) (7 # 4) /\
  nearest (7 # 4) 1 = false /\
  nearest (7 # 4) 2 = true.
Proof. repeat split. Qed.

(** C4 (amended).  With a first and a last time whose difference is not
    zero, both branches derive the same frame rate: the integer part of the
    float quotient [len(times) / (t_last - t_first)], that is the quotient
    rounded toward zero, not to the nearest integer. *)
Theorem C4_fps_integer_part (times : list float) (t_first t_last : float) :
  times !! 0 = Some t_first -> last times = Some t_last ->
  (t_last - t_first =? 0)%float = false ->
  let q := (float_of_len (length times) / (t_last - t_first))%float in
  fps_mot times = int_of_float q /\
  fps_csv times = int_of_float q /\
  forall z, int_of_float q = Ok z ->
    exists r, float_Q q = Some r /\ z = Qtrunc r /\
      (Qabs (inject_Z z) <= Qabs r)%Q /\
      (Qabs r < Qabs (inject_Z z) + 1)%Q.
Proof.
  intros H0 Hl Hne q. repeat split.
  - rewrite (fps_mot_unfold _ _ _ H0 Hl). unfold py_truediv.
    rewrite Hne. reflexivity.
  - apply (fps_csv_unfold _ _ _ H0 Hl).
  - intros z Hz. unfold int_of_float in Hz.
    destruct (float_Q q) as [r|] eqn:Hr.
    + exists r. injection Hz as <-.
      destruct (Qtrunc_bounds r) as (? & ? & _). auto.
    + destruct (is_nan q); discriminate.
Qed.

Lemma C4_fps_integer_part_witness :
  fps_mot uneven_times = Ok 1%Z /\ fps_csv uneven_times = Ok 1%Z.
Proof.
  destruct (C4_fps_integer_part uneven_times 0%float 4%float)
    as (Hm & Hc & _); [reflexivity | reflexivity | reflexivity |].
  split; [rewrite Hm | rewrite Hc]; reflexivity.
Defined.

(** *** Runs *)

Lemma lift_ok_bind {A B} (a : A) (k : A -> blender B) :
  (lift (Ok a) ≫= k) = k a.
Proof. unfold lift, mbind, blender_bind. now destruct (k a). Qed.

Lemma lift_raise_bind {A B} (e : exn) (k : A -> blender B) :
  (lift (Raise e) ≫= k) = ([], Raise e).
Proof. reflexivity. Qed.

Lemma emit_bind {B} (ev : event) (k : unit -> blender B) :
  (emit ev ≫= k) = (ev :: (k tt).1, (k tt).2).
Proof. unfold emit, mbind, blender_bind. now destruct (k tt). Qed.

Lemma bind_raise {A B} (m : blender A) (k : A -> blender B) (e : exn) :
  m.2 = Raise e -> (m ≫= k).2 = Raise e.
Proof.
  destruct m as [t [a|e']]; simpl; [discriminate|].
  intros [= ->]. reflexivity.
Qed.

Lemma bind_ok_raise {A B} (m : blender A) (k : A -> blender B) (a : A)
    (e : exn) :
  m.2 = Ok a -> (k a).2 = Raise e -> (m ≫= k).2 = Raise e.
Proof.
  destruct m as [t [a'|e']]; simpl; [|discriminate].
  intros [= ->]. unfold mbind, blender_bind. now destruct (k a).
Qed.

(** *** Writing the pose CSV and reading it back *)

Lemma mapR_map_ok {A B} (f : B -> result A) (g : A -> B) (l : list A) :
  Forall (fun x => f (g x) = Ok x) l -> mapR f (map g l) = Ok l.
Proof.
  induction 1 as [|x l Hx Hl IH]; [reflexivity|].
  cbn [map mapR]. rewrite Hx. cbn. rewrite IH. reflexivity.
Qed.

Lemma filter_nonempty_lines (ls : list string) :
  Forall (fun l => l <> EmptyString) ls ->
  filter (fun l => l <> EmptyString) (ls ++ [EmptyString]) = ls.
Proof.
  intros H. rewrite filter_app.
  rewrite (filter_cons_False _ EmptyString []) by (intros Hc; now apply Hc).
  rewrite filter_nil, app_nil_r.
  induction H as [|l ls Hl Hls IH]; [reflexivity|].
  rewrite filter_cons_True by exact Hl. now rewrite IH.
Qed.

Lemma same_length_all (w : nat) (rows : matrix) :
  Forall (fun r => length r = w) rows -> same_length rows = true.
Proof.
  destruct 1 as [|r rs Hr Hrs]; [reflexivity|]. simpl.
  apply forallb_forall. intros r' Hin.
  rewrite Forall_forall in Hrs. rewrite <- list_elem_of_In in Hin.
  rewrite (Hrs r' Hin), Hr. apply Nat.eqb_refl.
Qed.

Section RoundTrip.

Variable repr : float -> string.
Variable float_of : string -> result float.

#[local] Abbreviation prints_back := (Motion.prints_back repr float_of).
#[local] Abbreviation line := (Motion.line repr).

Lemma line_newline_free (row : list float) :
  Forall prints_back row -> occurs newline (line row) = false.
Proof.
  intros H. apply TextFacts.occurs_concat; [reflexivity|].
  apply Forall_map. eapply Forall_impl; [exact H|].
  now intros x (_ & _ & ? & _).
Qed.

Lemma uncomment_free (s : string) : occurs hash s = false -> uncomment s = s.
Proof.
  induction s as [|a s IH]; [reflexivity|]. simpl.
  destruct (Ascii.eqb a hash); [discriminate|]. intros H. now rewrite IH.
Qed.

Lemma line_hash_free (row : list float) :
  Forall prints_back row -> occurs hash (line row) = false.
Proof.
  intros H. apply TextFacts.occurs_concat; [reflexivity|].
  apply Forall_map. eapply Forall_impl; [exact H|].
  now intros x (_ & _ & _ & ? & _).
Qed.

Lemma line_cr_free (row : list float) :
  Forall prints_back row -> occurs cr (line row) = false.
Proof.
  intros H. apply TextFacts.occurs_concat; [reflexivity|].
  apply Forall_map. eapply Forall_impl; [exact H|].
  now intros x (_ & _ & _ & _ & ?).
Qed.

Lemma uncomment_lines (X : matrix) :
  Forall (Forall prints_back) X ->
  map uncomment (map line X ++ [EmptyString]) = map line X ++ [EmptyString].
Proof.
  intros H. rewrite map_app, map_map. f_equal.
  apply map_ext_in. intros r Hr. apply uncomment_free, line_hash_free.
  rewrite Forall_forall in H. apply H. now apply list_elem_of_In.
Qed.

Lemma line_nonempty (row : list float) :
  2 <= length row -> line row <> EmptyString.
Proof.
  destruct row as [|x [|y row]]; simpl; try lia. intros _.
  unfold line. cbn [map]. rewrite TextFacts.concat_cons.
  destruct (repr x); discriminate.
Qed.

Lemma split_line (row : list float) :
  row <> [] -> Forall prints_back row ->
  mapR (field_value float_of) (split comma (line row)) = Ok row.
Proof.
  intros Hne H. unfold line.
  change "," with (String comma "").
  rewrite TextFacts.split_concat.
  - apply mapR_map_ok. eapply Forall_impl; [exact H|].
    intros x (Hx & _). unfold field_value. now rewrite Hx.
  - destruct row; [congruence | discriminate].
  - apply Forall_map. eapply Forall_impl; [exact H|]. now intros x (_ & ? & _).
Qed.

Lemma split_rows (X : matrix) :
  Forall (Forall prints_back) X ->
  split newline (String.concat "" (map (row_text repr) X)) =
  map line X ++ [EmptyString].
Proof.
  induction 1 as [|r X Hr HX IH]; [reflexivity|].
  cbn [map]. rewrite TextFacts.concat_empty_cons.
  unfold row_text at 1. fold (line r). rewrite TextFacts.app_assoc.
  cbn [String.append].
  rewrite TextFacts.split_app_sep by now apply line_newline_free.
  rewrite IH. reflexivity.
Qed.

Lemma mapR_lines (X : matrix) :
  Forall (fun r => r <> []) X -> Forall (Forall prints_back) X ->
  parse_lines float_of (map line X) = Ok X.
Proof.
  intros Hne H. apply mapR_map_ok.
  rewrite Forall_forall in *. intros r Hr. apply split_line; auto.
Qed.

Lemma rows_cr_free (X : matrix) :
  Forall (Forall prints_back) X ->
  occurs cr (String.concat "" (map (row_text repr) X)) = false.
Proof.
  intros H. apply TextFacts.occurs_concat; [reflexivity|].
  apply Forall_map. eapply Forall_impl; [exact H|].
  intros r Hr. unfold row_text. fold (line r).
  rewrite TextFacts.occurs_app, (line_cr_free r Hr). reflexivity.
Qed.

Lemma savetxt_cr_free (X : matrix) (header : string) :
  occurs cr header = false -> Forall (Forall prints_back) X ->
  occurs cr (savetxt repr X header) = false.
Proof.
  intros Hh H. unfold savetxt.
  change ("# " +:+ header +:+ String newline ?t)
    with ("# " +:+ (header +:+ String newline t)).
  rewrite !TextFacts.occurs_app, Hh. cbn [occurs Ascii.eqb Bool.eqb orb cr
                                          newline].
  now apply rows_cr_free.
Qed.

(** The data lines of the file that [savetxt] wrote: the lines of the rows,
    after whatever a header with a carriage return leaves behind its first
    line. *)
Lemma savetxt_data_lines (X : matrix) (header : string) :
  Forall (Forall prints_back) X ->
  exists Lh,
    drop 1 (split newline (universal (savetxt repr X header))) =
      Lh ++ map line X ++ [EmptyString] /\
    (occurs newline header = false -> occurs cr header = false -> Lh = []).
Proof.
  intros Hpb.
  destruct (occurs newline header) eqn:Hnl, (occurs cr header) eqn:Hcr.
  4:{ exists []. split; [|reflexivity].
      rewrite TextFacts.universal_id by now apply savetxt_cr_free.
      unfold savetxt.
      change ("# " +:+ header +:+ String newline ?t)
        with (("# " +:+ header) +:+ String newline t).
      rewrite TextFacts.split_app_sep by exact Hnl.
      cbn [drop]. rewrite drop_0. now apply split_rows. }
  all: unfold savetxt;
    change ("# " +:+ header +:+ String newline ?t)
      with (("# " +:+ header) +:+ String newline t);
    destruct (TextFacts.universal_app ("# " +:+ header)
                (String.concat "" (map (row_text repr) X))) as [u ->];
    rewrite (TextFacts.universal_id _ (rows_cr_free X Hpb));
    rewrite TextFacts.split_app, (split_rows X Hpb);
    pose proof (TextFacts.split_nonempty newline u) as Hu;
    destruct (split newline u) as [|p ps]; [congruence|];
    exists ps; (split; [reflexivity | discriminate]).
Qed.

Lemma filter_lines (A : list string) (X : matrix) :
  Forall (fun r => 2 <= length r) X -> Forall (Forall prints_back) X ->
  filter (fun l => l <> EmptyString)
         (map uncomment (A ++ map line X ++ [EmptyString])) =
  filter (fun l => l <> EmptyString) (map uncomment A) ++ map line X.
Proof.
  intros Hlen Hpb. rewrite map_app, filter_app.
  rewrite uncomment_lines by exact Hpb. f_equal.
  apply filter_nonempty_lines, Forall_map.
  eapply Forall_impl; [exact Hlen|]. intros r Hr. now apply line_nonempty.
Qed.

Lemma to_array_Arr2 (X : matrix) (w : nat) :
  2 <= length X -> 2 <= w -> Forall (fun r => length r = w) X ->
  to_array X = Ok (Arr2 X).
Proof.
  intros HX Hw Hlen. destruct X as [|r1 [|r2 X]]; simpl in HX; try lia.
  unfold to_array. rewrite (same_length_all w) by exact Hlen.
  apply Forall_inv in Hlen. rewrite Hlen.
  destruct (Nat.eqb_spec w 1); [lia | reflexivity].
Qed.

(** An array of two dimensions has two rows or more, each of the width of
    the first, which is not one: a single row and a single column are
    squeezed away. *)
Lemma to_array_two_dimensional (rows M : matrix) :
  to_array rows = Ok (Arr2 M) ->
  M = rows /\ 2 <= length rows /\ same_length rows = true /\
  forall r, rows !! 0 = Some r -> length r <> 1.
Proof.
  unfold to_array. destruct rows as [|r1 [|r2 rows]].
  - discriminate.
  - destruct r1 as [|x [|y r1]]; discriminate.
  - destruct (same_length _) eqn:Hs; [|discriminate].
    destruct (Nat.eqb_spec (length r1) 1) as [|Hn]; [discriminate|].
    intros [= <-]. repeat split; [simpl; lia|].
    now intros r [= <-].
Qed.

(** [loadtxt] reads the rows [savetxt] wrote, for two rows or more of one
    width of at least two. *)
Lemma loadtxt_savetxt (X : matrix) (header : string) (w : nat) :
  occurs newline header = false -> occurs cr header = false ->
  2 <= length X -> 2 <= w -> Forall (fun r => length r = w) X ->
  Forall (Forall prints_back) X ->
  loadtxt float_of (savetxt repr X header) = Ok (Arr2 X).
Proof.
  intros Hh Hc HX Hw Hlen Hpb. unfold loadtxt.
  destruct (savetxt_data_lines X header Hpb) as (Lh & -> & HLh).
  rewrite (HLh Hh Hc). cbn [app]. rewrite <- (app_nil_l (map line X ++ _)).
  rewrite filter_lines; [| | exact Hpb].
  2:{ eapply Forall_impl; [exact Hlen|]. intros r Hr. simpl in Hr. lia. }
  cbn [map filter app]. rewrite filter_nil. cbn [app].
  rewrite mapR_lines; [| | exact Hpb].
  2:{ eapply Forall_impl; [exact Hlen|]. intros [|] Hr; [simpl in Hr; lia|].
      discriminate. }
  cbn. now apply (to_array_Arr2 X w).
Qed.

Lemma readline_savetxt (X : matrix) (header : string) :
  occurs newline header = false -> occurs cr header = false ->
  Forall (Forall prints_back) X ->
  readline (savetxt repr X header) =
  ("# " +:+ header) +:+ String newline "".
Proof.
  intros Hh Hc Hpb. unfold readline.
  rewrite TextFacts.universal_id by now apply savetxt_cr_free.
  unfold savetxt.
  change ("# " +:+ header +:+ String newline ?t)
    with (("# " +:+ header) +:+ String newline t).
  now apply TextFacts.first_line_app.
Qed.

Lemma insert_times_rows (P : list float -> Prop) (Q : list float -> Prop)
    (t_ok : float -> Prop) (times : list float) (X : matrix) :
  (forall t r, t_ok t -> P r -> Q (t :: r)) ->
  Forall t_ok times -> Forall P X -> Forall Q (insert_times times X).
Proof.
  intros HPQ Ht. revert X. induction Ht as [|t times Ht Hts IH];
    intros X HX; [constructor|].
  destruct HX as [|r X Hr HX]; [constructor|].
  cbn. constructor; [now apply HPQ | now apply IH].
Qed.

Lemma insert_times_length (times : list float) (X : matrix) :
  length X = length times -> length (insert_times times X) = length times.
Proof.
  intros H. unfold insert_times. rewrite length_zip_with. lia.
Qed.

Lemma insert_times_lookup (times : list float) (X : matrix) (n : nat)
    (t : float) (row : list float) :
  times !! n = Some t -> X !! n = Some row ->
  insert_times times X !! n = Some (t :: row).
Proof.
  intros Ht Hr. unfold insert_times.
  rewrite lookup_zip_with, Ht. cbn. rewrite Hr. reflexivity.
Qed.

Lemma bodyHeader_newline_free (bodyNames : list string) :
  Forall (fun b => occurs newline b = false) bodyNames ->
  occurs newline (bodyHeader bodyNames) = false.
Proof.
  intros H. rewrite TextFacts.bodyHeader_concat, TextFacts.occurs_app.
  rewrite TextFacts.occurs_concat; [reflexivity | reflexivity |].
  apply TextFacts.occurs_flat_cols; [right; now left | exact H].
Qed.

Lemma bodyHeader_cr_free (bodyNames : list string) :
  Forall (fun b => occurs cr b = false) bodyNames ->
  occurs cr (bodyHeader bodyNames) = false.
Proof.
  intros H. rewrite TextFacts.bodyHeader_concat, TextFacts.occurs_app.
  rewrite TextFacts.occurs_concat; [reflexivity | reflexivity |].
  apply TextFacts.occurs_flat_cols; [right; now right | exact H].
Qed.

Lemma read_export_csv (times : list float) (bodyNames : list string)
    (X : matrix) :
  bodyNames <> [] ->
  Forall (fun b => occurs comma b = false /\ occurs newline b = false /\
                  occurs cr b = false)
         bodyNames ->
  2 <= length times -> length X = length times ->
  Forall (fun r => length r = 6 * length bodyNames) X ->
  Forall prints_back times -> Forall (Forall prints_back) X ->
  read_csv float_of (export_csv repr times bodyNames X)
    = Ok (Arr2 (insert_times times X), bodyNames) /\
  (forall n t, times !! n = Some t ->
     item2 (Arr2 (insert_times times X)) n 0 = Ok t) /\
  (forall n i k row v, X !! n = Some row -> row !! (6 * i + k) = Some v ->
     item2 (Arr2 (insert_times times X)) n (6 * i + k + 1) = Ok v).
Proof.
  intros Hne Hnames Hlen HX Hw Hpt HpX.
  assert (Hnl : occurs newline (bodyHeader bodyNames) = false).
  { apply bodyHeader_newline_free.
    eapply Forall_impl; [exact Hnames|]. now intros b (_ & ? & _). }
  assert (Hcr : occurs cr (bodyHeader bodyNames) = false).
  { apply bodyHeader_cr_free.
    eapply Forall_impl; [exact Hnames|]. now intros b (_ & _ & ?). }
  assert (HK : 1 <= length bodyNames)
    by (destruct bodyNames; simpl; [congruence | lia]).
  assert (Hrows : Forall (Forall prints_back) (insert_times times X)).
  { eapply (insert_times_rows _ _ prints_back);
      [ | exact Hpt | exact HpX ].
    intros t r Ht Hr. now constructor. }
  split; [|split].
  - unfold read_csv, export_csv.
    rewrite readline_savetxt by assumption.
    rewrite TextFacts.header_bodyNames_bodyHeader; [| exact Hne |].
    2:{ eapply Forall_impl; [exact Hnames|]. now intros b [? _]. }
    rewrite (loadtxt_savetxt _ _ (S (6 * length bodyNames))); try lia;
      try assumption.
    + reflexivity.
    + rewrite insert_times_length by exact HX. exact Hlen.
    + eapply (insert_times_rows _ _ (fun _ => True));
        [ | now apply Forall_true | exact Hw ].
      intros t r _ Hr. simpl. now rewrite Hr.
  - intros n t Ht.
    destruct (lookup_lt_is_Some_2 X n) as [row Hrow].
    { rewrite HX. now apply lookup_lt_Some in Ht. }
    unfold item2, getitem.
    rewrite (insert_times_lookup _ _ _ _ _ Ht Hrow). reflexivity.
  - intros n i k row v Hrow Hv.
    destruct (lookup_lt_is_Some_2 times n) as [t Ht].
    { rewrite <- HX. now apply lookup_lt_Some in Hrow. }
    assert (E : (t :: row) !! (6 * i + k + 1) = Some v)
      by (rewrite Nat.add_1_r; exact Hv).
    unfold item2, getitem.
    rewrite (insert_times_lookup _ _ _ _ _ Ht Hrow).
    unfold mbind, result_bind. rewrite E. reflexivity.
Qed.

(** C5 (amended).  For two frames or more, one body or more, body names
    holding neither a comma nor a line break (line feed or carriage return),
    and values whose text reads back as the value (and holds no comma, line
    break or comment mark),
    reading the CSV that was written gives back the array with the time
    column in front and the body names in their order; each
    time is at column 0 of its row and the [k]-th value of body [i] at column
    [6*i + k + 1], where the CSV branch reads it. *)
Theorem C5_csv_round_trip (times : list float) (bodyNames : list string)
    (X : matrix) :
  bodyNames <> [] ->
  Forall (fun b => occurs comma b = false /\ occurs newline b = false /\
                  occurs cr b = false)
         bodyNames ->
  2 <= length times -> length X = length times ->
  Forall (fun r => length r = 6 * length bodyNames) X ->
  Forall prints_back times -> Forall (Forall prints_back) X ->
  read_csv float_of (export_csv repr times bodyNames X)
    = Ok (Arr2 (insert_times times X), bodyNames) /\
  (forall n t, times !! n = Some t ->
     item2 (Arr2 (insert_times times X)) n 0 = Ok t) /\
  (forall n i k row v, X !! n = Some row -> row !! (6 * i + k) = Some v ->
     item2 (Arr2 (insert_times times X)) n (6 * i + k + 1) = Ok v).
Proof. exact (read_export_csv times bodyNames X). Qed.

(** *** The rows the [.mot] branch writes *)

Lemma loc_rot_length (arctan2 : float -> float -> float) (R H : matrix) :
  length (loc_rot arctan2 R H) = 6.
Proof. unfold loc_rot. now destruct (_ <? _)%float. Qed.

Lemma for_each_values {A B} (body : A -> blender B) (P : B -> Prop)
    (l : list A) (t : list event) (ys : list B) :
  (forall a t' y, body a = (t', Ok y) -> P y) ->
  for_each body l = (t, Ok ys) -> length ys = length l /\ Forall P ys.
Proof.
  intros HP. revert t ys. induction l as [|a l IH]; intros t ys H.
  - injection H as <- <-. now split.
  - cbn [for_each] in H. destruct (body a) as [t1 [y|e]] eqn:Ha;
      [|discriminate].
    unfold mbind at 1, blender_bind at 1 in H.
    destruct (for_each body l) as [t2 [ys'|e]] eqn:Hl; [|discriminate].
    cbn in H. injection H as <- <-.
    destruct (IH _ _ eq_refl) as [Hlen HF].
    split; [simpl; now rewrite Hlen|].
    constructor; [now apply (HP a t1) | exact HF].
Qed.

Lemma mot_body_length (arctan2 : float -> float -> float)
    (direction : string) (collection : list string) (n : nat)
    (b : string * Transform) (t : list event) (lr : list float) :
  mot_body arctan2 direction collection n b = (t, Ok lr) -> length lr = 6.
Proof.
  unfold mot_body, body_pose. destruct (objects collection b.1); cbn.
  - intros [= _ <-]. apply loc_rot_length.
  - discriminate.
Qed.

Lemma concat_length_6 (lrs : list (list float)) :
  Forall (fun lr => length lr = 6) lrs ->
  length (concat lrs) = 6 * length lrs.
Proof.
  induction 1 as [|lr lrs Hlr _ IH]; [reflexivity|].
  cbn [concat length]. rewrite length_app, Hlr, IH. lia.
Qed.

Lemma mot_frame_length (arctan2 : float -> float -> float)
    (direction : string) (collection bodyNames : list string)
    (fk : nat -> nat -> Transform) (n : nat) (t : list event)
    (row : list float) :
  mot_frame arctan2 direction collection bodyNames fk n = (t, Ok row) ->
  length row = 6 * length bodyNames.
Proof.
  unfold mot_frame. intros H.
  destruct (for_each _ _) as [t1 [lrs|e]] eqn:Hl; [|discriminate].
  cbn in H. injection H as _ <-.
  apply (for_each_values _ (fun lr => length lr = 6)) in Hl as [Hlen HF].
  - rewrite concat_length_6 by exact HF. rewrite Hlen.
    rewrite length_zip_with, length_map, length_seq. lia.
  - intros a t' y. apply mot_body_length.
Qed.

(** The CSV text the [.mot] branch returns reads back as the rows it
    computed, with the times in front, and as the model's body names. *)
Lemma mot_branch_round_trip (arctan2 : float -> float -> float)
    (direction : string) (collection bodyNames : list string)
    (times : list float) (fk : nat -> nat -> Transform) (t : list event)
    (text : string) :
  (forall x, prints_back x) ->
  bodyNames <> [] ->
  Forall (fun b => occurs comma b = false /\ occurs newline b = false /\
                  occurs cr b = false)
         bodyNames ->
  2 <= length times ->
  mot_branch arctan2 repr direction collection times bodyNames fk
    = (t, Ok text) ->
  exists X,
    text = export_csv repr times bodyNames X /\
    length X = length times /\
    read_csv float_of text = Ok (Arr2 (insert_times times X), bodyNames).
Proof.
  intros Hpb Hne Hnames Hlen H. unfold mot_branch in H.
  destruct (fps_mot times) as [fps|e]; [|discriminate].
  rewrite lift_ok_bind, emit_bind in H.
  destruct (for_each _ _) as [t1 [X|e]] eqn:HX; [|discriminate].
  cbn in H. injection H as _ <-.
  apply (for_each_values _ (fun r => length r = 6 * length bodyNames))
    in HX as [HlenX HF].
  2:{ intros n t' row. apply mot_frame_length. }
  rewrite length_seq in HlenX.
  exists X. split; [reflexivity|]. split; [exact HlenX|].
  apply read_export_csv; auto.
  - apply Forall_true. exact Hpb.
  - apply Forall_true. intros r. apply Forall_true. exact Hpb.
Qed.

End RoundTrip.

Lemma sample_prints_back (x : float) :
  x = 0%float \/ x = 0.5%float \/ x = 1%float \/ x = 2%float ->
  prints_back sample_repr sample_float_of x.
Proof. intros [-> | [-> | [-> | ->]]]; repeat split. Qed.

Lemma C5_csv_round_trip_witness :
  read_csv sample_float_of
    (export_csv sample_repr [0; 0.5]%float ["pelvis"; "femur_r"] two_frames)
  = Ok (Arr2 (insert_times [0; 0.5]%float two_frames), ["pelvis"; "femur_r"]).
Proof.
  apply (C5_csv_round_trip sample_repr sample_float_of
           [0; 0.5]%float ["pelvis"; "femur_r"] two_frames).
  - discriminate.
  - repeat constructor.
  - simpl. lia.
  - reflexivity.
  - repeat constructor.
  - repeat constructor; apply sample_prints_back; tauto.
  - repeat constructor; apply sample_prints_back; tauto.
Defined.

(** C5 as stated fails: a body named [a,b] is written into the header as
    it is, and the header read back splits at its comma; the values come
    back, the name does not. *)
Lemma C5_comma_in_name :
  read_csv sample_float_of
    (export_csv sample_repr [0; 0.5]%float ["a,b"]
       [ [1; 1; 1; 0; 0; 0]; [1; 1; 1; 0; 0; 0] ]%float)
  = Ok (Arr2 [ [0; 1; 1; 1; 0; 0; 0]; [0.5; 1; 1; 1; 0; 0; 0] ]%float,
        [""; ""]).
Proof. vm_compute. reflexivity. Qed.

(** *** The CSV branch on a file whose header does not fit its rows *)

Section Unchecked.

Variable float_of : string -> result float.
Variable collection : list string.

Lemma item2_row (row : list float) (rows : matrix) (k : nat) :
  item2 (Arr2 (row :: rows)) 0 k = getitem row k.
Proof. reflexivity. Qed.

(** One turn for a body whose six columns are in the first row. *)
Lemma csv_body_ok (row : list float) (rows : matrix) (i : nat) (b : string) :
  6 * i + 6 < length row -> b ∈ collection ->
  exists x y z rx ry rz,
    csv_body collection (Arr2 (row :: rows)) 0 (i, b) =
      ([set_location b x y z; set_rotation_euler b rx ry rz;
        keyframe_insert b "location" 1;
        keyframe_insert b "rotation_euler" 1], Ok tt).
Proof.
  intros Hlt Hb.
  destruct (lookup_lt_is_Some_2 row (6 * i + 1)) as [x Hx]; [lia|].
  destruct (lookup_lt_is_Some_2 row (6 * i + 2)) as [y Hy]; [lia|].
  destruct (lookup_lt_is_Some_2 row (6 * i + 3)) as [z Hz]; [lia|].
  destruct (lookup_lt_is_Some_2 row (6 * i + 4)) as [rx Hrx]; [lia|].
  destruct (lookup_lt_is_Some_2 row (6 * i + 5)) as [ry Hry]; [lia|].
  destruct (lookup_lt_is_Some_2 row (6 * i + 6)) as [rz Hrz]; [lia|].
  exists x, y, z, rx, ry, rz.
  unfold csv_body. rewrite !item2_row. unfold getitem.
  rewrite Hx, Hy, Hz, Hrx, Hry, Hrz, !lift_ok_bind.
  unfold objects. rewrite bool_decide_eq_true_2 by exact Hb.
  rewrite lift_ok_bind. reflexivity.
Qed.

(** One turn for a body either succeeds, and then its sixth column is in the
    row, or stops with [IndexError]. *)
Lemma csv_body_cases (row : list float) (rows : matrix) (i : nat)
    (b : string) :
  b ∈ collection ->
  (6 * i + 6 < length row /\
   (csv_body collection (Arr2 (row :: rows)) 0 (i, b)).2 = Ok tt) \/
  (csv_body collection (Arr2 (row :: rows)) 0 (i, b)).2 = Raise IndexError.
Proof.
  intros Hb. destruct (decide (6 * i + 6 < length row)) as [Hlt|Hge].
  - left. split; [exact Hlt|].
    destruct (csv_body_ok row rows i b Hlt Hb)
      as (x & y & z & rx & ry & rz & ->). reflexivity.
  - right. unfold csv_body. rewrite !item2_row. unfold getitem.
    assert (Hnone : row !! (6 * i + 6) = None)
      by (apply lookup_ge_None_2; lia).
    repeat (match goal with
            | |- context [ lift (match ?r !! ?k with _ => _ end) ] =>
                destruct (r !! k) eqn:?;
                [rewrite lift_ok_bind | reflexivity]
            end).
    congruence.
Qed.

(** The loop over the bodies of the first frame, from body index [s] on,
    stops with [IndexError] when the row is too short for the last body. *)
Lemma bodies_loop_raises (row : list float) (rows : matrix)
    (l : list string) (s : nat) :
  Forall (fun b => b ∈ collection) l ->
  6 * s < length row -> length row < 1 + 6 * (s + length l) ->
  (for_each (csv_body collection (Arr2 (row :: rows)) 0)
            (zip (seq s (length l)) l)).2 = Raise IndexError.
Proof.
  intros Hin. revert s. induction Hin as [|b l Hb Hl IH]; intros s Hs Hw.
  - simpl in Hw. lia.
  - cbn [length seq zip zip_with for_each].
    destruct (csv_body_cases row rows s b Hb) as [[Hlt Hok] | Hraise].
    + eapply bind_ok_raise; [exact Hok|].
      apply bind_raise. apply IH; simpl in Hw; lia.
    + now apply bind_raise.
Qed.

(** C9 (amended).  The CSV branch compares no column count.  When the header
    yields more bodies than the rows have columns for (a width [W] with
    [7 <= W < 1 + 6 * bodyCount]) the frame rate is set, the first body of
    frame 1 gets its location, its rotation and its two keyframes, and the
    run then stops with an [IndexError], raised inside the loop over the
    frames. *)
Theorem C9_no_column_check (text : string) (row : list float)
    (rows : matrix) (b : string) (rest : list string)
    (times : list float) (fps : Z) :
  read_csv float_of text = Ok (Arr2 (row :: rows), b :: rest) ->
  first_column (Arr2 (row :: rows)) = Ok times ->
  fps_csv times = Ok fps ->
  Forall (fun b' => b' ∈ collection) (b :: rest) ->
  7 <= length row -> length row < 1 + 6 * length (b :: rest) ->
  exists x y z rx ry rz tr,
    csv_branch float_of collection text =
      (render_fps fps
         :: set_location b x y z :: set_rotation_euler b rx ry rz
         :: keyframe_insert b "location" 1
         :: keyframe_insert b "rotation_euler" 1 :: tr,
       Raise IndexError).
Proof.
  intros Hread Hcol Hfps Hin Hw7 Hw.
  apply Forall_cons in Hin as [Hb Hrest].
  destruct (csv_body_ok row rows 0 b ltac:(lia) Hb)
    as (x & y & z & rx & ry & rz & Hbody).
  exists x, y, z, rx, ry, rz.
  assert (Hlen : length times = S (length rows)).
  { simpl in Hcol. destruct (getitem row 0); [|discriminate].
    cbn in Hcol. destruct (mapR _ rows) as [ts|] eqn:Hts; [|discriminate].
    cbn in Hcol. injection Hcol as <-. simpl. f_equal.
    clear -Hts. revert ts Hts. induction rows as [|r rows IH]; intros ts Hts.
    - now injection Hts as <-.
    - cbn in Hts. destruct (getitem r 0); [|discriminate]. cbn in Hts.
      destruct (mapR _ rows); [|discriminate]. cbn in Hts.
      injection Hts as <-. simpl. f_equal. now apply IH. }
  pose proof (bodies_loop_raises row rows rest 1 Hrest ltac:(lia)
                ltac:(simpl in Hw; lia)) as Hloop.
  unfold csv_branch. rewrite Hread, lift_ok_bind, Hcol, lift_ok_bind.
  rewrite Hfps, lift_ok_bind, emit_bind, Hlen.
  cbn [seq for_each enumerate length zip zip_with].
  set (inner := for_each _ (zip_with pair (seq 1 (length rest)) rest)) in *.
  destruct inner as [tr [u|e]] eqn:Hinner; simpl in Hloop; [discriminate|].
  injection Hloop as ->.
  exists tr. rewrite Hbody. reflexivity.
Qed.

End Unchecked.

(** C9 as stated fails: the header has ten columns, not [1 + 6 * 2]; the run
    sets the frame rate and emits the keyframes of body [a] at frame 1 before
    it stops, and it stops with [IndexError]. *)
Lemma C9_keyframes_before_failure :
  csv_branch sample_float_of ["a"; "b"] ten_columns =
    ([render_fps 4; set_location "a" 1 1 1; set_rotation_euler "a" 0 0 0;
      keyframe_insert "a" "location" 1;
      keyframe_insert "a" "rotation_euler" 1],
     Raise IndexError).
Proof. vm_compute. reflexivity. Qed.

Lemma C9_no_column_check_witness :
  exists x y z rx ry rz tr,
    csv_branch sample_float_of ["a"; "b"] ten_columns =
      (render_fps 4
         :: set_location "a" x y z :: set_rotation_euler "a" rx ry rz
         :: keyframe_insert "a" "location" 1
         :: keyframe_insert "a" "rotation_euler" 1 :: tr,
       Raise IndexError).
Proof.
  apply (C9_no_column_check sample_float_of ["a"; "b"] ten_columns
           [0; 1; 1; 1; 0; 0; 0; 2; 2; 2]%float
           [ [0.5; 1; 1; 1; 0; 0; 0; 2; 2; 2]%float ] "a" ["b"]
           [0; 0.5]%float 4%Z).
  - vm_compute. reflexivity.
  - reflexivity.
  - vm_compute. reflexivity.
  - repeat constructor.
  - simpl. lia.
  - simpl. lia.
Defined.

(** The sampling of the specification's example: a hundred samples from 0
    to 0.99 give 101 in both branches. *)
Example fps_hundred_samples :
  let times := map (fun i => (float_of_len i / 100)%float) (seq 0 100) in
  fps_mot times = Ok 101%Z /\ fps_csv times = Ok 101%Z.
Proof. split; vm_compute; reflexivity. Qed.

End MotionFacts.

(** ** Lists built block by block *)

Module ListFacts.
Import Forces.

Lemma lookup_map {A B} (f : A -> B) (l : list A) (i : nat) :
  map f l !! i = f <$> l !! i.
Proof. exact (list_lookup_fmap f l i). Qed.

Lemma mapR_ok_map {A B} (f : A -> result B) (g : A -> B) (l : list A) :
  Forall (fun x => f x = Ok (g x)) l -> mapR f l = Ok (map g l).
Proof.
  induction 1 as [|x l Hx Hl IH]; [reflexivity|].
  cbn [map mapR]. rewrite Hx. cbn. rewrite IH. reflexivity.
Qed.

Lemma mapR_map {A B C} (f : B -> result C) (h : A -> B) (l : list A) :
  mapR f (map h l) = mapR (fun x => f (h x)) l.
Proof.
  induction l as [|x l IH]; [reflexivity|]. cbn [map mapR]. now rewrite IH.
Qed.

Lemma foldR_app {A S} (body : A -> S -> result S) (l1 l2 : list A) (s : S) :
  foldR body (l1 ++ l2) s = (s' ← foldR body l1 s; foldR body l2 s').
Proof.
  revert s. induction l1 as [|a l1 IH]; intros s; [reflexivity|].
  cbn [app foldR]. destruct (body a s) as [s'|e]; [|reflexivity].
  cbn. apply IH.
Qed.

Lemma fold_left_app_flat_map {A B} (f : A -> list B) (l : list A)
    (acc : list B) :
  fold_left (fun acc i => acc ++ f i) l acc = acc ++ flat_map f l.
Proof.
  revert acc. induction l as [|a l IH]; intros acc; simpl.
  - now rewrite app_nil_r.
  - now rewrite IH, app_assoc.
Qed.

(** A list made of [N] blocks of [c] elements. *)
Lemma blocks_length {B} (c : nat) (blk : nat -> list B) (N : nat) :
  (forall j, length (blk j) = c) ->
  length (flat_map blk (seq 0 N)) = N * c.
Proof.
  intros Hc. induction N as [|N IH]; [reflexivity|].
  rewrite seq_S, flat_map_app, length_app, IH. simpl.
  rewrite app_nil_r, Hc. lia.
Qed.

Lemma blocks_lookup {B} (c : nat) (blk : nat -> list B) (N i k : nat) :
  (forall j, length (blk j) = c) -> i < N -> k < c ->
  flat_map blk (seq 0 N) !! (i * c + k) = blk i !! k.
Proof.
  intros Hc. induction N as [|N IH]; intros Hi Hk; [lia|].
  rewrite seq_S, flat_map_app. simpl. rewrite app_nil_r.
  destruct (decide (i < N)) as [Hlt|Hge].
  - rewrite lookup_app_l by (rewrite (blocks_length c) by exact Hc; nia).
    now apply IH.
  - assert (i = N) as -> by lia.
    rewrite lookup_app_r by (rewrite (blocks_length c) by exact Hc; lia).
    rewrite (blocks_length c) by exact Hc. f_equal. lia.
Qed.

Lemma blocks_lookup_inv {B} (c : nat) (blk : nat -> list B) (N q : nat) :
  0 < c -> (forall j, length (blk j) = c) -> q < N * c ->
  flat_map blk (seq 0 N) !! q = blk (q / c) !! (q mod c).
Proof.
  intros H0 Hc Hq.
  rewrite (Nat.div_mod_eq q c) at 1.
  rewrite (Nat.mul_comm c (q / c)).
  apply blocks_lookup; [exact Hc | | apply Nat.mod_upper_bound; lia].
  apply Nat.Div0.div_lt_upper_bound. lia.
Qed.

End ListFacts.

(** ** Force records *)

Module ForcesFacts.
Import Forces ListFacts.

(** *** The index lists *)

Lemma index_loop_blocks (N off : nat) (base : list nat) :
  index_loop N off base =
  flat_map (fun i => map (fun b => i * 9 + off + b) base) (seq 0 N).
Proof. unfold index_loop. now rewrite fold_left_app_flat_map. Qed.

Lemma index_loop_length (N off c : nat) :
  length (index_loop N off [c; S c; S (S c)]) = N * 3.
Proof. rewrite index_loop_blocks. now apply blocks_length. Qed.

Lemma index_loop_lookup (N off c i k : nat) :
  i < N -> k < 3 ->
  index_loop N off [c; S c; S (S c)] !! (i * 3 + k)
  = Some (i * 9 + off + c + k).
Proof.
  intros Hi Hk. rewrite index_loop_blocks.
  rewrite (blocks_lookup 3) by (auto; lia).
  destruct k as [|[|[|k]]]; simpl; try lia; f_equal; lia.
Qed.

Lemma index_loop_lookup_inv (N off c q p : nat) :
  index_loop N off [c; S c; S (S c)] !! q = Some p ->
  q < N * 3 /\ p = q / 3 * 9 + off + c + q mod 3.
Proof.
  intros Hq. assert (Hlt : q < N * 3).
  { apply lookup_lt_Some in Hq. now rewrite index_loop_length in Hq. }
  split; [exact Hlt|].
  rewrite (Nat.div_mod_eq q 3), (Nat.mul_comm 3 (q / 3)) in Hq.
  rewrite index_loop_lookup in Hq.
  - now injection Hq as <-.
  - apply Nat.Div0.div_lt_upper_bound. lia.
  - apply Nat.mod_upper_bound. lia.
Qed.

Lemma index_loop_elem (N off c p : nat) :
  p ∈ index_loop N off [c; S c; S (S c)] ->
  exists i k, i < N /\ k < 3 /\ p = i * 9 + off + c + k.
Proof.
  intros Hp. apply list_elem_of_lookup_1 in Hp as [q Hq].
  apply index_loop_lookup_inv in Hq as [Hlt ->].
  exists (q / 3), (q mod 3). repeat split.
  - apply Nat.Div0.div_lt_upper_bound. lia.
  - apply Nat.mod_upper_bound. lia.
Qed.

Lemma index_loop_NoDup (N off c : nat) :
  off + c + 3 <= 9 -> NoDup (index_loop N off [c; S c; S (S c)]).
Proof.
  intros Hoc. apply NoDup_alt. intros q1 q2 p H1 H2.
  apply index_loop_lookup_inv in H1 as [_ E1].
  apply index_loop_lookup_inv in H2 as [_ E2].
  pose proof (Nat.div_mod_eq q1 3). pose proof (Nat.div_mod_eq q2 3).
  pose proof (Nat.mod_upper_bound q1 3). pose proof (Nat.mod_upper_bound q2 3).
  lia.
Qed.

Lemma index_loop_bound (N off c w : nat) :
  N * 9 + off + c < w + 7 ->
  Forall (fun p => p < w) (index_loop N off [c; S c; S (S c)]).
Proof.
  intros Hw. apply Forall_forall. intros p Hp.
  apply index_loop_elem in Hp as (i & k & Hi & Hk & ->). lia.
Qed.

(** *** Assignments *)

Lemma setitem_ok {A} (l : list A) (i : nat) (v : A) :
  i < length l -> setitem l i v = Ok (<[i:=v]> l).
Proof. intros H. unfold setitem. now rewrite decide_True. Qed.

Lemma getitem_nth (l : list float) (i : nat) :
  i < length l -> getitem l i = Ok (nth i l nan).
Proof.
  intros H. unfold getitem.
  destruct (nth_lookup_or_length l i nan) as [-> | ?]; [reflexivity | lia].
Qed.

Lemma put_spec (idx : list nat) (vals row : list float) :
  length vals = length idx -> Forall (fun k => k < length row) idx ->
  NoDup idx ->
  exists row', put idx vals row = Ok row' /\ length row' = length row /\
    (forall q p, idx !! q = Some p -> row' !! p = vals !! q) /\
    (forall p, p ∉ idx -> row' !! p = row !! p).
Proof.
  revert vals row. induction idx as [|k idx IH]; intros vals row Hlen Hin Hnd.
  - destruct vals; [|discriminate]. exists row. repeat split; auto.
    intros q p Hq. discriminate.
  - destruct vals as [|v vals]; [discriminate|].
    apply Forall_cons in Hin as [Hk Hin]. apply NoDup_cons in Hnd as [Hk' Hnd].
    destruct (IH vals (<[k:=v]> row)) as (row' & Hput & Hl & Hhit & Hmiss).
    { simpl in Hlen. lia. }
    { now rewrite length_insert. }
    { exact Hnd. }
    exists row'. cbn [put]. rewrite setitem_ok by exact Hk. cbn.
    rewrite Hput, Hl, length_insert. repeat split.
    + intros [|q] p Hq.
      * injection Hq as <-. rewrite (Hmiss k Hk').
        now apply list_lookup_insert_eq.
      * now apply Hhit.
    + intros p Hp. apply not_elem_of_cons in Hp as [Hne Hp].
      rewrite (Hmiss p Hp). now apply list_lookup_insert_ne.
Qed.

Lemma ins3_length (j : nat) (v l : list float) :
  length (ins3 j v l) = length l.
Proof. unfold ins3. now rewrite !length_insert. Qed.

Lemma ins3_lookup_in (j k : nat) (v l : list float) :
  j * 3 + 2 < length l -> length v = 3 -> k < 3 ->
  ins3 j v l !! (j * 3 + k) = v !! k.
Proof.
  intros Hl Hv Hk. unfold ins3.
  destruct v as [|a [|b [|c [|]]]]; try discriminate.
  destruct k as [|[|[|k]]]; try lia; cbn [nth].
  - rewrite !list_lookup_insert_ne by lia. rewrite Nat.add_0_r.
    apply list_lookup_insert_eq. lia.
  - rewrite list_lookup_insert_ne by lia.
    apply list_lookup_insert_eq. rewrite length_insert. lia.
  - apply list_lookup_insert_eq. rewrite !length_insert. lia.
Qed.

Lemma ins3_lookup_out (j p : nat) (v l : list float) :
  p < j * 3 \/ j * 3 + 3 <= p -> ins3 j v l !! p = l !! p.
Proof.
  intros Hp. unfold ins3. now rewrite !list_lookup_insert_ne by lia.
Qed.

Lemma bind_Ok {A B} (a : A) (k : A -> result B) : (Ok a ≫= k) = k a.
Proof. reflexivity. Qed.

Lemma list3_eta (v : list float) :
  length v = 3 -> v = [nth 0 v nan; nth 1 v nan; nth 2 v nan].
Proof. destruct v as [|a [|b [|c [|]]]]; try discriminate. reflexivity. Qed.

Lemma list_eq_blocks (c : nat) (blk : nat -> list float) (N : nat)
    (l : list float) :
  0 < c -> (forall j, length (blk j) = c) -> length l = N * c ->
  (forall i k, i < N -> k < c -> l !! (i * c + k) = blk i !! k) ->
  l = flat_map blk (seq 0 N).
Proof.
  intros H0 Hc Hl Hlk. apply list_eq. intros p.
  destruct (decide (p < N * c)) as [Hp|Hp].
  - rewrite (blocks_lookup_inv c) by (auto; lia).
    rewrite (Nat.div_mod_eq p c) at 1. rewrite (Nat.mul_comm c (p / c)).
    apply Hlk; [apply Nat.Div0.div_lt_upper_bound; lia|].
    apply Nat.mod_upper_bound. lia.
  - rewrite !lookup_ge_None_2; [reflexivity | |];
      rewrite ?(blocks_length c) by exact Hc; lia.
Qed.

Lemma three_lookup (l : list float) (i k : nat) :
  k < 3 -> three l i !! k = Some (nth (i * 3 + k) l nan).
Proof.
  intros Hk. destruct k as [|[|[|k]]]; try lia; cbn;
    rewrite ?Nat.add_0_r; reflexivity.
Qed.

Lemma lookup_nth_Some (l : list float) (i : nat) :
  i < length l -> l !! i = Some (nth i l nan).
Proof.
  intros H. destruct (nth_lookup_or_length l i nan); [assumption | lia].
Qed.

Lemma index_loop_miss (N off c off' c' i k : nat) :
  k < 3 -> off + c + 3 <= off' + c' \/ off' + c' + 3 <= off + c ->
  off + c + 3 <= 9 -> off' + c' + 3 <= 9 ->
  i * 9 + off + c + k ∉ index_loop N off' [c'; S c'; S (S c')].
Proof.
  intros Hk Hd H1 H2 Hin.
  apply index_loop_elem in Hin as (i' & k' & _ & Hk' & E). lia.
Qed.

(** The row of [alltbl] after the three assignments: for each entity its
    three values of [tails], of [rotvals] and of [scalevals]. *)
Lemma fill_row_ok (N : nat) (tails_i rot scale : list float) :
  length tails_i = N * 3 -> length rot = N * 3 -> length scale = N * 3 ->
  fill_row N tails_i (rot, scale) =
    Ok (flat_map (fun i => three tails_i i ++ three rot i ++ three scale i)
                 (seq 0 N)).
Proof.
  intros Ht Hr Hs. unfold fill_row. cbn [fst snd]. rewrite Ht.
  destruct (put_spec (index_loop N 0 [0; 1; 2]) tails_i
              (replicate (N * 3 * 3) 0%float))
    as (row1 & -> & Hl1 & Hhit1 & Hmiss1).
  { now rewrite index_loop_length. }
  { apply index_loop_bound. rewrite length_replicate. lia. }
  { apply index_loop_NoDup. lia. }
  rewrite bind_Ok.
  destruct (put_spec (index_loop N 3 [0; 1; 2]) rot row1)
    as (row2 & -> & Hl2 & Hhit2 & Hmiss2).
  { now rewrite index_loop_length. }
  { apply index_loop_bound. rewrite Hl1, length_replicate. lia. }
  { apply index_loop_NoDup. lia. }
  rewrite bind_Ok.
  destruct (put_spec (index_loop N 6 [0; 1; 2]) scale row2)
    as (row3 & -> & Hl3 & Hhit3 & Hmiss3).
  { now rewrite index_loop_length. }
  { apply index_loop_bound. rewrite Hl2, Hl1, length_replicate. lia. }
  { apply index_loop_NoDup. lia. }
  f_equal. apply (list_eq_blocks 9); [lia | reflexivity | |].
  { rewrite Hl3, Hl2, Hl1, length_replicate. lia. }
  intros i k Hi Hk.
  assert (Hcase : k < 3 \/ (exists k', k' < 3 /\ k = 3 + k') \/
                  (exists k', k' < 3 /\ k = 6 + k')).
  { destruct (decide (k < 3)); [now left|]. right.
    destruct (decide (k < 6)); [left; exists (k - 3) | right; exists (k - 6)];
      lia. }
  destruct Hcase as [Hk3 | [(k' & Hk' & ->) | (k' & Hk' & ->)]].
  - rewrite lookup_app_l by (simpl; lia). rewrite three_lookup by exact Hk3.
    replace (i * 9 + k) with (i * 9 + 0 + 0 + k) by lia.
    rewrite Hmiss3 by (apply index_loop_miss; lia).
    rewrite Hmiss2 by (apply index_loop_miss; lia).
    rewrite (Hhit1 (i * 3 + k)) by now apply index_loop_lookup.
    apply lookup_nth_Some. lia.
  - rewrite lookup_app_r by (simpl; lia).
    rewrite lookup_app_l by (simpl; lia).
    replace (length (three tails_i i)) with 3 by reflexivity.
    replace (3 + k' - 3) with k' by lia. rewrite three_lookup by exact Hk'.
    replace (i * 9 + (3 + k')) with (i * 9 + 3 + 0 + k') by lia.
    rewrite Hmiss3 by (apply index_loop_miss; lia).
    rewrite (Hhit2 (i * 3 + k')) by now apply index_loop_lookup.
    apply lookup_nth_Some. lia.
  - rewrite lookup_app_r by (simpl; lia).
    rewrite lookup_app_r by (simpl; lia).
    replace (6 + k' - length (three tails_i i) - length (three rot i))
      with k' by (simpl; lia).
    rewrite three_lookup by exact Hk'.
    replace (i * 9 + (6 + k')) with (i * 9 + 6 + 0 + k') by lia.
    rewrite (Hhit3 (i * 3 + k')) by now apply index_loop_lookup.
    apply lookup_nth_Some. lia.
Qed.

Section Converter.

Variable readNames : list string -> list string.
Variable Quaternion : Type.
Variable normalized : Vector -> Vector.
Variable rotation_difference : Vector -> Vector -> Quaternion.
Variable to_euler : Quaternion -> string -> float * float * float.
Variable magnitude : Vector -> float.

#[local] Abbreviation eulerd :=
  (euler_degrees Quaternion normalized rotation_difference to_euler).
#[local] Abbreviation scl := (scales magnitude).
#[local] Abbreviation turn :=
  (entity_turn Quaternion normalized rotation_difference to_euler magnitude).
#[local] Abbreviation rot_row :=
  (Forces.rot_row Quaternion normalized rotation_difference to_euler).
#[local] Abbreviation scale_row := (Forces.scale_row magnitude).
#[local] Abbreviation out_row :=
  (Forces.out_row Quaternion normalized rotation_difference to_euler
                  magnitude).

Lemma euler_degrees_length (v : Vector) : length (eulerd v) = 3.
Proof. unfold euler_degrees. now destruct (to_euler _ _) as [[? ?] ?]. Qed.

Lemma scales_length (v : Vector) : length (scl v) = 3.
Proof. reflexivity. Qed.

(** One turn writes the three angles and the three scale values of entity
    [j] and nothing else. *)
Lemma entity_turn_ok (arrow_i rot scale : list float) (j : nat) :
  j * 3 + 2 < length arrow_i -> j * 3 + 2 < length rot ->
  j * 3 + 2 < length scale ->
  turn arrow_i j (rot, scale) =
    Ok (ins3 j (eulerd (arrow_vec arrow_i j)) rot,
        ins3 j (scl (arrow_vec arrow_i j)) scale).
Proof.
  intros Ha Hr Hs. unfold entity_turn.
  rewrite (getitem_nth arrow_i (j * 3)) by lia. rewrite bind_Ok.
  rewrite (getitem_nth arrow_i (j * 3 + 1)) by lia. rewrite bind_Ok.
  rewrite (getitem_nth arrow_i (j * 3 + 2)) by lia. rewrite bind_Ok.
  fold (arrow_vec arrow_i j). unfold euler_degrees, scales, ins3.
  destruct (to_euler _ _) as [[e0 e1] e2].
  replace (3 * j) with (j * 3) by lia.
  repeat first [ rewrite bind_Ok
               | rewrite setitem_ok by (rewrite ?length_insert; lia) ].
  destruct (magnitude (arrow_vec arrow_i j) <? 20)%float;
    repeat first [ rewrite bind_Ok
                 | rewrite setitem_ok by (rewrite ?length_insert; lia) ];
    reflexivity.
Qed.

(** The state after the first [m] turns of the loop over the entities. *)
Lemma entity_loop_inv (N m : nat) (arrow_i tails_i : list float) :
  length arrow_i = N * 3 -> length tails_i = N * 3 -> m <= N ->
  exists rot scale,
    foldR (turn arrow_i) (seq 0 m) (tails_i, tails_i) = Ok (rot, scale) /\
    length rot = N * 3 /\ length scale = N * 3 /\
    forall j k, j < m -> k < 3 ->
      rot !! (j * 3 + k) = eulerd (arrow_vec arrow_i j) !! k /\
      scale !! (j * 3 + k) = scl (arrow_vec arrow_i j) !! k.
Proof.
  intros Ha Ht. induction m as [|m IH]; intros Hm.
  - exists tails_i, tails_i. repeat split; auto; lia.
  - destruct IH as (rot & scale & Hfold & Hr & Hs & Hlk); [lia|].
    exists (ins3 m (eulerd (arrow_vec arrow_i m)) rot),
           (ins3 m (scl (arrow_vec arrow_i m)) scale).
    rewrite seq_S, foldR_app, Hfold, bind_Ok. cbn [foldR Nat.add].
    rewrite entity_turn_ok by lia. rewrite bind_Ok, !ins3_length.
    repeat split; auto.
    + destruct (decide (j = m)) as [->|Hne].
      * apply ins3_lookup_in; [lia | apply euler_degrees_length | exact H0].
      * rewrite ins3_lookup_out by lia. apply Hlk; lia.
    + destruct (decide (j = m)) as [->|Hne].
      * apply ins3_lookup_in; [lia | reflexivity | exact H0].
      * rewrite ins3_lookup_out by lia. apply Hlk; lia.
Qed.

Lemma row_turn_ok (N : nat) (arrow_i tails_i : list float) :
  length arrow_i = N * 3 -> length tails_i = N * 3 ->
  row_turn Quaternion normalized rotation_difference to_euler magnitude N
    (arrow_i, tails_i) = Ok (rot_row N arrow_i, scale_row N arrow_i).
Proof.
  intros Ha Ht. unfold row_turn.
  destruct (entity_loop_inv N N arrow_i tails_i Ha Ht (le_n N))
    as (rot & scale & -> & Hr & Hs & Hlk).
  do 2 f_equal.
  - apply (list_eq_blocks 3);
      [lia | intros j; apply euler_degrees_length | exact Hr |].
    intros i k Hi Hk. now apply Hlk.
  - apply (list_eq_blocks 3); [lia | reflexivity | exact Hs |].
    intros i k Hi Hk. now apply Hlk.
Qed.

(** *** The whole conversion *)

#[local] Abbreviation convert :=
  (fpdata2locrot readNames Quaternion normalized rotation_difference
                 to_euler magnitude).

Lemma take_columns_ok (ncols : nat) (d : matrix) (idx : list nat) :
  Forall (fun r => length r = ncols) d -> Forall (fun k => k < ncols) idx ->
  take_columns ncols d idx = Ok (map (fun r => map (fun k => nth k r nan) idx) d).
Proof.
  intros Hd Hidx. unfold take_columns.
  assert (forallb (fun k => k <? ncols) idx = true) as ->.
  { apply forallb_forall. intros k Hk. apply Nat.ltb_lt.
    rewrite Forall_forall in Hidx. apply Hidx. now apply list_elem_of_In. }
  apply mapR_ok_map. eapply Forall_impl; [exact Hd|].
  intros r Hr. apply mapR_ok_map. eapply Forall_impl; [exact Hidx|].
  intros k Hk. apply getitem_nth. simpl in *. lia.
Qed.

Lemma tails_of_length (N : nat) (row : list float) :
  length (tails_of N row) = N * 3.
Proof. unfold tails_of, idx_of. now rewrite length_map, index_loop_length. Qed.

Lemma arrow_of_length (N : nat) (row : list float) :
  length (arrow_of N row) = N * 3.
Proof.
  unfold arrow_of, idx_of. now rewrite !length_map, index_loop_length.
Qed.

Lemma tails_of_nth (N i k : nat) (row : list float) :
  i < N -> k < 3 ->
  nth (i * 3 + k) (tails_of N row) nan = nth (i * 9 + 4 + k) row nan.
Proof.
  intros Hi Hk. apply nth_lookup_Some. unfold tails_of, idx_of.
  rewrite lookup_map, index_loop_lookup by assumption. cbn. f_equal. f_equal.
  lia.
Qed.

Lemma arrow_of_nth (N i k : nat) (row : list float) :
  i < N -> k < 3 ->
  nth (i * 3 + k) (arrow_of N row) nan = nth (i * 9 + 1 + k) row nan.
Proof.
  intros Hi Hk. apply nth_lookup_Some. unfold arrow_of, idx_of.
  rewrite !lookup_map, index_loop_lookup by assumption. cbn. f_equal. f_equal.
  lia.
Qed.

(** The vector the loop builds is the second, third and fourth field of the
    entity's nine. *)
Lemma arrow_vec_of (N i : nat) (row : list float) :
  i < N -> arrow_vec (arrow_of N row) i = thisarrow_of row i.
Proof.
  intros Hi. unfold arrow_vec, thisarrow_of.
  rewrite <- (Nat.add_0_r (i * 3)) at 1.
  rewrite !arrow_of_nth by lia.
  replace (i * 9 + 1 + 0) with (i * 9 + 1) by lia.
  replace (i * 9 + 1 + 1) with (i * 9 + 2) by lia.
  replace (i * 9 + 1 + 2) with (i * 9 + 3) by lia.
  reflexivity.
Qed.

Lemma flat_map_ext_seq {B} (f g : nat -> list B) (N : nat) :
  (forall i, i < N -> f i = g i) ->
  flat_map f (seq 0 N) = flat_map g (seq 0 N).
Proof.
  induction N as [|N IH]; intros H; [reflexivity|].
  rewrite seq_S, !flat_map_app, IH by (intros; apply H; lia).
  simpl. rewrite (H N) by lia. reflexivity.
Qed.

Lemma three_blocks (blk : nat -> list float) (N i : nat) :
  (forall j, length (blk j) = 3) -> i < N ->
  three (flat_map blk (seq 0 N)) i = blk i.
Proof.
  intros Hb Hi. rewrite (list3_eta (blk i)) by apply Hb. unfold three.
  assert (E : forall k, k < 3 ->
            nth (i * 3 + k) (flat_map blk (seq 0 N)) nan = nth k (blk i) nan).
  { intros k Hk. rewrite !nth_lookup, (blocks_lookup 3) by assumption.
    reflexivity. }
  rewrite <- (E 0), <- (E 1), <- (E 2) by lia.
  now rewrite Nat.add_0_r.
Qed.

(** The two turns of a row, in terms of the input record. *)
Lemma fill_row_of (N : nat) (row : list float) :
  fill_row N (tails_of N row)
    (rot_row N (arrow_of N row), scale_row N (arrow_of N row))
  = Ok (tail (out_row N row)).
Proof.
  rewrite fill_row_ok.
  - f_equal. cbn [out_row tail]. apply flat_map_ext_seq. intros i Hi.
    unfold rot_row, scale_row.
    rewrite !(three_blocks _ N i), (arrow_vec_of N i row) by
      (auto using euler_degrees_length, scales_length).
    f_equal. unfold three.
    rewrite <- (Nat.add_0_r (i * 3)) at 1.
    rewrite !tails_of_nth by lia.
    replace (i * 9 + 4 + 0) with (i * 9 + 4) by lia.
    replace (i * 9 + 4 + 1) with (i * 9 + 5) by lia.
    replace (i * 9 + 4 + 2) with (i * 9 + 6) by lia.
    reflexivity.
  - apply tails_of_length.
  - unfold rot_row. rewrite (blocks_length 3);
      auto using euler_degrees_length.
  - unfold scale_row. now rewrite (blocks_length 3).
Qed.

Lemma colnames_loop_ok (fpNames : list string) :
  colnames_loop fpNames = Ok ("Header" :: flat_map thisfpcols fpNames).
Proof.
  unfold colnames_loop.
  assert (H : forall m, m <= length fpNames ->
            foldR (fun i colnames =>
                     fp ← getitem fpNames i; Ok (colnames ++ thisfpcols fp))
                  (seq 0 m) ["Header"]
            = Ok ("Header" :: flat_map thisfpcols (take m fpNames))).
  { induction m as [|m IH]; intros Hm; [reflexivity|].
    rewrite seq_S, foldR_app, IH, bind_Ok by lia. cbn [foldR Nat.add].
    destruct (lookup_lt_is_Some_2 fpNames m) as [fp Hfp]; [lia|].
    unfold getitem. rewrite Hfp, !bind_Ok.
    rewrite (take_S_r _ _ _ Hfp), flat_map_app. reflexivity. }
  rewrite H by lia. now rewrite take_ge by lia.
Qed.

Lemma zip_map {A B C} (f : A -> B) (g : A -> C) (l : list A) :
  zip (map f l) (map g l) = map (fun x => (f x, g x)) l.
Proof. induction l as [|x l IH]; [reflexivity|]. cbn. now rewrite <- IH. Qed.

Lemma zip_with_cons_map {A} (h : A -> float) (t : A -> list float)
    (l : list A) :
  zip_with cons (map h l) (map t l) = map (fun x => h x :: t x) l.
Proof. induction l as [|x l IH]; [reflexivity|]. cbn. now rewrite <- IH. Qed.

(** On the inputs it is written for, the conversion returns the record
    array of the rows [out_row] under ['Header'] and the nine names of each
    entity. *)
Lemma fpdata2locrot_ok (data : recarray) :
  force_records readNames data ->
  let fpNames := readNames (tail (names data)) in
  convert data =
    Ok {| names := "Header" :: flat_map thisfpcols fpNames;
          records := map (out_row (length fpNames)) (records data) |}.
Proof.
  intros (Hhead & HN & Hwidth & Hrows) fpNames.
  unfold entity_count in HN, Hwidth. fold fpNames in HN, Hwidth.
  destruct (names data) as [|n0 hn] eqn:Hnames; [discriminate|].
  injection Hhead as ->. cbn [tail length] in *.
  unfold fpdata2locrot. rewrite Hnames. cbn [tail]. fold fpNames.
  set (N := length fpNames) in *.
  assert (Hrows' : Forall (fun r => length r = length hn + 1) (records data)).
  { eapply Forall_impl; [exact Hrows|]. intros r Hr. simpl in *. lia. }
  assert (forallb (fun r => length r =? length hn + 1) (records data) = true)
    as ->.
  { apply forallb_forall. intros r Hr. apply Nat.eqb_eq.
    rewrite Forall_forall in Hrows'. apply Hrows'. now apply list_elem_of_In. }
  rewrite bind_Ok.
  destruct (N =? 0) eqn:HN0; [apply Nat.eqb_eq in HN0; lia|].
  rewrite bind_Ok.
  assert (Hidx : Forall (fun k => k < length hn + 1) (index_loop N 0 [4; 5; 6])).
  { apply index_loop_bound. lia. }
  assert (Hidx3 : Forall (fun k => k < length hn + 1)
                          (map (fun k => k - 3) (index_loop N 0 [4; 5; 6]))).
  { apply Forall_map. eapply Forall_impl; [exact Hidx|].
    intros k Hk. simpl in *. lia. }
  rewrite (take_columns_ok _ _ _ Hrows' Hidx), bind_Ok.
  rewrite (take_columns_ok _ _ _ Hrows' Hidx3), bind_Ok.
  fold (idx_of N).
  change (map (fun r => map (fun k => nth k r nan)
                            (map (fun k => k - 3) (idx_of N))) (records data))
    with (map (arrow_of N) (records data)).
  change (map (fun r => map (fun k => nth k r nan) (idx_of N)) (records data))
    with (map (tails_of N) (records data)).
  rewrite zip_map, mapR_map.
  rewrite (mapR_ok_map _ (fun x => (rot_row N (arrow_of N x),
                                    scale_row N (arrow_of N x)))).
  2:{ apply Forall_true. intros row.
      apply row_turn_ok; [apply arrow_of_length | apply tails_of_length]. }
  rewrite bind_Ok, zip_map, mapR_map.
  rewrite (mapR_ok_map _ (fun x => tail (out_row N x))).
  2:{ apply Forall_true. intros row. apply fill_row_of. }
  rewrite bind_Ok.
  unfold field. rewrite Hnames. cbn [field_index String.eqb Ascii.eqb Bool.eqb].
  rewrite (mapR_ok_map _ (fun r => nth 0 r nan)).
  2:{ eapply Forall_impl; [exact Hrows'|]. intros r Hr.
      apply getitem_nth. simpl in *. lia. }
  rewrite bind_Ok, colnames_loop_ok, bind_Ok.
  now rewrite zip_with_cons_map.
Qed.

(** *** Reading the output *)

Lemma out_row_length (N : nat) (row : list float) :
  length (out_row N row) = 1 + 9 * N.
Proof.
  unfold out_row. cbn [length]. rewrite (blocks_length 9); [lia|].
  intros j. cbn [length app]. rewrite length_app, euler_degrees_length.
  reflexivity.
Qed.

Lemma out_row_block (N i k : nat) (row : list float) :
  i < N -> k < 9 ->
  out_row N row !! (1 + 9 * i + k) =
    ([nth (i * 9 + 4) row nan; nth (i * 9 + 5) row nan;
      nth (i * 9 + 6) row nan]
     ++ eulerd (thisarrow_of row i) ++ scl (thisarrow_of row i)) !! k.
Proof.
  intros Hi Hk. unfold out_row.
  replace (1 + 9 * i + k) with (S (i * 9 + k)) by lia.
  change ((?x :: ?l) !! S ?n) with (l !! n).
  rewrite (blocks_lookup 9); [reflexivity | | exact Hi | exact Hk].
  intros j. cbn [length app]. rewrite length_app, euler_degrees_length.
  reflexivity.
Qed.

Lemma out_row_loc (N i k : nat) (row : list float) :
  i < N -> k < 3 ->
  out_row N row !! (1 + 9 * i + k) = Some (nth (9 * i + 4 + k) row nan).
Proof.
  intros Hi Hk. rewrite out_row_block by lia.
  replace (9 * i) with (i * 9) by lia.
  destruct k as [|[|[|k]]]; try lia; cbn; do 2 f_equal; lia.
Qed.

Lemma out_row_rot (N i k : nat) (row : list float) :
  i < N -> k < 3 ->
  out_row N row !! (1 + 9 * i + (3 + k)) = eulerd (thisarrow_of row i) !! k.
Proof.
  intros Hi Hk. rewrite out_row_block by lia.
  rewrite lookup_app_r by (simpl; lia). cbn [length].
  replace (3 + k - 3) with k by lia.
  apply lookup_app_l. rewrite euler_degrees_length. exact Hk.
Qed.

Lemma out_row_scale (N i k : nat) (row : list float) :
  i < N -> k < 3 ->
  out_row N row !! (1 + 9 * i + (6 + k)) = scl (thisarrow_of row i) !! k.
Proof.
  intros Hi Hk. rewrite out_row_block by lia.
  rewrite lookup_app_r by (simpl; lia). cbn [length].
  rewrite lookup_app_r by (rewrite euler_degrees_length; lia).
  rewrite euler_degrees_length. f_equal. lia.
Qed.

Lemma names_lookup (fpNames : list string) (i k : nat) (fp : string) :
  fpNames !! i = Some fp -> k < 9 ->
  ("Header" :: flat_map thisfpcols fpNames) !! (1 + 9 * i + k)
  = thisfpcols fp !! k.
Proof.
  intros Hfp Hk. replace (1 + 9 * i + k) with (S (9 * i + k)) by lia.
  change ((?x :: ?l) !! S ?n) with (l !! n).
  revert i Hfp. induction fpNames as [|fp' l IH]; intros i Hfp;
    [discriminate|].
  cbn [flat_map]. destruct i as [|i].
  - injection Hfp as ->. rewrite Nat.mul_0_r. now apply lookup_app_l.
  - rewrite lookup_app_r by (simpl; lia).
    replace (9 * S i + k - length (thisfpcols fp')) with (9 * i + k)
      by (simpl; lia).
    now apply IH.
Qed.

(** The record of the output that stands for a record of the input. *)
Lemma convert_row (data : recarray) (r : nat) (row : list float) :
  force_records readNames data -> records data !! r = Some row ->
  exists out,
    convert data = Ok out /\
    names out = "Header" :: flat_map thisfpcols (readNames (tail (names data)))
    /\ records out = map (out_row (entity_count readNames data)) (records data)
    /\ records out !! r = Some (out_row (entity_count readNames data) row).
Proof.
  intros Hwf Hrow. eexists. split; [now apply fpdata2locrot_ok|].
  cbn [names records]. repeat split.
  rewrite lookup_map. fold (entity_count readNames data).
  now rewrite Hrow.
Qed.

Lemma force_records_width (data : recarray) (r i : nat) (row : list float) :
  force_records readNames data -> records data !! r = Some row ->
  i < entity_count readNames data -> 9 * i + 6 < length row.
Proof.
  intros (_ & _ & Hw & Hrows) Hrow Hi.
  rewrite Forall_forall in Hrows.
  rewrite (Hrows row) by (eapply list_elem_of_lookup_2; exact Hrow). lia.
Qed.

(** C2 (amended).  For every entity [i] and every record, the vector that
    the rotation and the scale are computed from is the three fields at
    offsets [9*i + 1, 2, 3] as they are: nothing is subtracted, and the
    fields at [9*i + 4, 5, 6] take no part in it. *)
Theorem C2_arrow_is_second_group (data : recarray) (r i : nat)
    (row : list float) :
  force_records readNames data -> records data !! r = Some row ->
  i < entity_count readNames data ->
  let N := entity_count readNames data in
  let a := mkVector (nth (9 * i + 1) row nan) (nth (9 * i + 2) row nan)
                    (nth (9 * i + 3) row nan) in
  arrow_vec (arrow_of N row) i = a /\
  row !! (9 * i + 1) = Some (vec_x a) /\
  row !! (9 * i + 2) = Some (vec_y a) /\
  row !! (9 * i + 3) = Some (vec_z a) /\
  exists out orow,
    convert data = Ok out /\ records out !! r = Some orow /\
    forall k, k < 3 ->
      orow !! (1 + 9 * i + (3 + k)) = eulerd a !! k /\
      orow !! (1 + 9 * i + (6 + k)) = scl a !! k.
Proof.
  intros Hwf Hrow Hi N a.
  pose proof (force_records_width data r i row Hwf Hrow Hi) as Hlen.
  assert (Ha : thisarrow_of row i = a).
  { unfold thisarrow_of, a. now rewrite (Nat.mul_comm i 9). }
  repeat split.
  - rewrite <- Ha. now apply arrow_vec_of.
  - apply lookup_nth_Some. lia.
  - apply lookup_nth_Some. lia.
  - apply lookup_nth_Some. lia.
  - destruct (convert_row data r row Hwf Hrow) as (out & Hout & _ & _ & Hr).
    exists out, (out_row N row). repeat split; [exact Hout | exact Hr | |].
    + rewrite <- Ha. now apply out_row_rot.
    + rewrite <- Ha. now apply out_row_scale.
Qed.

(** C3 (amended).  For an input record in which the arrow of an entity is
    [(0,0,0)] the conversion raises nothing: it returns the reshaped
    records, in which the rotation fields of that entity hold the angles,
    in degrees, that the vector library gives for the zero vector, and
    [scalex] its length over 700. *)
Theorem C3_zero_arrow_converted (data : recarray) (r i : nat)
    (row : list float) :
  force_records readNames data -> records data !! r = Some row ->
  i < entity_count readNames data ->
  thisarrow_of row i = mkVector 0 0 0 ->
  exists out orow,
    convert data = Ok out /\ records out !! r = Some orow /\
    (forall k, k < 3 ->
       orow !! (1 + 9 * i + (3 + k)) = eulerd (mkVector 0 0 0) !! k) /\
    orow !! (1 + 9 * i + 6) = Some (magnitude (mkVector 0 0 0) / 700)%float.
Proof.
  intros Hwf Hrow Hi Hzero.
  destruct (convert_row data r row Hwf Hrow) as (out & Hout & _ & _ & Hr).
  exists out, (out_row (entity_count readNames data) row).
  repeat split; [exact Hout | exact Hr | |].
  - intros k Hk. rewrite <- Hzero. now apply out_row_rot.
  - rewrite <- Hzero.
    now rewrite (out_row_scale _ i 0) by lia.
Qed.

(** C6.  On a force record set of [N] entities the reshaped output has as
    many records as the input, [1 + 9*N] columns named [Header] and then,
    entity by entity, [_x _y _z _rotx _roty _rotz _scalex _scaley _scalez]
    behind the entity's name, and its column [Header], the first, is the
    input's. *)
Theorem C6_reshape_shape (data : recarray) :
  force_records readNames data ->
  let fpNames := readNames (tail (names data)) in
  let N := length fpNames in
  exists out,
    convert data = Ok out /\
    length (records out) = length (records data) /\
    Forall (fun orow => length orow = 1 + 9 * N) (records out) /\
    length (names out) = 1 + 9 * N /\
    names out !! 0 = Some "Header" /\
    (forall i fp k, fpNames !! i = Some fp -> k < 9 ->
       names out !! (1 + 9 * i + k) =
       [fp +:+ "_x"; fp +:+ "_y"; fp +:+ "_z";
        fp +:+ "_rotx"; fp +:+ "_roty"; fp +:+ "_rotz";
        fp +:+ "_scalex"; fp +:+ "_scaley"; fp +:+ "_scalez"] !! k) /\
    field out "Header" = field data "Header" /\
    map (fun orow => orow !! 0) (records out)
      = map (fun row => row !! 0) (records data).
Proof.
  intros Hwf fpNames N.
  pose proof (fpdata2locrot_ok data Hwf) as Hout. cbn zeta in Hout.
  fold fpNames in Hout. fold N in Hout.
  destruct Hwf as (Hhead & HN & Hw & Hrows).
  eexists. split; [exact Hout|]. cbn [names records].
  assert (Hcol0 : forall row, row ∈ records data ->
                              row !! 0 = Some (nth 0 row nan)).
  { intros row Hin. apply lookup_nth_Some.
    rewrite Forall_forall in Hrows. rewrite (Hrows row Hin).
    destruct (names data); [discriminate | simpl; lia]. }
  repeat split.
  - now rewrite length_map.
  - apply Forall_map, Forall_true. intros row. apply out_row_length.
  - cbn [length].
    rewrite flat_map_constant_length with (c := 9) by (intros; reflexivity).
    fold N. lia.
  - intros i fp k Hfp Hk. now apply names_lookup.
  - unfold field. cbn [names records field_index String.eqb Ascii.eqb
                       Bool.eqb].
    destruct (names data) as [|n0 hn]; [discriminate|].
    injection Hhead as ->.
    cbn [field_index String.eqb Ascii.eqb Bool.eqb].
    rewrite mapR_map.
    rewrite (mapR_ok_map _ (fun row => nth 0 row nan)),
            (mapR_ok_map _ (fun row => nth 0 row nan)); [reflexivity | |].
    + apply Forall_forall. intros row Hin. unfold getitem.
      now rewrite (Hcol0 row Hin).
    + apply Forall_true. intros row. reflexivity.
  - rewrite map_map. apply map_ext_in. intros row Hin.
    cbn. symmetry. apply Hcol0. now apply list_elem_of_In.
Qed.

(** C7.  For every entity and every record, with [a] the arrow of the
    entity, [scalex] is [|a| / 700] whatever the length, and [scaley] and
    [scalez] are 0 when [|a| < 20] and 1 when [|a| >= 20]. *)
Theorem C7_scale_fields (data : recarray) (r i : nat) (row : list float) :
  force_records readNames data -> records data !! r = Some row ->
  i < entity_count readNames data ->
  let a := thisarrow_of row i in
  exists out orow,
    convert data = Ok out /\ records out !! r = Some orow /\
    orow !! (1 + 9 * i + 6) = Some (magnitude a / 700)%float /\
    ((magnitude a <? 20)%float = true ->
       orow !! (1 + 9 * i + 7) = Some 0%float /\
       orow !! (1 + 9 * i + 8) = Some 0%float) /\
    ((20 <=? magnitude a)%float = true ->
       orow !! (1 + 9 * i + 7) = Some 1%float /\
       orow !! (1 + 9 * i + 8) = Some 1%float).
Proof.
  intros Hwf Hrow Hi a.
  destruct (convert_row data r row Hwf Hrow) as (out & Hout & _ & _ & Hr).
  set (N := entity_count readNames data) in *.
  exists out, (out_row N row).
  assert (H0 : out_row N row !! (1 + 9 * i + 6)
               = Some (magnitude a / 700)%float)
    by exact (out_row_scale N i 0 row Hi ltac:(lia)).
  assert (H1 : out_row N row !! (1 + 9 * i + 7)
               = Some (if (magnitude a <? 20)%float then 0 else 1)%float)
    by exact (out_row_scale N i 1 row Hi ltac:(lia)).
  assert (H2 : out_row N row !! (1 + 9 * i + 8)
               = Some (if (magnitude a <? 20)%float then 0 else 1)%float)
    by exact (out_row_scale N i 2 row Hi ltac:(lia)).
  split; [exact Hout|]. split; [exact Hr|]. split; [exact H0|]. split.
  - intros Hlt. rewrite H1, H2, Hlt. now split.
  - intros Hge. rewrite H1, H2, (leb_true_ltb_false _ _ Hge). now split.
Qed.

(** C10.  For every entity [i] and every record, the fields [_x], [_y] and
    [_z] of the entity in the output are the input fields at offsets
    [9*i + 4, 5, 6], copied as they are. *)
Theorem C10_location_verbatim (data : recarray) (r i k : nat)
    (row : list float) (fp : string) :
  force_records readNames data -> records data !! r = Some row ->
  readNames (tail (names data)) !! i = Some fp -> k < 3 ->
  exists out orow,
    convert data = Ok out /\ records out !! r = Some orow /\
    names out !! (1 + 9 * i + k) =
      [fp +:+ "_x"; fp +:+ "_y"; fp +:+ "_z"] !! k /\
    is_Some (row !! (9 * i + 4 + k)) /\
    orow !! (1 + 9 * i + k) = row !! (9 * i + 4 + k).
Proof.
  intros Hwf Hrow Hfp Hk.
  assert (Hi : i < entity_count readNames data)
    by (apply lookup_lt_Some in Hfp; exact Hfp).
  pose proof (force_records_width data r i row Hwf Hrow Hi) as Hlen.
  destruct (convert_row data r row Hwf Hrow) as (out & Hout & Hn & _ & Hr).
  exists out, (out_row (entity_count readNames data) row).
  repeat split; [exact Hout | exact Hr | | |].
  - rewrite Hn, (names_lookup _ i k fp Hfp) by lia.
    destruct k as [|[|[|k]]]; try lia; reflexivity.
  - apply lookup_lt_is_Some_2. lia.
  - rewrite out_row_loc by assumption. symmetry.
    apply lookup_nth_Some. lia.
Qed.

End Converter.

(** *** The sample records *)

Lemma two_plates_force_records : force_records sample_readNames two_plates.
Proof.
  unfold force_records. split; [reflexivity|].
  split; [vm_compute; lia|]. split; [vm_compute; lia|].
  repeat constructor.
Defined.

(** C2 as stated fails: in the first record the fields of entity 0 at
    offsets 1, 2, 3 are [(700, 0, 0)] and those at 4, 5, 6 are
    [(0.5, 0.25, 2)].  The code's arrow is [(700, 0, 0)], so that [scalex] is
    [700/700 = 1]; the difference of the specification is [(-699.5, 0.25, 2)],
    of another length. *)
Lemma C2_no_subtraction :
  records two_plates !! 0 = Some first_record /\
  arrow_vec (arrow_of 2 first_record) 0 = mkVector 700 0 0 /\
  arrow_spec first_record 0 = mkVector (-699.5) 0.25 2 /\
  (out ← sample_fpdata2locrot two_plates;
   orow ← getitem (records out) 0; getitem orow 7) = Ok 1%float /\
  (sample_magnitude (mkVector 700 0 0) / 700)%float = 1%float /\
  (sample_magnitude (arrow_spec first_record 0) / 700 <? 1)%float = true.
Proof. repeat split; vm_compute; reflexivity. Qed.

Lemma C2_arrow_is_second_group_witness :
  exists out orow,
    sample_fpdata2locrot two_plates = Ok out /\
    records out !! 0 = Some orow /\
    orow !! 7 = Some 1%float.
Proof.
  destruct (C2_arrow_is_second_group sample_readNames (Vector * Vector)
              sample_normalized sample_rotation_difference sample_to_euler
              sample_magnitude two_plates 0 0 first_record
              two_plates_force_records eq_refl ltac:(vm_compute; lia))
    as (_ & _ & _ & _ & out & orow & Hout & Hrow & Hk).
  exists out, orow. split; [exact Hout|]. split; [exact Hrow|].
  destruct (Hk 0 ltac:(lia)) as [_ Hs]. exact Hs.
Defined.

(** C3 as stated fails: in the second record the arrow of entity 0 is
    [(0, 0, 0)]; the conversion returns, with the three scale values of
    that entity 0. *)
Lemma C3_zero_arrow_returns :
  records two_plates !! 1 = Some second_record /\
  thisarrow_of second_record 0 = mkVector 0 0 0 /\
  (out ← sample_fpdata2locrot two_plates;
   orow ← getitem (records out) 1; Ok (take 3 (drop 7 orow)))
  = Ok [0; 0; 0]%float.
Proof. repeat split; vm_compute; reflexivity. Qed.

Lemma C3_zero_arrow_converted_witness :
  exists out orow,
    sample_fpdata2locrot two_plates = Ok out /\
    records out !! 1 = Some orow /\
    orow !! 7 = Some 0%float.
Proof.
  destruct (C3_zero_arrow_converted sample_readNames (Vector * Vector)
              sample_normalized sample_rotation_difference sample_to_euler
              sample_magnitude two_plates 1 0 second_record
              two_plates_force_records eq_refl ltac:(vm_compute; lia) eq_refl)
    as (out & orow & Hout & Hrow & _ & Hs).
  exists out, orow. split; [exact Hout|]. split; [exact Hrow|]. exact Hs.
Defined.

Lemma C6_reshape_shape_witness :
  exists out,
    sample_fpdata2locrot two_plates = Ok out /\
    length (records out) = 2 /\ length (names out) = 19 /\
    names out !! 10 = Some "e1_x" /\
    field out "Header" = Ok [1; 2]%float.
Proof.
  destruct (C6_reshape_shape sample_readNames (Vector * Vector)
              sample_normalized sample_rotation_difference sample_to_euler
              sample_magnitude two_plates two_plates_force_records)
    as (out & Hout & Hrec & _ & Hnames & _ & Hname & Hfield & _).
  exists out. split; [exact Hout|]. split; [exact Hrec|].
  split; [exact Hnames|]. split; [|exact Hfield].
  exact (Hname 1 "e1" 0 eq_refl ltac:(lia)).
Defined.

Lemma C7_scale_fields_witness :
  exists out orow,
    sample_fpdata2locrot two_plates = Ok out /\
    records out !! 0 = Some orow /\
    orow !! 16 = Some (10 / 700)%float /\
    orow !! 17 = Some 0%float /\ orow !! 18 = Some 0%float.
Proof.
  destruct (C7_scale_fields sample_readNames (Vector * Vector)
              sample_normalized sample_rotation_difference sample_to_euler
              sample_magnitude two_plates 0 1 first_record
              two_plates_force_records eq_refl ltac:(vm_compute; lia))
    as (out & orow & Hout & Hrow & Hx & Hlt & _).
  exists out, orow. split; [exact Hout|]. split; [exact Hrow|].
  split; [exact Hx|]. exact (Hlt eq_refl).
Defined.

Lemma C10_location_verbatim_witness :
  exists out orow,
    sample_fpdata2locrot two_plates = Ok out /\
    records out !! 0 = Some orow /\
    names out !! 11 = Some "e1_y" /\
    orow !! 11 = Some 4%float.
Proof.
  destruct (C10_location_verbatim sample_readNames (Vector * Vector)
              sample_normalized sample_rotation_difference sample_to_euler
              sample_magnitude two_plates 0 1 1 first_record "e1"
              two_plates_force_records eq_refl eq_refl ltac:(lia))
    as (out & orow & Hout & Hrow & Hname & _ & Hloc).
  exists out, orow. split; [exact Hout|]. split; [exact Hrow|].
  split; [exact Hname | exact Hloc].
Defined.

End ForcesFacts.

(** ** Runs of [apply_mot_to_model] *)

Module MotionRuns.
Import Motion MotionFacts.

(** *** Loops that succeed, loops that stop *)

Lemma bind_ok {A B} (t : list event) (a : A) (k : A -> blender B) :
  ((t, Ok a) ≫= k) = (t ++ (k a).1, (k a).2).
Proof. unfold mbind, blender_bind. now destruct (k a). Qed.

Lemma for_each_ok {A B} (body : A -> blender B) (ev : A -> list event)
    (val : A -> B) (l : list A) :
  Forall (fun a => body a = (ev a, Ok (val a))) l ->
  for_each body l = (flat_map ev l, Ok (map val l)).
Proof.
  induction 1 as [|a l Ha _ IH]; [reflexivity|].
  cbn [for_each flat_map map]. rewrite Ha, bind_ok, IH, bind_ok.
  cbn. now rewrite app_nil_r.
Qed.

Lemma for_each_raise {A B} (body : A -> blender B) (ev : A -> list event)
    (val : A -> B) (pre post : list A) (a : A) (t : list event) (e : exn) :
  Forall (fun x => body x = (ev x, Ok (val x))) pre ->
  body a = (t, Raise e) ->
  for_each body (pre ++ a :: post) = (flat_map ev pre ++ t, Raise e).
Proof.
  intros Hpre Ha. induction Hpre as [|x pre Hx _ IH].
  - cbn [app for_each flat_map]. now rewrite Ha.
  - cbn [app for_each flat_map]. rewrite Hx, bind_ok, IH. cbn.
    now rewrite app_assoc.
Qed.

Lemma flat_map_zip_snd {A B C} (f : B -> list C) (l : list A) (k : list B) :
  length l = length k ->
  flat_map (fun b => f b.2) (zip l k) = flat_map f k.
Proof.
  revert k. induction l as [|a l IH]; intros [|b k] H; try discriminate;
    [reflexivity|].
  cbn. rewrite <- IH by (simpl in H; lia). reflexivity.
Qed.

Section Mot.

Variable arctan2 : float -> float -> float.
Variable repr : float -> string.
Variable direction : string.
Variable collection : list string.

Lemma mot_body_run (n : nat) (b : string * Transform) :
  b.1 ∈ collection ->
  mot_body arctan2 direction collection n b =
    (mot_body_events arctan2 direction n b,
     Ok (body_pose arctan2 direction b.2).1).
Proof.
  intros Hb. unfold mot_body, mot_body_events, objects.
  rewrite bool_decide_eq_true_2 by exact Hb.
  now destruct (body_pose arctan2 direction b.2).
Qed.

Lemma mot_body_missing (n : nat) (b : string * Transform) :
  b.1 ∉ collection ->
  mot_body arctan2 direction collection n b = ([], Raise KeyError).
Proof.
  intros Hb. unfold mot_body, objects.
  rewrite bool_decide_eq_false_2 by exact Hb.
  now destruct (body_pose arctan2 direction b.2).
Qed.

Lemma bodies_at_names (bodyNames : list string)
    (fk : nat -> nat -> Transform) (n : nat) (P : string -> Prop) :
  Forall P bodyNames -> Forall (fun b => P b.1) (bodies_at bodyNames fk n).
Proof.
  intros H. apply Forall_forall. intros [b X] Hin.
  apply elem_of_zip_l in Hin. rewrite Forall_forall in H. now apply H.
Qed.

Lemma bodies_at_app (pre post : list string) (b : string)
    (fk : nat -> nat -> Transform) (n : nat) :
  exists rest,
    bodies_at (pre ++ b :: post) fk n =
    bodies_at pre fk n ++ (b, fk n (length pre)) :: rest.
Proof.
  unfold bodies_at. rewrite length_app, seq_app, map_app. cbn [length seq map].
  rewrite zip_with_app by now rewrite length_map, length_seq.
  cbn [zip_with]. eauto.
Qed.

Lemma mot_frame_run (bodyNames : list string) (fk : nat -> nat -> Transform)
    (n : nat) :
  Forall (fun b => b ∈ collection) bodyNames ->
  mot_frame arctan2 direction collection bodyNames fk n =
    (flat_map (mot_body_events arctan2 direction n) (bodies_at bodyNames fk n),
     Ok (mot_row arctan2 direction bodyNames fk n)).
Proof.
  intros H. unfold mot_frame. fold (bodies_at bodyNames fk n).
  rewrite (for_each_ok _ (mot_body_events arctan2 direction n)
             (fun b => (body_pose arctan2 direction b.2).1)).
  - rewrite bind_ok. cbn [fst snd mret blender_ret]. rewrite app_nil_r.
    f_equal. f_equal. unfold mot_row, bodies_at.
    rewrite <- flat_map_concat_map.
    rewrite (flat_map_zip_snd (fun X => (body_pose arctan2 direction X).1))
      by now rewrite length_map, length_seq.
    rewrite !flat_map_concat_map, map_map. reflexivity.
  - eapply Forall_impl; [apply bodies_at_names, H|].
    intros b Hb. now apply mot_body_run.
Qed.

Lemma mot_frame_missing (pre post : list string) (b : string)
    (fk : nat -> nat -> Transform) (n : nat) :
  Forall (fun b' => b' ∈ collection) pre -> b ∉ collection ->
  mot_frame arctan2 direction collection (pre ++ b :: post) fk n =
    (flat_map (mot_body_events arctan2 direction n) (bodies_at pre fk n),
     Raise KeyError).
Proof.
  intros Hpre Hb. unfold mot_frame.
  fold (bodies_at (pre ++ b :: post) fk n).
  destruct (bodies_at_app pre post b fk n) as [rest ->].
  rewrite (for_each_raise _ (mot_body_events arctan2 direction n)
             (fun b => (body_pose arctan2 direction b.2).1) _ _ _ [] KeyError).
  - cbn. now rewrite app_nil_r.
  - eapply Forall_impl; [apply bodies_at_names, Hpre|].
    intros b' Hb'. now apply mot_body_run.
  - now apply mot_body_missing.
Qed.

Lemma fps_mot_nonempty (times : list float) (fps : Z) :
  fps_mot times = Ok fps -> exists M, length times = S M.
Proof.
  destruct times as [|t times]; [discriminate|]. intros _. simpl. eauto.
Qed.

(** The steps of [mot_branch] when every body is in the collection. *)
Lemma mot_branch_run (times : list float) (bodyNames : list string)
    (fk : nat -> nat -> Transform) (fps : Z) :
  fps_mot times = Ok fps ->
  Forall (fun b => b ∈ collection) bodyNames ->
  mot_branch arctan2 repr direction collection times bodyNames fk =
    (render_fps fps ::
       flat_map (fun n => flat_map (mot_body_events arctan2 direction n)
                                   (bodies_at bodyNames fk n))
                (seq 0 (length times)),
     Ok (export_csv repr times bodyNames
           (map (mot_row arctan2 direction bodyNames fk)
                (seq 0 (length times))))).
Proof.
  intros Hfps Hin. unfold mot_branch.
  rewrite Hfps, lift_ok_bind, emit_bind.
  rewrite (for_each_ok _
             (fun n => flat_map (mot_body_events arctan2 direction n)
                                (bodies_at bodyNames fk n))
             (mot_row arctan2 direction bodyNames fk)).
  - rewrite bind_ok. cbn. now rewrite app_nil_r.
  - apply Forall_true. intros n. now apply mot_frame_run.
Qed.

(** The steps of [mot_branch] when a body is not in the collection. *)
Lemma mot_branch_missing (times : list float) (pre post : list string)
    (b : string) (fk : nat -> nat -> Transform) (fps : Z) :
  fps_mot times = Ok fps ->
  Forall (fun b' => b' ∈ collection) pre -> b ∉ collection ->
  mot_branch arctan2 repr direction collection times (pre ++ b :: post) fk =
    (render_fps fps ::
       flat_map (mot_body_events arctan2 direction 0) (bodies_at pre fk 0),
     Raise KeyError).
Proof.
  intros Hfps Hpre Hb. unfold mot_branch.
  destruct (fps_mot_nonempty _ _ Hfps) as [M ->].
  rewrite Hfps, lift_ok_bind, emit_bind.
  change (seq 0 (S M)) with ([] ++ 0 :: seq 1 M).
  rewrite (for_each_raise _ (fun _ => []) (fun _ => []) [] _ 0
             (flat_map (mot_body_events arctan2 direction 0)
                       (bodies_at pre fk 0)) KeyError).
  - reflexivity.
  - constructor.
  - now apply mot_frame_missing.
Qed.

End Mot.

(** *** The [.csv] branch on an array that fits its header *)

Lemma six_nth (row : list float) (i k : nat) :
  k < 6 ->
  nth k (take 6 (drop (6 * i + 1) row)) nan = nth (6 * i + 1 + k) row nan.
Proof.
  intros Hk. rewrite !nth_lookup, lookup_take_lt, lookup_drop by exact Hk.
  reflexivity.
Qed.

Lemma enumerate_elem {A} (l : list A) (P : nat * A -> Prop) :
  (forall i a, l !! i = Some a -> P (i, a)) -> Forall P (enumerate l).
Proof.
  intros H. apply Forall_forall. intros [i a] Hin.
  apply list_elem_of_lookup_1 in Hin as [j Hj]. unfold enumerate in Hj.
  apply lookup_zip_with_Some in Hj as (i' & a' & [= <- <-] & Hi & Ha).
  apply lookup_seq in Hi as [-> _]. now apply H.
Qed.

Lemma flat_map_ext_Forall {A B} (f g : A -> list B) (l : list A) :
  Forall (fun a => f a = g a) l -> flat_map f l = flat_map g l.
Proof.
  induction 1 as [|a l Ha _ IH]; [reflexivity|]. cbn. now rewrite Ha, IH.
Qed.

Section Csv.

Variable float_of : string -> result float.
Variable collection : list string.

Lemma item2_ok (rows : matrix) (n k : nat) (row : list float) :
  rows !! n = Some row -> k < length row ->
  item2 (Arr2 rows) n k = Ok (nth k row nan).
Proof.
  intros Hrow Hk. unfold item2, getitem. rewrite Hrow. cbn.
  destruct (nth_lookup_or_length row k nan) as [-> | ?]; [reflexivity | lia].
Qed.

Lemma csv_body_run (rows : matrix) (n i : nat) (row : list float)
    (b : string) :
  rows !! n = Some row -> 6 * i + 6 < length row -> b ∈ collection ->
  csv_body collection (Arr2 rows) n (i, b) =
    (csv_body_events n b (take 6 (drop (6 * i + 1) row)), Ok tt).
Proof.
  intros Hrow Hlen Hb. unfold csv_body, csv_body_events.
  rewrite !(item2_ok rows n _ row Hrow), !lift_ok_bind by lia.
  unfold objects. rewrite bool_decide_eq_true_2 by exact Hb.
  rewrite lift_ok_bind, !six_nth by lia.
  replace (6 * i + 1 + 0) with (6 * i + 1) by lia.
  replace (6 * i + 1 + 1) with (6 * i + 2) by lia.
  replace (6 * i + 1 + 2) with (6 * i + 3) by lia.
  replace (6 * i + 1 + 3) with (6 * i + 4) by lia.
  replace (6 * i + 1 + 4) with (6 * i + 5) by lia.
  replace (6 * i + 1 + 5) with (6 * i + 6) by lia.
  reflexivity.
Qed.

Lemma csv_frame_run (rows : matrix) (n : nat) (row : list float)
    (bodyNames : list string) :
  rows !! n = Some row -> 6 * length bodyNames < length row ->
  Forall (fun b => b ∈ collection) bodyNames ->
  for_each (csv_body collection (Arr2 rows) n) (enumerate bodyNames) =
    (csv_frame_events bodyNames n row,
     Ok (map (fun _ => tt) (enumerate bodyNames))).
Proof.
  intros Hrow Hlen Hin.
  apply (for_each_ok _
           (fun ib => csv_body_events n ib.2
                        (take 6 (drop (6 * ib.1 + 1) row)))
           (fun _ => tt)).
  apply enumerate_elem. intros i b Hb. cbn [fst snd].
  apply csv_body_run; [exact Hrow | |].
  - apply lookup_lt_Some in Hb. lia.
  - rewrite Forall_forall in Hin. apply Hin.
    eapply list_elem_of_lookup_2, Hb.
Qed.

Lemma first_column_ok (rows : matrix) :
  Forall (fun r => 0 < length r) rows ->
  first_column (Arr2 rows) = Ok (map (fun r => nth 0 r nan) rows).
Proof.
  intros H. cbn [first_column]. apply ListFacts.mapR_ok_map.
  eapply Forall_impl; [exact H|]. intros r Hr.
  now apply ForcesFacts.getitem_nth.
Qed.

Lemma csv_branch_run (text : string) (rows : matrix)
    (bodyNames : list string) (fps : Z) :
  read_csv float_of text = Ok (Arr2 rows, bodyNames) ->
  Forall (fun r => 6 * length bodyNames < length r) rows ->
  Forall (fun b => b ∈ collection) bodyNames ->
  fps_csv (map (fun r => nth 0 r nan) rows) = Ok fps ->
  csv_branch float_of collection text =
    (render_fps fps ::
       flat_map (fun n => csv_frame_events bodyNames n (nth n rows []))
                (seq 0 (length rows)),
     Ok tt).
Proof.
  intros Hread Hw Hin Hfps. unfold csv_branch.
  rewrite Hread, lift_ok_bind. rewrite first_column_ok.
  2:{ eapply Forall_impl; [exact Hw|]. intros r Hr. simpl in Hr. lia. }
  rewrite lift_ok_bind, Hfps, lift_ok_bind, emit_bind, length_map.
  rewrite (for_each_ok _
             (fun n => csv_frame_events bodyNames n (nth n rows []))
             (fun _ => map (fun _ => tt) (enumerate bodyNames))).
  - rewrite bind_ok. cbn. now rewrite app_nil_r.
  - apply Forall_forall. intros n Hn. apply elem_of_seq in Hn.
    destruct (lookup_lt_is_Some_2 rows n) as [row Hrow]; [lia|].
    rewrite (nth_lookup_Some _ _ [] _ Hrow).
    apply csv_frame_run; [exact Hrow | | exact Hin].
    rewrite Forall_forall in Hw. apply Hw.
    eapply list_elem_of_lookup_2, Hrow.
Qed.

(** X3.  When the array read has more than [6 * bodyCount] columns in every
    row, every body named by the header is in the collection and the frame
    rate can be derived, the [.csv] branch sets the frame rate once, then for
    each row [n], in order, and each body [i], in the header's order, sets
    the location to columns [6i+1 .. 6i+3] and the rotation to columns
    [6i+4 .. 6i+6] of the row and inserts the two keyframes at frame
    [n+1]. *)
Theorem X3_csv_branch_calls (text : string) (rows : matrix)
    (bodyNames : list string) (fps : Z) :
  read_csv float_of text = Ok (Arr2 rows, bodyNames) ->
  Forall (fun r => 6 * length bodyNames < length r) rows ->
  Forall (fun b => b ∈ collection) bodyNames ->
  fps_csv (map (fun r => nth 0 r nan) rows) = Ok fps ->
  csv_branch float_of collection text =
    (render_fps fps ::
       flat_map (fun n => csv_frame_events bodyNames n (nth n rows []))
                (seq 0 (length rows)),
     Ok tt).
Proof. exact (csv_branch_run text rows bodyNames fps). Qed.

Lemma enumerate_app {A} (pre post : list A) (b : A) :
  exists rest,
    enumerate (pre ++ b :: post) = enumerate pre ++ (length pre, b) :: rest.
Proof.
  unfold enumerate. rewrite length_app, seq_app. cbn [length seq].
  rewrite zip_with_app by now rewrite length_seq.
  cbn [zip_with]. eauto.
Qed.

Lemma csv_body_missing (rows : matrix) (n i : nat) (row : list float)
    (b : string) :
  rows !! n = Some row -> 6 * i + 6 < length row -> b ∉ collection ->
  csv_body collection (Arr2 rows) n (i, b) = ([], Raise KeyError).
Proof.
  intros Hrow Hlen Hb. unfold csv_body.
  rewrite !(item2_ok rows n _ row Hrow), !lift_ok_bind by lia.
  unfold objects. rewrite bool_decide_eq_false_2 by exact Hb. reflexivity.
Qed.

(** X4.  When a body named by the header is not in the collection (and the
    rows are wide enough for the header), the [.csv] branch stops with
    [KeyError] in its first frame: the frame rate is set, the bodies before
    the missing one are placed and keyed at frame 1, and nothing else. *)
Theorem X4_csv_missing_body (text : string) (rows : matrix)
    (pre post : list string) (b : string) (fps : Z) :
  read_csv float_of text = Ok (Arr2 rows, pre ++ b :: post) ->
  Forall (fun r => 6 * length (pre ++ b :: post) < length r) rows ->
  Forall (fun b' => b' ∈ collection) pre -> b ∉ collection ->
  fps_csv (map (fun r => nth 0 r nan) rows) = Ok fps ->
  csv_branch float_of collection text =
    (render_fps fps :: csv_frame_events pre 0 (nth 0 rows []),
     Raise KeyError).
Proof.
  intros Hread Hw Hpre Hb Hfps. unfold csv_branch.
  rewrite Hread, lift_ok_bind. rewrite first_column_ok.
  2:{ eapply Forall_impl; [exact Hw|]. intros r Hr. simpl in Hr. lia. }
  rewrite lift_ok_bind, Hfps, lift_ok_bind, emit_bind, length_map.
  destruct rows as [|row rows]; [discriminate|].
  apply Forall_cons in Hw as [Hrow _]. rewrite length_app in Hrow.
  cbn [length] in Hrow. cbn [length nth].
  change (seq 0 (S (length rows))) with ([] ++ 0 :: seq 1 (length rows)).
  destruct (enumerate_app pre post b) as [rest Hrest].
  rewrite (for_each_raise _ (fun _ => []) (fun _ => []) [] _ 0
             (csv_frame_events pre 0 row) KeyError).
  - reflexivity.
  - constructor.
  - rewrite Hrest. unfold csv_frame_events.
    rewrite <- (app_nil_r (flat_map _ (enumerate pre))).
    apply (for_each_raise _
             (fun ib => csv_body_events 0 ib.2
                          (take 6 (drop (6 * ib.1 + 1) row)))
             (fun _ => tt) _ _ _ [] KeyError).
    + apply enumerate_elem. intros i b' Hb'. cbn [fst snd].
      apply (csv_body_run (row :: rows) 0 i row b' eq_refl).
      * apply lookup_lt_Some in Hb'. lia.
      * rewrite Forall_forall in Hpre. apply Hpre.
        eapply list_elem_of_lookup_2, Hb'.
    + apply (csv_body_missing (row :: rows) 0 _ row b eq_refl); [lia|].
      exact Hb.
Qed.

End Csv.


(** *** Replaying the CSV the [.mot] branch wrote *)

Lemma fps_csv_of_mot (times : list float) (fps : Z) :
  fps_mot times = Ok fps -> fps_csv times = Ok fps.
Proof.
  unfold fps_mot, fps_csv.
  destruct (last_item times) as [t1|]; [|discriminate].
  destruct (getitem times 0) as [t0|]; [|discriminate]. cbn.
  unfold py_truediv. now destruct (_ =? 0)%float.
Qed.

Lemma first_values (times : list float) (X : matrix) :
  length X = length times ->
  map (fun r => nth 0 r nan) (insert_times times X) = times.
Proof.
  revert X. induction times as [|t times IH]; intros [|r X] H;
    try discriminate; [reflexivity|].
  cbn. f_equal. apply IH. simpl in H. lia.
Qed.

Section Replay.

Variable arctan2 : float -> float -> float.
Variable repr : float -> string.
Variable float_of : string -> result float.
Variable direction : string.
Variable collection : list string.

#[local] Abbreviation prints_back := (Motion.prints_back repr float_of).
#[local] Abbreviation row_of := (mot_row arctan2 direction).

Lemma mot_row_length (bodyNames : list string)
    (fk : nat -> nat -> Transform) (n : nat) :
  length (row_of bodyNames fk n) = 6 * length bodyNames.
Proof.
  unfold mot_row. rewrite (ListFacts.blocks_length 6); [lia|].
  intros i. apply loc_rot_length.
Qed.

Lemma mot_row_block (bodyNames : list string)
    (fk : nat -> nat -> Transform) (n i : nat) (t : float) :
  i < length bodyNames ->
  take 6 (drop (6 * i + 1) (t :: row_of bodyNames fk n)) =
  (body_pose arctan2 direction (fk n i)).1.
Proof.
  intros Hi. rewrite Nat.add_1_r. cbn [drop].
  apply list_eq. intros k. rewrite lookup_take, lookup_drop.
  destruct (decide (k < 6)) as [Hk|Hk].
  - unfold mot_row. rewrite (Nat.mul_comm 6 i).
    rewrite (ListFacts.blocks_lookup 6); [reflexivity | | exact Hi | exact Hk].
    intros j. apply loc_rot_length.
  - symmetry. apply lookup_ge_None_2.
    unfold body_pose. cbn [fst]. rewrite loc_rot_length. lia.
Qed.

(** X5.  The [.csv] branch on the CSV that the [.mot] branch writes (two
    frames or more, one body or more, names without comma, line feed or
    carriage return, values whose text reads back) sets the same frame rate and, for each
    frame and body in the same order, the location and the Euler angles that
    the [.mot] branch computed for that body, keyed at the same frame
    number. *)
Theorem X5_csv_replays_mot (times : list float) (bodyNames : list string)
    (fk : nat -> nat -> Transform) (fps : Z) :
  fps_mot times = Ok fps ->
  Forall (fun b => b ∈ collection) bodyNames ->
  bodyNames <> [] ->
  Forall (fun b => occurs comma b = false /\ occurs newline b = false /\
                  occurs cr b = false)
         bodyNames ->
  2 <= length times ->
  Forall prints_back times ->
  (forall n, n < length times -> Forall prints_back (row_of bodyNames fk n)) ->
  csv_branch float_of collection
    (export_csv repr times bodyNames
       (map (row_of bodyNames fk) (seq 0 (length times)))) =
  (render_fps fps ::
     flat_map (replay_events arctan2 direction bodyNames fk)
              (seq 0 (length times)),
   Ok tt).
Proof.
  intros Hfps Hin Hne Hclean HM Hpt Hpx.
  set (X := map (row_of bodyNames fk) (seq 0 (length times))).
  assert (HX : length X = length times)
    by (unfold X; now rewrite length_map, length_seq).
  assert (HXn : forall n, n < length times ->
                          X !! n = Some (row_of bodyNames fk n)).
  { intros n Hn. unfold X. rewrite ListFacts.lookup_map.
    now rewrite lookup_seq_lt. }
  assert (Hw : Forall (fun r => length r = 6 * length bodyNames) X).
  { apply Forall_map, Forall_true. intros n. apply mot_row_length. }
  destruct (read_export_csv repr float_of times bodyNames X)
    as (Hread & _ & _); auto.
  { apply Forall_forall. intros r Hr.
    apply list_elem_of_lookup_1 in Hr as [n Hn].
    assert (Hlt : n < length times)
      by (apply lookup_lt_Some in Hn; lia).
    rewrite (HXn n Hlt) in Hn. injection Hn as <-. now apply Hpx. }
  rewrite (csv_branch_run float_of collection _ _ _ fps Hread).
  - rewrite insert_times_length by exact HX. f_equal. f_equal.
    apply ForcesFacts.flat_map_ext_seq. intros n Hn.
    destruct (lookup_lt_is_Some_2 times n Hn) as [t Ht].
    rewrite (nth_lookup_Some _ _ [] _
               (insert_times_lookup _ _ _ _ _ Ht (HXn n Hn))).
    unfold csv_frame_events, replay_events.
    apply flat_map_ext_Forall, enumerate_elem. intros i b Hb. cbn [fst snd].
    rewrite mot_row_block; [reflexivity|]. now apply lookup_lt_Some in Hb.
  - eapply (insert_times_rows _ _ (fun _ => True));
      [ | now apply Forall_true | exact Hw ].
    intros t r _ Hr. simpl in *. lia.
  - exact Hin.
  - rewrite first_values by exact HX. now apply fps_csv_of_mot.
Qed.

End Replay.


(** *** Files with fewer than two rows *)

Section Short.

Variable repr : float -> string.
Variable float_of : string -> result float.
Variable collection : list string.

#[local] Abbreviation prints_back := (Motion.prints_back repr float_of).

Lemma mapR_app {A B} (f : A -> result B) (l1 l2 : list A) :
  mapR f (l1 ++ l2) = (a ← mapR f l1; b ← mapR f l2; Ok (a ++ b)).
Proof.
  induction l1 as [|x l1 IH].
  - cbn. destruct (mapR f l2); reflexivity.
  - cbn [app mapR]. rewrite IH.
    destruct (f x); [|reflexivity]. cbn.
    destruct (mapR f l1); [|reflexivity]. cbn.
    destruct (mapR f l2); reflexivity.
Qed.

Lemma mapR_error {A B} (f : A -> result B) (l : list A) (e e0 : exn) :
  (forall x e', f x = Raise e' -> e' = e0) ->
  mapR f l = Raise e -> e = e0.
Proof.
  intros Hf. induction l as [|x l IH]; [discriminate|]. cbn [mapR].
  destruct (f x) as [b|e'] eqn:Hx.
  - cbn. destruct (mapR f l) as [bs|e'']; [discriminate|].
    cbn. intros [= <-]. now apply IH.
  - cbn. intros [= <-]. now apply (Hf x).
Qed.

(** Reading the lines raises no other exception than [ValueError]. *)
Lemma parse_lines_error (lines : list string) (e : exn) :
  parse_lines float_of lines = Raise e -> e = ValueError.
Proof.
  apply mapR_error. intros l e'. apply mapR_error.
  intros x e''. unfold field_value. destruct (float_of x); congruence.
Qed.

Lemma same_length_app_false (A X : matrix) :
  same_length X = false -> same_length (A ++ X) = false.
Proof.
  intros HX. destruct (same_length (A ++ X)) eqn:H; [|reflexivity].
  rewrite <- HX. symmetry.
  destruct A as [|a A]; [exact H|]. destruct X as [|x X]; [reflexivity|].
  cbn [app same_length] in *. rewrite forallb_app in H.
  apply andb_prop in H as [_ H]. cbn [forallb] in H.
  apply andb_prop in H as [Hx H]. apply Nat.eqb_eq in Hx.
  rewrite Hx. exact H.
Qed.

Lemma to_array_ragged (rows : matrix) :
  2 <= length rows -> same_length rows = false ->
  to_array rows = Raise ValueError.
Proof.
  intros Hlen H. destruct rows as [|r1 [|r2 rows]]; simpl in Hlen; try lia.
  unfold to_array. now rewrite H.
Qed.

Lemma loadtxt_short (X : matrix) (header : string) :
  length X <= 1 -> occurs newline header = false ->
  occurs cr header = false ->
  Forall (Forall prints_back) X ->
  exists a, loadtxt float_of (savetxt repr X header) = Ok a /\
            first_column a = Raise IndexError.
Proof.
  intros HX Hh Hc Hpb. unfold loadtxt.
  destruct (savetxt_data_lines repr float_of X header Hpb)
    as (Lh & -> & HLh).
  rewrite (HLh Hh Hc). cbn [app].
  rewrite (uncomment_lines repr float_of) by exact Hpb.
  destruct X as [|r [|r' X]]; [| |simpl in HX; lia].
  - exists (Arr1 []). split; reflexivity.
  - cbn [map app].
    destruct (decide (Motion.line repr r = EmptyString)) as [He|Hne].
    + exists (Arr1 []). rewrite He. split; reflexivity.
    + rewrite filter_cons_True by exact Hne.
      rewrite (filter_cons_False _ EmptyString [])
        by (intros Hc'; now apply Hc').
      rewrite filter_nil. unfold parse_lines. cbn [mapR].
      rewrite (split_line repr float_of).
      * cbn. destruct r as [|x [|y r]]; eexists; split; reflexivity.
      * intros ->. now apply Hne.
      * now apply Forall_inv in Hpb.
Qed.

(** X6.  A CSV with no data row or one data row is not animated: [loadtxt]
    returns an array of fewer than two dimensions,
    [loc_rot_frame_all_np[:,0]] raises [IndexError], and no scene call is
    made.  (The header holds no line break, line feed or carriage
    return.) *)
Theorem X6_csv_short_file (X : matrix) (header : string) :
  length X <= 1 -> occurs newline header = false ->
  occurs cr header = false ->
  Forall (Forall prints_back) X ->
  csv_branch float_of collection (savetxt repr X header)
    = ([], Raise IndexError).
Proof.
  intros HX Hh Hc Hpb.
  destruct (loadtxt_short X header HX Hh Hc Hpb) as (a & Ha & Hcol).
  unfold csv_branch, read_csv.
  rewrite Ha, ForcesFacts.bind_Ok, lift_ok_bind, Hcol. reflexivity.
Qed.

(** The rows read from a file whose data rows are not of one length:
    whatever the header leaves behind its first line, the read ends in
    [ValueError]. *)
Lemma loadtxt_ragged (X : matrix) (header : string) :
  2 <= length X -> Forall (fun r => 2 <= length r) X ->
  Forall (Forall prints_back) X ->
  same_length X = false ->
  loadtxt float_of (savetxt repr X header) = Raise ValueError.
Proof.
  intros HX Hlen Hpb Hrag. unfold loadtxt.
  destruct (savetxt_data_lines repr float_of X header Hpb)
    as (Lh & -> & _).
  rewrite (filter_lines repr float_of) by assumption.
  unfold parse_lines at 1. rewrite mapR_app.
  fold (parse_lines float_of
          (filter (fun l => l <> EmptyString) (map uncomment Lh))).
  fold (parse_lines float_of (map (Motion.line repr) X)).
  destruct (parse_lines float_of (filter _ (map uncomment Lh)))
    as [rows_h|e] eqn:Hh.
  - rewrite (mapR_lines repr float_of); [| | exact Hpb].
    2:{ eapply Forall_impl; [exact Hlen|].
        intros [|] Hr; [simpl in Hr; lia | discriminate]. }
    cbn. apply to_array_ragged.
    + rewrite length_app. lia.
    + now apply same_length_app_false.
  - apply parse_lines_error in Hh as ->. reflexivity.
Qed.

(** X26.  A CSV whose data rows (two or more) do not all have the same
    number of fields is refused by [loadtxt] with [ValueError], before any
    scene call. *)
Theorem X26_csv_ragged_rows (X : matrix) (header : string) :
  occurs newline header = false ->
  2 <= length X -> Forall (fun r => 2 <= length r) X ->
  Forall (Forall prints_back) X ->
  same_length X = false ->
  csv_branch float_of collection (savetxt repr X header)
    = ([], Raise ValueError).
Proof.
  intros Hh HX Hlen Hpb Hrag. unfold csv_branch, read_csv.
  rewrite (loadtxt_ragged X header HX Hlen Hpb Hrag). reflexivity.
Qed.

End Short.

(** *** A time span of zero *)

(** X7.  When the last time minus the first is zero (one row, or the same
    time twice), the [.mot] branch stops with [ZeroDivisionError] before any
    scene call. *)
Theorem X7_mot_zero_span (arctan2 : float -> float -> float)
    (repr : float -> string) (direction : string)
    (collection : list string) (times : list float)
    (bodyNames : list string) (fk : nat -> nat -> Transform)
    (t_first t_last : float) :
  times !! 0 = Some t_first -> last times = Some t_last ->
  (t_last - t_first =? 0)%float = true ->
  mot_branch arctan2 repr direction collection times bodyNames fk
    = ([], Raise ZeroDivisionError).
Proof.
  intros H0 Hl Hz. unfold mot_branch.
  rewrite (fps_mot_unfold _ _ _ H0 Hl). unfold py_truediv. rewrite Hz.
  reflexivity.
Qed.

Lemma fps_csv_zero_span (times : list float) (t_first t_last : float) :
  times !! 0 = Some t_first -> last times = Some t_last ->
  (t_last - t_first =? 0)%float = true ->
  fps_csv times = Raise OverflowError \/ fps_csv times = Raise ValueError.
Proof.
  intros H0 Hl Hz. rewrite (fps_csv_unfold _ _ _ H0 Hl).
  unfold int_of_float. rewrite (div_zero_float_Q _ _ Hz).
  destruct (is_nan _); auto.
Qed.

(** X8.  When the last time minus the first is zero, the [.csv] branch
    raises no [ZeroDivisionError]: numpy's division gives an infinity or a
    nan, and [int()] stops the run with [OverflowError] or [ValueError],
    before any scene call. *)
Theorem X8_csv_zero_span (float_of : string -> result float)
    (collection : list string) (text : string) (a : ndarray)
    (bodyNames : list string) (times : list float) (t_first t_last : float) :
  read_csv float_of text = Ok (a, bodyNames) ->
  first_column a = Ok times ->
  times !! 0 = Some t_first -> last times = Some t_last ->
  (t_last - t_first =? 0)%float = true ->
  csv_branch float_of collection text = ([], Raise OverflowError) \/
  csv_branch float_of collection text = ([], Raise ValueError).
Proof.
  intros Hread Hcol H0 Hl Hz. unfold csv_branch.
  rewrite Hread, lift_ok_bind, Hcol, lift_ok_bind.
  destruct (fps_csv_zero_span times t_first t_last H0 Hl Hz) as [-> | ->];
    auto.
Qed.

Lemma Qtrunc_small (r : Q) : (Qabs r < 1)%Q -> Qtrunc r = 0%Z.
Proof.
  destruct r as [n d]. unfold Qtrunc, Qlt. cbn. intros H.
  assert (Habs : Z.abs (n ÷ Z.pos d) = (Z.abs n / Z.pos d)%Z).
  { rewrite <- Z.quot_abs by lia.
    rewrite (Z.abs_eq (Z.pos d)) by lia.
    apply Z.quot_div_nonneg; lia. }
  rewrite Z.div_small in Habs by lia. lia.
Qed.

(** X24.  When the frames are fewer than the seconds they span (the float
    quotient [len(times) / (t_last - t_first)] is below 1 in magnitude), both
    branches derive, and set, the frame rate 0. *)
Theorem X24_fps_zero (times : list float) (t_first t_last : float) (r : Q) :
  times !! 0 = Some t_first -> last times = Some t_last ->
  (t_last - t_first =? 0)%float = false ->
  float_Q (float_of_len (length times) / (t_last - t_first))%float = Some r ->
  (Qabs r < 1)%Q ->
  fps_mot times = Ok 0%Z /\ fps_csv times = Ok 0%Z.
Proof.
  intros H0 Hl Hne Hq Hr.
  rewrite (fps_mot_unfold _ _ _ H0 Hl), (fps_csv_unfold _ _ _ H0 Hl).
  unfold py_truediv. rewrite Hne, ForcesFacts.bind_Ok.
  unfold int_of_float. rewrite Hq, (Qtrunc_small r Hr). now split.
Qed.

(** *** The direction and the threshold *)

Lemma for_each_ext {A B} (f g : A -> blender B) (l : list A) :
  Forall (fun a => f a = g a) l -> for_each f l = for_each g l.
Proof.
  induction 1 as [|a l Ha _ IH]; [reflexivity|].
  cbn [for_each]. now rewrite Ha, IH.
Qed.

Lemma body_pose_not_zup (arctan2 : float -> float -> float)
    (direction : string) (X : Transform) :
  direction <> "zup" ->
  body_pose arctan2 direction X = body_pose arctan2 "yup" X.
Proof.
  intros H. unfold body_pose, up_axis.
  apply String.eqb_neq in H. rewrite H. reflexivity.
Qed.

(** X9.  The direction is compared with ['zup'] exactly: with any other
    string (['ZUP'], ['z-up'], a misspelling) the [.mot] branch runs as with
    ['yup'], the poses are left as OpenSim gives them. *)
Theorem X9_direction_exact (arctan2 : float -> float -> float)
    (repr : float -> string) (direction : string)
    (collection : list string) (times : list float)
    (bodyNames : list string) (fk : nat -> nat -> Transform) :
  direction <> "zup" ->
  mot_branch arctan2 repr direction collection times bodyNames fk =
  mot_branch arctan2 repr "yup" collection times bodyNames fk.
Proof.
  intros H. unfold mot_branch.
  assert (E : forall n,
            mot_frame arctan2 direction collection bodyNames fk n =
            mot_frame arctan2 "yup" collection bodyNames fk n).
  { intros n. unfold mot_frame. f_equal. apply for_each_ext, Forall_true.
    intros b. unfold mot_body. now rewrite body_pose_not_zup. }
  rewrite (for_each_ext _ (mot_frame arctan2 "yup" collection bodyNames fk))
    by now apply Forall_true.
  reflexivity.
Qed.

(** X10.  When [sy] is nan (a nan in the first column of the rotation) the
    test [sy > 1e-6] fails and the pose is decomposed by the second branch,
    with [rot_z = 0]. *)
Theorem X10_nan_singular_branch (arctan2 : float -> float -> float)
    (R H : matrix) :
  is_nan (sy_of (R_mat_of H)) = true ->
  loc_rot arctan2 R H =
    [item H 0 3; item H 1 3; item H 2 3;
     arctan2 (- item (R_mat_of H) 1 2)%float (item (R_mat_of H) 1 1);
     arctan2 (- item R 2 0)%float (sy_of (R_mat_of H));
     0%float].
Proof.
  intros Hn. unfold loc_rot. rewrite (is_nan_ltb _ _ Hn). reflexivity.
Qed.

(** X25.  In both directions the translation of the matrix assigned to
    [matrix_world] (the first three entries of the fourth row of [H.T]) is
    the location written to the CSV for that body. *)
Theorem X25_location_in_matrix_world (arctan2 : float -> float -> float)
    (direction : string) (X : Transform) :
  take 3 (nth 3 (body_pose arctan2 direction X).2 []) =
  take 3 (body_pose arctan2 direction X).1.
Proof.
  unfold body_pose, up_axis, loc_rot. cbn [fst snd].
  destruct (String.eqb direction "zup"), (_ <? _)%float; reflexivity.
Qed.


(** *** The coordinates of the motion file *)

Lemma radians_row_lookup (motionTypes : list nat) (row : list float)
    (c : nat) :
  radians_row motionTypes row !! c =
  (fun x => match motionTypes !! c with
            | Some 1 => (x * np_pi / 180)%float
            | _ => x
            end) <$> row !! c.
Proof. unfold radians_row. apply list_lookup_imap. Qed.

Lemma radians_row_length (motionTypes : list nat) (row : list float) :
  length (radians_row motionTypes row) = length row.
Proof. unfold radians_row. apply length_imap. Qed.

Lemma radians_row_step (motionTypes : list nat) (row : list float)
    (m t : nat) :
  motionTypes !! m = Some t -> m < length row ->
  radians_row (take (S m) motionTypes) row =
  if t =? 1
  then <[m := (nth m (radians_row (take m motionTypes) row) nan
               * np_pi / 180)%float]>
         (radians_row (take m motionTypes) row)
  else radians_row (take m motionTypes) row.
Proof.
  intros Ht Hm. apply list_eq. intros c.
  assert (Hlt : c < m ->
            take (S m) motionTypes !! c = take m motionTypes !! c).
  { intros Hc. rewrite !lookup_take_lt by lia. reflexivity. }
  assert (Hgt : m < c ->
            take (S m) motionTypes !! c = take m motionTypes !! c).
  { intros Hc. rewrite !lookup_take_ge by lia. reflexivity. }
  assert (Hm' : take m motionTypes !! m = None)
    by (apply lookup_take_ge; lia).
  assert (HSm : take (S m) motionTypes !! m = Some t)
    by (rewrite lookup_take_lt by lia; exact Ht).
  destruct (lookup_lt_is_Some_2 row m Hm) as [x Hx].
  assert (Hnth : nth m (radians_row (take m motionTypes) row) nan = x).
  { apply nth_lookup_Some. rewrite radians_row_lookup, Hx, Hm'.
    reflexivity. }
  destruct (Nat.eqb_spec t 1) as [-> | Hne].
  - destruct (decide (c = m)) as [-> | Hc].
    + rewrite list_lookup_insert_eq by (rewrite radians_row_length; lia).
      rewrite radians_row_lookup, Hx, HSm, Hnth. reflexivity.
    + rewrite list_lookup_insert_ne by lia.
      rewrite !radians_row_lookup.
      destruct (decide (c < m)); [rewrite Hlt by lia | rewrite Hgt by lia];
        reflexivity.
  - rewrite !radians_row_lookup.
    destruct (decide (c = m)) as [-> | Hc].
    + rewrite HSm, Hm', Hx. cbn.
      destruct t as [|[|t]]; try reflexivity. congruence.
    + destruct (decide (c < m)); [rewrite Hlt by lia | rewrite Hgt by lia];
        reflexivity.
Qed.

Lemma column_to_radians_ok (ncols i : nat) (data : matrix) :
  i < ncols -> Forall (fun r => length r = ncols) data ->
  column_to_radians ncols i data =
    Ok (map (fun row => <[i := (nth i row nan * np_pi / 180)%float]> row)
            data).
Proof.
  intros Hi Hw. unfold column_to_radians.
  apply Nat.ltb_lt in Hi as Hi'. rewrite Hi'.
  apply ListFacts.mapR_ok_map. eapply Forall_impl; [exact Hw|].
  intros row Hrow. simpl in Hrow.
  rewrite ForcesFacts.getitem_nth by lia. reflexivity.
Qed.

Lemma to_radians_prefix (ncols : nat) (motionTypes : list nat)
    (data : matrix) (m : nat) :
  m <= length motionTypes -> length motionTypes <= ncols ->
  Forall (fun r => length r = ncols) data ->
  fold_left (fun acc i =>
               d ← acc;
               t ← getitem motionTypes i;
               if t =? 1 then column_to_radians ncols i d else Ok d)
            (seq 0 m) (Ok data)
  = Ok (map (radians_row (take m motionTypes)) data).
Proof.
  intros Hm Hn Hw. induction m as [|m IH].
  - cbn. f_equal. rewrite <- (map_id data) at 1. apply map_ext_in.
    intros row _. apply list_eq. intros c.
    rewrite radians_row_lookup. cbn. now destruct (row !! c).
  - rewrite seq_S, fold_left_app, IH by lia. cbn [fold_left Nat.add].
    destruct (lookup_lt_is_Some_2 motionTypes m) as [t Ht]; [lia|].
    unfold getitem. rewrite Ht. cbn.
    assert (E : map (radians_row (take (S m) motionTypes)) data =
                map (fun row =>
                       if t =? 1
                       then <[m := (nth m (radians_row (take m motionTypes)
                                                       row) nan
                                    * np_pi / 180)%float]>
                              (radians_row (take m motionTypes) row)
                       else radians_row (take m motionTypes) row) data).
    { apply map_ext_in. intros row Hin. apply radians_row_step; [exact Ht|].
      rewrite Forall_forall in Hw. rewrite (Hw row); [lia|].
      now apply list_elem_of_In. }
    rewrite E. destruct (t =? 1).
    + rewrite column_to_radians_ok; [now rewrite map_map | lia |].
      apply Forall_map. eapply Forall_impl; [exact Hw|].
      intros row Hrow. simpl. now rewrite radians_row_length.
    + reflexivity.
Qed.

Lemma to_radians_ok (ncols : nat) (motionTypes : list nat) (data : matrix) :
  length motionTypes <= ncols ->
  Forall (fun r => length r = ncols) data ->
  to_radians ncols motionTypes data = Ok (map (radians_row motionTypes) data).
Proof.
  intros Hn Hw. unfold to_radians.
  rewrite (to_radians_prefix ncols motionTypes data (length motionTypes))
    by auto.
  now rewrite take_ge by lia.
Qed.

(** X11.  On a motion file with at least as many columns as the model has
    coordinates, the loop over the coordinates multiplies the column of
    every rotational coordinate (motion type 1) by [np.pi/180], once, and
    leaves every other column as it is: those of translational and coupled
    coordinates, and the columns past the model's coordinates. *)
Theorem X11_to_radians (ncols : nat) (motionTypes : list nat)
    (data : matrix) :
  length motionTypes <= ncols ->
  Forall (fun r => length r = ncols) data ->
  to_radians ncols motionTypes data = Ok (map (radians_row motionTypes) data).
Proof. exact (to_radians_ok ncols motionTypes data). Qed.

(** The loop keeps the shape of the matrix, and stops with no other
    exception than [IndexError]. *)
Lemma to_radians_cases (ncols : nat) (motionTypes : list nat)
    (data : matrix) :
  Forall (fun r => length r = ncols) data ->
  to_radians ncols motionTypes data = Raise IndexError \/
  exists d, to_radians ncols motionTypes data = Ok d /\
            length d = length data /\
            Forall (fun r => length r = ncols) d.
Proof.
  intros Hw. unfold to_radians. generalize (length motionTypes) as m.
  induction m as [|m IH]; [right; eauto|].
  rewrite seq_S, fold_left_app. cbn [fold_left Nat.add].
  destruct IH as [-> | (d & -> & Hlen & Hd)]; [now left|]. cbn.
  unfold getitem. destruct (motionTypes !! m) as [t|]; [|now left]. cbn.
  destruct (t =? 1); [|right; eauto].
  destruct (decide (m < ncols)) as [Hm|Hm].
  - right. rewrite column_to_radians_ok by assumption.
    eexists. split; [reflexivity|]. split; [now rewrite length_map|].
    apply Forall_map. eapply Forall_impl; [exact Hd|].
    intros row Hrow. simpl in *. now rewrite length_insert.
  - left. unfold column_to_radians.
    apply Nat.ltb_nlt in Hm. now rewrite Hm.
Qed.

Lemma mapR_getitem_seq (row : list float) (m : nat) :
  mapR (getitem row) (seq 0 m) =
  if decide (m <= length row) then Ok (take m row) else Raise IndexError.
Proof.
  induction m as [|m IH].
  - rewrite decide_True by lia. reflexivity.
  - rewrite seq_S. cbn [Nat.add].
    assert (Happ : forall l1 l2,
              mapR (getitem row) (l1 ++ l2) =
              (a ← mapR (getitem row) l1; b ← mapR (getitem row) l2;
               Ok (a ++ b))).
    { intros l1 l2. induction l1 as [|x l1 IH1].
      - cbn. destruct (mapR (getitem row) l2); reflexivity.
      - cbn [app mapR]. rewrite IH1.
        destruct (getitem row x); [|reflexivity]. cbn.
        destruct (mapR (getitem row) l1); [|reflexivity]. cbn.
        destruct (mapR (getitem row) l2); reflexivity. }
    rewrite Happ, IH.
    destruct (decide (m <= length row)) as [Hm|Hm].
    + cbn. unfold getitem.
      destruct (row !! m) as [x|] eqn:Hx.
      * cbn. rewrite decide_True by (apply lookup_lt_Some in Hx; lia).
        now rewrite (take_S_r _ _ _ Hx).
      * cbn. rewrite decide_False; [reflexivity|].
        apply lookup_ge_None_1 in Hx. lia.
    + cbn. rewrite decide_False by lia. reflexivity.
Qed.

Lemma coordinate_values_ok (ncoords : nat) (data : matrix) (n : nat)
    (row : list float) :
  data !! n = Some row -> ncoords <= length row ->
  coordinate_values ncoords data n = Ok (take ncoords row).
Proof.
  intros Hrow Hn. unfold coordinate_values.
  assert (getitem data n = Ok row) as -> by (unfold getitem; now rewrite Hrow).
  cbn. rewrite mapR_getitem_seq. now rewrite decide_True.
Qed.

Lemma coordinate_values_short (ncoords : nat) (data : matrix) (n : nat)
    (row : list float) :
  data !! n = Some row -> length row < ncoords ->
  coordinate_values ncoords data n = Raise IndexError.
Proof.
  intros Hrow Hn. unfold coordinate_values.
  assert (getitem data n = Ok row) as -> by (unfold getitem; now rewrite Hrow).
  cbn. rewrite mapR_getitem_seq. rewrite decide_False by lia. reflexivity.
Qed.

Section File.

Variable arctan2 : float -> float -> float.
Variable repr : float -> string.
Variable float_of : string -> result float.

Lemma mot_path_as_branch (direction : string) (collection : list string)
    (times : list float) (motionTypes : list nat) (ncols : nat)
    (data : matrix) (bodyNames : list string)
    (fk : nat -> nat -> Transform) :
  length motionTypes <= ncols ->
  Forall (fun r => length r = ncols) data ->
  length data = length times ->
  mot_path arctan2 repr direction collection times motionTypes ncols data
           bodyNames fk =
  mot_branch arctan2 repr direction collection times bodyNames fk.
Proof.
  intros Hn Hw Hlen. unfold mot_path, mot_branch.
  destruct (fps_mot times) as [fps|e]; [|reflexivity].
  rewrite !lift_ok_bind, !emit_bind.
  rewrite to_radians_ok, lift_ok_bind by assumption.
  rewrite Hlen.
  rewrite (for_each_ext _ (mot_frame arctan2 direction collection bodyNames
                                     fk)); [reflexivity|].
  apply Forall_forall. intros n Hin. apply elem_of_seq in Hin.
  destruct (lookup_lt_is_Some_2 data n) as [row Hrow]; [lia|].
  rewrite (coordinate_values_ok _ _ _ (radians_row motionTypes row)).
  - now rewrite lift_ok_bind.
  - rewrite ListFacts.lookup_map, Hrow. reflexivity.
  - rewrite radians_row_length. rewrite Forall_forall in Hw.
    rewrite (Hw row); [exact Hn|]. eapply list_elem_of_lookup_2, Hrow.
Qed.

(** X12.  On a motion file with at least as many columns as the model has
    coordinates, reading the coordinates adds no failure and no scene call:
    the [.mot] branch with the coordinates runs as [mot_branch]. *)
Theorem X12_mot_path_wide (direction : string) (collection : list string)
    (times : list float) (motionTypes : list nat) (ncols : nat)
    (data : matrix) (bodyNames : list string)
    (fk : nat -> nat -> Transform) :
  length motionTypes <= ncols ->
  Forall (fun r => length r = ncols) data ->
  length data = length times ->
  mot_path arctan2 repr direction collection times motionTypes ncols data
           bodyNames fk =
  mot_branch arctan2 repr direction collection times bodyNames fk.
Proof.
  exact (mot_path_as_branch direction collection times motionTypes ncols data
           bodyNames fk).
Qed.

(** X1.  On a motion file with at least as many columns as the model has
    coordinates (one row per time), when the frame rate can be derived and
    every body of the model is in the collection, the [.mot] branch sets the
    frame rate once, then for each row of the motion file, in order, and each
    body, in the model's order, assigns [matrix_world = H.T] and inserts a
    ['location'] and a ['rotation_euler'] keyframe at frame [n+1]; the CSV
    it writes holds one row of six values per body for each frame. *)
Theorem X1_mot_branch_calls (direction : string) (collection : list string)
    (times : list float) (motionTypes : list nat) (ncols : nat)
    (data : matrix) (bodyNames : list string)
    (fk : nat -> nat -> Transform) (fps : Z) :
  length motionTypes <= ncols ->
  Forall (fun r => length r = ncols) data ->
  length data = length times ->
  fps_mot times = Ok fps ->
  Forall (fun b => b ∈ collection) bodyNames ->
  mot_path arctan2 repr direction collection times motionTypes ncols data
           bodyNames fk =
    (render_fps fps ::
       flat_map (fun n => flat_map (mot_body_events arctan2 direction n)
                                   (bodies_at bodyNames fk n))
                (seq 0 (length times)),
     Ok (export_csv repr times bodyNames
           (map (mot_row arctan2 direction bodyNames fk)
                (seq 0 (length times))))).
Proof.
  intros Hn Hw Hlen Hfps Hin.
  rewrite mot_path_as_branch by assumption.
  now apply mot_branch_run.
Qed.

(** X2.  On a motion file with at least as many columns as the model has
    coordinates (one row per time), when a body of the model is not in the
    collection the [.mot] branch stops with [KeyError] in its first frame:
    the frame rate is set, the bodies before the missing one are keyed at
    frame 1, nothing else is keyed and no CSV is written. *)
Theorem X2_mot_missing_body (direction : string) (collection : list string)
    (times : list float) (motionTypes : list nat) (ncols : nat)
    (data : matrix) (pre post : list string) (b : string)
    (fk : nat -> nat -> Transform) (fps : Z) :
  length motionTypes <= ncols ->
  Forall (fun r => length r = ncols) data ->
  length data = length times ->
  fps_mot times = Ok fps ->
  Forall (fun b' => b' ∈ collection) pre -> b ∉ collection ->
  mot_path arctan2 repr direction collection times motionTypes ncols data
           (pre ++ b :: post) fk =
    (render_fps fps ::
       flat_map (mot_body_events arctan2 direction 0) (bodies_at pre fk 0),
     Raise KeyError).
Proof.
  intros Hn Hw Hlen Hfps Hpre Hb.
  rewrite mot_path_as_branch by assumption.
  now apply mot_branch_missing.
Qed.

(** X13.  On a motion file with fewer columns than the model has
    coordinates, the [.mot] branch sets the frame rate and then stops with
    [IndexError]: no body is keyed and no CSV is written. *)
Theorem X13_mot_path_narrow (direction : string) (collection : list string)
    (times : list float) (motionTypes : list nat) (ncols : nat)
    (data : matrix) (bodyNames : list string)
    (fk : nat -> nat -> Transform) (fps : Z) :
  ncols < length motionTypes ->
  Forall (fun r => length r = ncols) data ->
  length data = length times ->
  fps_mot times = Ok fps ->
  mot_path arctan2 repr direction collection times motionTypes ncols data
           bodyNames fk = ([render_fps fps], Raise IndexError).
Proof.
  intros Hn Hw Hlen Hfps. unfold mot_path.
  rewrite Hfps, lift_ok_bind, emit_bind.
  destruct (to_radians_cases ncols motionTypes data Hw)
    as [-> | (d & -> & Hd & Hwd)]; [reflexivity|].
  rewrite lift_ok_bind.
  destruct (fps_mot_nonempty _ _ Hfps) as [M HM].
  rewrite Hlen, HM.
  change (seq 0 (S M)) with ([] ++ 0 :: seq 1 M).
  rewrite (for_each_raise _ (fun _ => []) (fun _ => []) [] _ 0 [] IndexError).
  - reflexivity.
  - constructor.
  - destruct (lookup_lt_is_Some_2 d 0) as [row Hrow]; [lia|].
    rewrite (coordinate_values_short _ _ _ row Hrow); [reflexivity|].
    rewrite Forall_forall in Hwd. rewrite (Hwd row); [exact Hn|].
    eapply list_elem_of_lookup_2, Hrow.
Qed.

(** X14.  Without a collection ['osimModel'] the call ends in the
    [TypeError] of [raise('First import a model.')], whatever the file, and
    makes no scene call. *)
Theorem X14_no_collection (collections : string -> option (list string))
    (ext direction : string) (times : list float) (motionTypes : list nat)
    (ncols : nat) (data : matrix) (bodyNames : list string)
    (fk : nat -> nat -> Transform) (text : string) :
  collections "osimModel" = None ->
  apply_mot_to_model arctan2 repr float_of collections ext direction times
    motionTypes ncols data bodyNames fk text = ([], Raises_TypeError).
Proof. intros H. unfold apply_mot_to_model. now rewrite H. Qed.

(** X15.  With a file whose extension is neither ['.mot'] nor ['.csv']
    (compared exactly, so ['.MOT'] is neither) the call returns with no
    error, no scene call and no file written. *)
Theorem X15_other_extension (collections : string -> option (list string))
    (ext direction : string) (times : list float) (motionTypes : list nat)
    (ncols : nat) (data : matrix) (bodyNames : list string)
    (fk : nat -> nat -> Transform) (text : string) (collection : list string) :
  collections "osimModel" = Some collection ->
  ext <> ".mot" -> ext <> ".csv" ->
  apply_mot_to_model arctan2 repr float_of collections ext direction times
    motionTypes ncols data bodyNames fk text = ([], Returns None).
Proof.
  intros H Hm Hc. unfold apply_mot_to_model. rewrite H.
  apply String.eqb_neq in Hm, Hc. now rewrite Hm, Hc.
Qed.

End File.

(** *** The runs on the sample data *)

Lemma X1_mot_branch_calls_witness :
  mot_path sample_arctan2 signed_repr "yup" two_bodies half_second
           sample_types 4 sample_motion two_bodies sample_fk =
  (render_fps 4 ::
     flat_map (fun n => flat_map (mot_body_events sample_arctan2 "yup" n)
                                 (bodies_at two_bodies sample_fk n))
              (seq 0 2),
   Ok (export_csv signed_repr half_second two_bodies
         (map (mot_row sample_arctan2 "yup" two_bodies sample_fk)
              (seq 0 2)))).
Proof.
  apply (X1_mot_branch_calls sample_arctan2 signed_repr "yup" two_bodies
           half_second sample_types 4 sample_motion two_bodies sample_fk 4).
  - simpl. lia.
  - repeat constructor.
  - reflexivity.
  - reflexivity.
  - repeat constructor.
Defined.

Lemma X2_mot_missing_body_witness :
  mot_path sample_arctan2 signed_repr "yup" ["pelvis"] half_second
           sample_types 4 sample_motion two_bodies sample_fk =
  (render_fps 4 ::
     flat_map (mot_body_events sample_arctan2 "yup" 0)
              (bodies_at ["pelvis"] sample_fk 0),
   Raise KeyError).
Proof.
  apply (X2_mot_missing_body sample_arctan2 signed_repr "yup" ["pelvis"]
           half_second sample_types 4 sample_motion ["pelvis"] [] "femur_r"
           sample_fk 4).
  - simpl. lia.
  - repeat constructor.
  - reflexivity.
  - reflexivity.
  - repeat constructor.
  - intros H%list_elem_of_singleton. discriminate.
Defined.

Lemma X3_csv_branch_calls_witness :
  csv_branch sample_float_of two_bodies
    (export_csv sample_repr half_second two_bodies two_frames) =
  (render_fps 4 ::
     flat_map (fun n => csv_frame_events two_bodies n
                          (nth n (insert_times half_second two_frames) []))
              (seq 0 2),
   Ok tt).
Proof.
  apply (X3_csv_branch_calls sample_float_of two_bodies
           (export_csv sample_repr half_second two_bodies two_frames)
           (insert_times half_second two_frames) two_bodies 4).
  - vm_compute. reflexivity.
  - repeat constructor.
  - repeat constructor.
  - reflexivity.
Defined.

Lemma X4_csv_missing_body_witness :
  csv_branch sample_float_of ["pelvis"]
    (export_csv sample_repr half_second two_bodies two_frames) =
  (render_fps 4 ::
     csv_frame_events ["pelvis"] 0
       (nth 0 (insert_times half_second two_frames) []),
   Raise KeyError).
Proof.
  apply (X4_csv_missing_body sample_float_of ["pelvis"]
           (export_csv sample_repr half_second two_bodies two_frames)
           (insert_times half_second two_frames) ["pelvis"] [] "femur_r" 4).
  - vm_compute. reflexivity.
  - repeat constructor.
  - repeat constructor.
  - intros H%list_elem_of_singleton. discriminate.
  - reflexivity.
Defined.

Lemma X5_csv_replays_mot_witness :
  csv_branch signed_float_of two_bodies
    (export_csv signed_repr half_second two_bodies
       (map (mot_row sample_arctan2 "yup" two_bodies sample_fk) (seq 0 2))) =
  (render_fps 4 ::
     flat_map (replay_events sample_arctan2 "yup" two_bodies sample_fk)
              (seq 0 2),
   Ok tt).
Proof.
  apply (X5_csv_replays_mot sample_arctan2 signed_repr signed_float_of "yup"
           two_bodies half_second two_bodies sample_fk 4).
  - reflexivity.
  - repeat constructor.
  - discriminate.
  - repeat constructor.
  - simpl. lia.
  - repeat constructor.
  - intros n _. repeat constructor.
Defined.

Lemma X6_csv_short_file_witness :
  csv_branch sample_float_of two_bodies one_row_csv = ([], Raise IndexError).
Proof.
  apply (X6_csv_short_file sample_repr sample_float_of two_bodies
           [ [0; 1; 1; 1; 0; 0; 0] ]%float (bodyHeader ["a"])).
  - simpl. lia.
  - reflexivity.
  - reflexivity.
  - repeat constructor.
Defined.

Lemma X7_mot_zero_span_witness :
  mot_branch sample_arctan2 signed_repr "yup" two_bodies [1]%float
             two_bodies sample_fk = ([], Raise ZeroDivisionError).
Proof.
  apply (X7_mot_zero_span sample_arctan2 signed_repr "yup" two_bodies
           [1]%float two_bodies sample_fk 1 1); reflexivity.
Defined.

Lemma X8_csv_zero_span_witness :
  csv_branch sample_float_of two_bodies frozen_clock
    = ([], Raise OverflowError) \/
  csv_branch sample_float_of two_bodies frozen_clock
    = ([], Raise ValueError).
Proof.
  apply (X8_csv_zero_span sample_float_of two_bodies frozen_clock
           (Arr2 [ [0; 1; 1; 1; 0; 0; 0]; [0; 1; 1; 1; 0; 0; 0] ]%float)
           ["a"] [0; 0]%float 0 0).
  - vm_compute. reflexivity.
  - reflexivity.
  - reflexivity.
  - reflexivity.
  - reflexivity.
Defined.

Lemma X9_direction_exact_witness :
  mot_branch sample_arctan2 signed_repr "ZUP" two_bodies half_second
             two_bodies sample_fk =
  mot_branch sample_arctan2 signed_repr "yup" two_bodies half_second
             two_bodies sample_fk.
Proof.
  apply (X9_direction_exact sample_arctan2 signed_repr "ZUP" two_bodies
           half_second two_bodies sample_fk).
  discriminate.
Defined.

Lemma X10_nan_singular_branch_witness :
  nth 5 (loc_rot sample_arctan2 [] nan_pose) nan = 0%float.
Proof.
  rewrite (X10_nan_singular_branch sample_arctan2 [] nan_pose);
    reflexivity.
Defined.

Lemma X11_to_radians_witness :
  to_radians 4 sample_types sample_motion =
  Ok (map (radians_row sample_types) sample_motion).
Proof.
  apply (X11_to_radians 4 sample_types sample_motion).
  - simpl. lia.
  - repeat constructor.
Defined.

Lemma X12_mot_path_wide_witness :
  mot_path sample_arctan2 signed_repr "yup" two_bodies half_second
           sample_types 4 sample_motion two_bodies sample_fk =
  mot_branch sample_arctan2 signed_repr "yup" two_bodies half_second
             two_bodies sample_fk.
Proof.
  apply (X12_mot_path_wide sample_arctan2 signed_repr "yup" two_bodies
           half_second sample_types 4 sample_motion two_bodies sample_fk).
  - simpl. lia.
  - repeat constructor.
  - reflexivity.
Defined.

Lemma X13_mot_path_narrow_witness :
  mot_path sample_arctan2 signed_repr "yup" two_bodies half_second
           sample_types 2 [ [180; 1]; [90; 2] ]%float two_bodies sample_fk =
  ([render_fps 4], Raise IndexError).
Proof.
  apply (X13_mot_path_narrow sample_arctan2 signed_repr "yup" two_bodies
           half_second sample_types 2 [ [180; 1]; [90; 2] ]%float
           two_bodies sample_fk 4).
  - simpl. lia.
  - repeat constructor.
  - reflexivity.
  - reflexivity.
Defined.

Lemma X14_no_collection_witness :
  apply_mot_to_model sample_arctan2 signed_repr signed_float_of
    no_collections ".mot" "zup" half_second sample_types 4 sample_motion
    two_bodies sample_fk "" = ([], Raises_TypeError).
Proof.
  apply (X14_no_collection sample_arctan2 signed_repr signed_float_of
           no_collections ".mot" "zup" half_second sample_types 4
           sample_motion two_bodies sample_fk "").
  reflexivity.
Defined.

Lemma X15_other_extension_witness :
  apply_mot_to_model sample_arctan2 signed_repr signed_float_of
    sample_collections ".MOT" "zup" half_second sample_types 4 sample_motion
    two_bodies sample_fk "" = ([], Returns None).
Proof.
  apply (X15_other_extension sample_arctan2 signed_repr signed_float_of
           sample_collections ".MOT" "zup" half_second sample_types 4
           sample_motion two_bodies sample_fk "" two_bodies).
  - reflexivity.
  - discriminate.
  - discriminate.
Defined.

Lemma X24_fps_zero_witness :
  fps_mot [0; 4]%float = Ok 0%Z /\ fps_csv [0; 4]%float = Ok 0%Z.
Proof.
  apply (X24_fps_zero [0; 4]%float 0 4
           (Qmake 4503599627370496 9007199254740992)); reflexivity.
Defined.

Lemma X26_csv_ragged_rows_witness :
  csv_branch sample_float_of two_bodies
    (savetxt sample_repr ragged_rows (bodyHeader ["a"]))
  = ([], Raise ValueError).
Proof.
  apply (X26_csv_ragged_rows sample_repr sample_float_of two_bodies
           ragged_rows (bodyHeader ["a"])).
  - reflexivity.
  - simpl. lia.
  - repeat constructor.
  - repeat constructor.
  - reflexivity.
Defined.

End MotionRuns.

(** ** Runs of [fpdata2locrot] *)

Module ForcesRuns.
Import Forces ListFacts ForcesFacts.

(** *** The index lists *)

Lemma index_loop_mem (N off p : nat) :
  p ∈ index_loop N off [0; 1; 2] <->
  exists i k, i < N /\ k < 3 /\ p = i * 9 + off + k.
Proof.
  split.
  - intros Hp. apply (index_loop_elem N off 0) in Hp
      as (i & k & Hi & Hk & ->).
    exists i, k. repeat split; auto; lia.
  - intros (i & k & Hi & Hk & ->).
    eapply list_elem_of_lookup_2.
    rewrite (index_loop_lookup N off 0 i k Hi Hk). f_equal. lia.
Qed.

(** X16.  The three index lists [locidx], [rotidx] and [scaleidx] of the
    last loop hold every column [0 .. 9N-1] of [alltbl] once: every value of
    the table is assigned exactly once, none is left at the zero of
    [np.zeros]. *)
Theorem X16_index_lists_cover (N : nat) :
  index_loop N 0 [0; 1; 2] ++ index_loop N 3 [0; 1; 2]
    ++ index_loop N 6 [0; 1; 2] ≡ₚ seq 0 (9 * N).
Proof.
  apply NoDup_Permutation.
  - apply NoDup_app. split; [apply (index_loop_NoDup N 0 0); lia|].
    split.
    + intros p Hp Hq. apply index_loop_mem in Hp as (i & k & Hi & Hk & ->).
      apply elem_of_app in Hq as [Hq | Hq];
        apply index_loop_mem in Hq as (i' & k' & Hi' & Hk' & E); lia.
    + apply NoDup_app. split; [apply (index_loop_NoDup N 3 0); lia|].
      split; [|apply (index_loop_NoDup N 6 0); lia].
      intros p Hp Hq. apply index_loop_mem in Hp as (i & k & Hi & Hk & ->).
      apply index_loop_mem in Hq as (i' & k' & Hi' & Hk' & E). lia.
  - apply NoDup_seq.
  - intros p. rewrite !elem_of_app, !index_loop_mem, elem_of_seq. split.
    + intros [H | [H | H]]; destruct H as (i & k & Hi & Hk & ->); lia.
    + intros [_ Hp].
      pose proof (Nat.div_mod_eq p 9) as E.
      pose proof (Nat.mod_upper_bound p 9 ltac:(lia)) as Hr.
      assert (Hi : p / 9 < N) by (apply Nat.Div0.div_lt_upper_bound; lia).
      destruct (decide (p mod 9 < 3)); [left|right].
      * exists (p / 9), (p mod 9). lia.
      * destruct (decide (p mod 9 < 6)); [left|right].
        -- exists (p / 9), (p mod 9 - 3). lia.
        -- exists (p / 9), (p mod 9 - 6). lia.
Qed.

Lemma doubling_length {A} (f : A -> A) (l : list A) (s : list nat) :
  length (fold_left (fun acc _ => acc ++ map f acc) s l)
  = length l * 2 ^ length s.
Proof.
  revert l. induction s as [|x s IH]; intros l; cbn [fold_left length].
  - rewrite Nat.pow_0_r. lia.
  - rewrite IH, length_app, length_map, Nat.pow_succ_r'. lia.
Qed.

(** X17.  The array that the first loop builds, and that the statements
    after it replace, has [3 * 2^N] entries for [N] entities. *)
Theorem X17_first_loop_length (N : nat) : length (first_loop N) = 3 * 2 ^ N.
Proof.
  unfold first_loop. rewrite doubling_length, length_seq. reflexivity.
Qed.

Section Edges.

Variable readNames : list string -> list string.
Variable Quaternion : Type.
Variable normalized : Vector -> Vector.
Variable rotation_difference : Vector -> Vector -> Quaternion.
Variable to_euler : Quaternion -> string -> float * float * float.
Variable magnitude : Vector -> float.

#[local] Abbreviation scl := (scales magnitude).
#[local] Abbreviation rot_row :=
  (Forces.rot_row Quaternion normalized rotation_difference to_euler).
#[local] Abbreviation scale_row := (Forces.scale_row magnitude).
#[local] Abbreviation out_row :=
  (Forces.out_row Quaternion normalized rotation_difference to_euler
                  magnitude).
#[local] Abbreviation convert :=
  (fpdata2locrot readNames Quaternion normalized rotation_difference
                 to_euler magnitude).

(** The records as wide as the field names: what a record array is. *)
Lemma reshape_ok (data : recarray) :
  names data <> [] ->
  Forall (fun r => length r = length (names data)) (records data) ->
  forallb (fun r => length r =? length (tail (names data)) + 1)
          (records data) = true.
Proof.
  intros Hne Hrows. apply forallb_forall. intros r Hr. apply Nat.eqb_eq.
  rewrite Forall_forall in Hrows.
  rewrite (Hrows r) by now apply list_elem_of_In.
  destruct (names data); [congruence | simpl; lia].
Qed.

(** X18.  When [readNames] finds no entity, [locidx] is still the empty
    list at [locidx.astype(int)] and the conversion stops with
    [AttributeError]. *)
Theorem X18_no_entity (data : recarray) :
  names data <> [] ->
  Forall (fun r => length r = length (names data)) (records data) ->
  readNames (tail (names data)) = [] ->
  convert data = Raise AttributeError.
Proof.
  intros Hne Hrows HN. unfold fpdata2locrot.
  rewrite (reshape_ok data Hne Hrows), HN. reflexivity.
Qed.

(** X19.  When the records (one at least) have fewer than [9N - 2] fields
    for [N >= 1] entities (six fields per entity and two entities or more,
    for one) the conversion stops with [IndexError] at [d[:,idx]]. *)
Theorem X19_too_narrow (data : recarray) :
  names data <> [] -> records data <> [] ->
  Forall (fun r => length r = length (names data)) (records data) ->
  0 < entity_count readNames data ->
  length (names data) + 2 < 9 * entity_count readNames data ->
  convert data = Raise IndexError.
Proof.
  intros Hne _ Hrows HN Hw. unfold fpdata2locrot, entity_count in *.
  rewrite (reshape_ok data Hne Hrows). rewrite bind_Ok.
  set (N := length (readNames (tail (names data)))) in *.
  destruct (N =? 0) eqn:HN0; [apply Nat.eqb_eq in HN0; lia|].
  rewrite bind_Ok. unfold take_columns.
  destruct (forallb _ (index_loop N 0 [4; 5; 6])) eqn:E; [|reflexivity].
  exfalso. rewrite forallb_forall in E.
  specialize (E ((N - 1) * 9 + 0 + 4 + 2)).
  rewrite Nat.ltb_lt in E.
  assert (length (tail (names data)) + 1 = length (names data))
    by (destruct (names data); [congruence | simpl; lia]).
  enough ((N - 1) * 9 + 0 + 4 + 2 < length (tail (names data)) + 1) by lia.
  apply E, list_elem_of_In. eapply list_elem_of_lookup_2.
  apply (index_loop_lookup N 0 4 (N - 1) 2); lia.
Qed.

(** The conversion up to the statement that reads the field ['Header']. *)
Lemma fpdata2locrot_run (data : recarray) :
  names data <> [] ->
  Forall (fun r => length r = length (names data)) (records data) ->
  0 < entity_count readNames data ->
  9 * entity_count readNames data <= length (names data) + 2 ->
  let fpNames := readNames (tail (names data)) in
  convert data =
    (header ← field data "Header";
     Ok {| names := "Header" :: flat_map thisfpcols fpNames;
           records :=
             zip_with cons header
               (map (fun x => tail (out_row (length fpNames) x))
                    (records data)) |}).
Proof.
  intros Hne Hrows HN Hwidth fpNames.
  unfold entity_count in HN, Hwidth. fold fpNames in HN, Hwidth.
  unfold fpdata2locrot. rewrite (reshape_ok data Hne Hrows). fold fpNames.
  assert (Hlen : length (tail (names data)) + 1 = length (names data))
    by (destruct (names data); [congruence | simpl; lia]).
  rewrite Hlen.
  set (N := length fpNames) in *.
  rewrite bind_Ok.
  destruct (N =? 0) eqn:HN0; [apply Nat.eqb_eq in HN0; lia|].
  rewrite bind_Ok.
  assert (Hidx : Forall (fun k => k < length (names data))
                        (index_loop N 0 [4; 5; 6])).
  { apply index_loop_bound. lia. }
  assert (Hidx3 : Forall (fun k => k < length (names data))
                          (map (fun k => k - 3) (index_loop N 0 [4; 5; 6]))).
  { apply Forall_map. eapply Forall_impl; [exact Hidx|].
    intros k Hk. simpl in *. lia. }
  rewrite (take_columns_ok _ _ _ Hrows Hidx), bind_Ok.
  rewrite (take_columns_ok _ _ _ Hrows Hidx3), bind_Ok.
  fold (idx_of N).
  change (map (fun r => map (fun k => nth k r nan)
                            (map (fun k => k - 3) (idx_of N))) (records data))
    with (map (arrow_of N) (records data)).
  change (map (fun r => map (fun k => nth k r nan) (idx_of N)) (records data))
    with (map (tails_of N) (records data)).
  rewrite zip_map, mapR_map.
  rewrite (mapR_ok_map _ (fun x => (rot_row N (arrow_of N x),
                                    scale_row N (arrow_of N x)))).
  2:{ apply Forall_true. intros row.
      apply row_turn_ok; [apply arrow_of_length | apply tails_of_length]. }
  rewrite bind_Ok, zip_map, mapR_map.
  rewrite (mapR_ok_map _ (fun x => tail (out_row N x))).
  2:{ apply Forall_true. intros row. apply fill_row_of. }
  rewrite bind_Ok.
  destruct (field data "Header") as [header|e]; [|reflexivity].
  rewrite !bind_Ok, colnames_loop_ok, bind_Ok. reflexivity.
Qed.

Lemma field_index_None (name : string) (l : list string) :
  name ∉ l -> field_index name l = None.
Proof.
  induction l as [|n l IH]; [reflexivity|]. intros Hn.
  apply not_elem_of_cons in Hn as [Hne Hn]. cbn.
  destruct (String.eqb_spec n name) as [->|_]; [congruence|].
  now rewrite IH.
Qed.

(** X20.  When no field is named ['Header'] the conversion does all its
    work on the records and then stops with [ValueError] at
    [data['Header']]. *)
Theorem X20_no_header (data : recarray) :
  names data <> [] ->
  Forall (fun r => length r = length (names data)) (records data) ->
  0 < entity_count readNames data ->
  9 * entity_count readNames data <= length (names data) + 2 ->
  "Header" ∉ names data ->
  convert data = Raise ValueError.
Proof.
  intros Hne Hrows HN Hw Hh.
  rewrite (fpdata2locrot_run data Hne Hrows HN Hw).
  unfold field. now rewrite field_index_None.
Qed.

(** *** What a record of the output depends on *)

Lemma out_row_ext (N : nat) (row row' : list float) :
  row !! 0 = row' !! 0 ->
  (forall i j, i < N -> 1 <= j <= 6 ->
     row !! (9 * i + j) = row' !! (9 * i + j)) ->
  out_row N row = out_row N row'.
Proof.
  intros H0 H. unfold Forces.out_row.
  assert (E : forall i j, i < N -> 1 <= j <= 6 ->
            nth (i * 9 + j) row nan = nth (i * 9 + j) row' nan).
  { intros i j Hi Hj. rewrite !nth_lookup, (Nat.mul_comm i 9).
    now rewrite H. }
  f_equal; [now rewrite !nth_lookup, H0|].
  apply flat_map_ext_seq. intros i Hi. unfold thisarrow_of.
  rewrite !(E i) by lia. reflexivity.
Qed.

(** X21.  The output depends on the field ['Header'] and on the fields
    [9i+1 .. 9i+6] of each entity only: two record sets of the same names
    that agree there are converted to the same output, whatever the fields
    [9i+7 .. 9i+9] (the moments) and the fields past the last entity
    hold. *)
Theorem X21_fields_ignored (data data' : recarray) :
  force_records readNames data -> force_records readNames data' ->
  names data = names data' ->
  Forall2 (fun row row' =>
             row !! 0 = row' !! 0 /\
             forall i j, i < entity_count readNames data -> 1 <= j <= 6 ->
               row !! (9 * i + j) = row' !! (9 * i + j))
          (records data) (records data') ->
  convert data = convert data'.
Proof.
  intros Hwf Hwf' Hn Hrows.
  rewrite (fpdata2locrot_ok _ _ _ _ _ _ data Hwf).
  rewrite (fpdata2locrot_ok _ _ _ _ _ _ data' Hwf').
  cbn zeta. rewrite <- Hn. do 2 f_equal.
  unfold entity_count in Hrows.
  induction Hrows as [|row row' l l' [H0 H] _ IH]; [reflexivity|].
  cbn [map]. f_equal; [now apply out_row_ext | exact IH].
Qed.

(** X22.  The conversion works record by record: the output for two
    record sets one after the other is the output for the first followed by
    the output for the second. *)
Theorem X22_records_app (data1 data2 : recarray) (out1 out2 : recarray) :
  force_records readNames data1 -> force_records readNames data2 ->
  names data1 = names data2 ->
  convert data1 = Ok out1 -> convert data2 = Ok out2 ->
  convert {| names := names data1;
             records := records data1 ++ records data2 |}
  = Ok {| names := names out1; records := records out1 ++ records out2 |}.
Proof.
  intros Hwf1 Hwf2 Hn H1 H2.
  rewrite (fpdata2locrot_ok _ _ _ _ _ _ data1 Hwf1) in H1.
  rewrite (fpdata2locrot_ok _ _ _ _ _ _ data2 Hwf2) in H2.
  cbn zeta in *. injection H1 as <-. injection H2 as <-.
  rewrite fpdata2locrot_ok.
  - cbn [names records]. rewrite map_app, <- Hn. reflexivity.
  - destruct Hwf1 as (Hh & HN & Hw & Hr), Hwf2 as (_ & _ & _ & Hr').
    unfold force_records, entity_count in *. cbn [names records].
    repeat split; auto. apply Forall_app. split; [exact Hr|].
    now rewrite Hn.
Qed.

(** X23.  When the length of an entity's arrow is nan, the test
    [magnitude < 20] fails and [scaley] and [scalez] are 1. *)
Theorem X23_nan_magnitude (data : recarray) (r i : nat) (row : list float) :
  force_records readNames data -> records data !! r = Some row ->
  i < entity_count readNames data ->
  is_nan (magnitude (thisarrow_of row i)) = true ->
  exists out orow,
    convert data = Ok out /\ records out !! r = Some orow /\
    orow !! (1 + 9 * i + 7) = Some 1%float /\
    orow !! (1 + 9 * i + 8) = Some 1%float.
Proof.
  intros Hwf Hrow Hi Hnan.
  destruct (convert_row readNames Quaternion normalized rotation_difference
              to_euler magnitude data r row Hwf Hrow)
    as (out & Hout & _ & _ & Hr).
  set (N := entity_count readNames data) in *.
  exists out, (out_row N row).
  split; [exact Hout|]. split; [exact Hr|].
  assert (H1 : out_row N row !! (1 + 9 * i + 7) =
               scl (thisarrow_of row i) !! 1)
    by exact (out_row_scale Quaternion normalized rotation_difference
                to_euler magnitude N i 1 row Hi ltac:(lia)).
  assert (H2 : out_row N row !! (1 + 9 * i + 8) =
               scl (thisarrow_of row i) !! 2)
    by exact (out_row_scale Quaternion normalized rotation_difference
                to_euler magnitude N i 2 row Hi ltac:(lia)).
  rewrite H1, H2. unfold scales.
  rewrite (is_nan_ltb_l _ 20 Hnan). now split.
Qed.

End Edges.

(** *** The conversion of the sample records *)

Lemma other_moments_force_records :
  force_records sample_readNames other_moments.
Proof.
  unfold force_records. split; [reflexivity|].
  split; [vm_compute; lia|]. split; [vm_compute; lia|].
  repeat constructor.
Defined.

Lemma nan_plate_force_records : force_records sample_readNames nan_plate.
Proof.
  unfold force_records. split; [reflexivity|].
  split; [vm_compute; lia|]. split; [vm_compute; lia|].
  repeat constructor.
Defined.

Lemma X18_no_entity_witness :
  sample_fpdata2locrot no_plate = Raise AttributeError.
Proof.
  apply (X18_no_entity sample_readNames (Vector * Vector) sample_normalized
           sample_rotation_difference sample_to_euler sample_magnitude
           no_plate).
  - discriminate.
  - repeat constructor.
  - reflexivity.
Defined.

Lemma X19_too_narrow_witness :
  sample_fpdata2locrot narrow_plates = Raise IndexError.
Proof.
  apply (X19_too_narrow sample_readNames (Vector * Vector) sample_normalized
           sample_rotation_difference sample_to_euler sample_magnitude
           narrow_plates).
  - discriminate.
  - discriminate.
  - repeat constructor.
  - vm_compute. lia.
  - vm_compute. lia.
Defined.

Lemma X20_no_header_witness :
  sample_fpdata2locrot frame_plates = Raise ValueError.
Proof.
  apply (X20_no_header sample_readNames (Vector * Vector) sample_normalized
           sample_rotation_difference sample_to_euler sample_magnitude
           frame_plates).
  - discriminate.
  - repeat constructor.
  - vm_compute. lia.
  - vm_compute. lia.
  - apply (bool_decide_unpack _). vm_compute. exact I.
Defined.

Lemma X21_fields_ignored_witness :
  sample_fpdata2locrot two_plates = sample_fpdata2locrot other_moments.
Proof.
  apply (X21_fields_ignored sample_readNames (Vector * Vector)
           sample_normalized sample_rotation_difference sample_to_euler
           sample_magnitude two_plates other_moments
           two_plates_force_records other_moments_force_records eq_refl).
  repeat constructor;
    intros i j Hi Hj; change (entity_count _ _) with 2 in Hi;
    destruct i as [|[|i]]; try lia;
    destruct j as [|[|[|[|[|[|[|j]]]]]]]; try lia; reflexivity.
Defined.

Lemma X22_records_app_witness :
  exists out,
    sample_fpdata2locrot two_plates = Ok out /\
    sample_fpdata2locrot
      {| names := names two_plates;
         records := records two_plates ++ records two_plates |}
    = Ok {| names := names out; records := records out ++ records out |}.
Proof.
  eexists. split; [vm_compute; reflexivity|].
  apply (X22_records_app sample_readNames (Vector * Vector)
           sample_normalized sample_rotation_difference sample_to_euler
           sample_magnitude two_plates two_plates _ _
           two_plates_force_records two_plates_force_records eq_refl);
    vm_compute; reflexivity.
Defined.

Lemma X23_nan_magnitude_witness :
  exists out orow,
    sample_fpdata2locrot nan_plate = Ok out /\
    records out !! 0 = Some orow /\
    orow !! 8 = Some 1%float /\ orow !! 9 = Some 1%float.
Proof.
  apply (X23_nan_magnitude sample_readNames (Vector * Vector)
           sample_normalized sample_rotation_difference sample_to_euler
           sample_magnitude nan_plate 0 0 _
           nan_plate_force_records eq_refl).
  - vm_compute. lia.
  - reflexivity.
Defined.

End ForcesRuns.
